(** * A shallow embedding of [bot.py]: validated fields, contact records,
      the address book and the upcoming-birthday computation.

    Python integers are [Z]; Python strings are [string] (characters are
    those of [ascii], code points below 256, where the class [\d] of [re]
    holds exactly the ten digits [0]..[9]).  The statements keep the two
    apart all the same: [Re.in_range] names the characters that a text
    must have, [Re.is_digit] stands where the code has the class [\d].
    Code that raises returns a [result]; methods that work on [self] are
    state transformers that return the outcome together with the state the
    object is left in. *)

From Stdlib Require Import ZArith List String Ascii Bool Lia.
Import ListNotations.
Local Open Scope string_scope.
Local Open Scope Z_scope.

(** ** Exceptions and the monad of methods *)

(** The text of an exception.  Formatted messages keep their parts instead
    of the rendered text. *)
Inductive message : Type :=
| Text (s : string)
| TimeDataMismatch (data fmt : string)
| UnconvertedData (rest : string)
| OutOfRange (field : string) (v : Z)
| Prefixed (pre : string) (inner : message).

Inductive exn : Type :=
| ValueError (m : message)
| OverflowError (m : message).

Definition result (A : Type) : Type := (exn + A)%type.

Definition Ok {A : Type} (a : A) : result A := inr a.
Definition Raise {A : Type} (e : exn) : result A := inl e.

Definition rbind {A B : Type} (r : result A) (f : A -> result B) : result B :=
  match r with
  | inl e => inl e
  | inr a => f a
  end.

(** [try: r except ValueError: h] *)
Definition try_except_ValueError {A : Type} (r : result A) (h : message -> result A)
  : result A :=
  match r with
  | inl (ValueError m) => h m
  | other => other
  end.

(** A method on an object of state [S]: the outcome and the state after the
    call, which is kept when the call raises. *)
Definition M (S A : Type) : Type := S -> result A * S.

Definition ret {S A : Type} (a : A) : M S A := fun s => (Ok a, s).

Definition bind {S A B : Type} (m : M S A) (f : A -> M S B) : M S B :=
  fun s =>
    match m s with
    | (inl e, s') => (inl e, s')
    | (inr a, s') => f a s'
    end.

Definition get {S : Type} : M S S := fun s => (Ok s, s).
Definition put {S : Type} (s' : S) : M S unit := fun _ => (Ok tt, s').
Definition modify {S : Type} (f : S -> S) : M S unit := fun s => (Ok tt, f s).
Definition raise {S A : Type} (e : exn) : M S A := fun s => (Raise e, s).
Definition lift {S A : Type} (r : result A) : M S A := fun s => (r, s).

Declare Scope method_scope.
Delimit Scope method_scope with method.
Notation "x <- m ;; k" := (bind m (fun x => k))
  (at level 61, m at next level, right associativity) : method_scope.
Notation "m ;; k" := (bind m (fun _ => k))
  (at level 61, right associativity) : method_scope.

(** [for x in l: acc = body x acc], stopping at the first exception. *)
Fixpoint for_each {S X A : Type} (l : list X) (body : X -> A -> M S A) (acc : A)
  : M S A :=
  match l with
  | [] => ret acc
  | x :: l' => bind (body x acc) (fun acc' => for_each l' body acc')
  end.

(** ** Characters and regular expressions ([re]) *)

Module Re.

Definition code (c : ascii) : Z := Z.of_N (N_of_ascii c).

(** [\d] *)
Definition is_digit (c : ascii) : bool := (48 <=? code c) && (code c <=? 57).

(** [[lo-hi]] *)
Definition in_range (lo hi c : ascii) : bool :=
  (code lo <=? code c) && (code c <=? code hi).

(** [re.sub] with the pattern [\D] and the empty replacement: every
    character that is not a digit is taken out. *)
Fixpoint sub_nondigits (s : string) : string :=
  match s with
  | EmptyString => EmptyString
  | String c s' =>
      if is_digit c then String c (sub_nondigits s') else sub_nondigits s'
  end.

(** The patterns that occur in the program and in [strptime]. *)
Inductive regex : Type :=
| Eps
| Lit (c : ascii)
| Range (lo hi : ascii)
| Digit
| Cat (r1 r2 : regex)
| Alt (r1 r2 : regex)
| Group (name : string) (r : regex).

Fixpoint repeat (n : nat) (r : regex) : regex :=
  match n with
  | O => Eps
  | S n' => Cat r (repeat n' r)
  end.

Definition groupdict : Type := list (string * string).

Fixpoint lookup (name : string) (g : groupdict) : option string :=
  match g with
  | [] => None
  | (n, v) :: g' => if String.eqb n name then Some v else lookup name g'
  end.

(** The text between the start of [s] and the start of its suffix [rest]. *)
Definition consumed (s rest : string) : string :=
  substring 0 (String.length s - String.length rest) s.

Definition step (p : ascii -> bool) {A : Type} (s : string)
           (k : string -> option A) : option A :=
  match s with
  | String c s' => if p c then k s' else None
  | EmptyString => None
  end.

(** The backtracking matcher: alternatives are tried from left to right,
    and the first one after which the rest of the pattern succeeds is
    taken.  [k] is the rest of the pattern. *)
Fixpoint run {A : Type} (r : regex) (s : string) (g : groupdict)
         (k : string -> groupdict -> option A) : option A :=
  match r with
  | Eps => k s g
  | Lit c => step (Ascii.eqb c) s (fun s' => k s' g)
  | Range lo hi => step (in_range lo hi) s (fun s' => k s' g)
  | Digit => step is_digit s (fun s' => k s' g)
  | Cat r1 r2 => run r1 s g (fun s' g' => run r2 s' g' k)
  | Alt r1 r2 =>
      match run r1 s g k with
      | Some a => Some a
      | None => run r2 s g k
      end
  | Group name r1 =>
      run r1 s g (fun s' g' => k s' ((name, consumed s s') :: g'))
  end.

(** [re.match]: the groups and the unmatched rest of the string. *)
Definition rmatch (r : regex) (s : string) : option (groupdict * string) :=
  run r s [] (fun rest g => Some (g, rest)).

(** [re.fullmatch]: the pattern has to reach the end of the string. *)
Definition fullmatch (r : regex) (s : string) : option groupdict :=
  run r s [] (fun rest g =>
                match rest with
                | EmptyString => Some g
                | String _ _ => None
                end).

End Re.

(** ** Dates ([datetime.date], [datetime.strptime], [strftime])

    The program calls the library [datetime]; its functions are given here
    as the library defines them ([_is_leap], [_days_before_year],
    [_ymd2ord], [_ord2ymd], [_check_date_fields] of [datetime], the
    patterns of [_strptime]). *)

Module Datetime.

Definition MINYEAR : Z := 1.
Definition MAXYEAR : Z := 9999.
Definition MAXORDINAL : Z := 3652059.

Record date : Type := mkdate { year : Z; month : Z; day : Z }.

Definition bool_to_int (b : bool) : Z := if b then 1 else 0.

(** [table[i]] for an index that is in range. *)
Definition index (table : list Z) (i : Z) : Z := nth (Z.to_nat i) table 0.

Definition DAYS_IN_MONTH : list Z :=
  [-1; 31; 28; 31; 30; 31; 30; 31; 31; 30; 31; 30; 31].

Definition DAYS_BEFORE_MONTH : list Z :=
  -1 :: fst (fold_left (fun '(acc, dbm) dim => (app acc [dbm], dbm + dim))
                       (tl DAYS_IN_MONTH) ([], 0)).

Definition is_leap (y : Z) : bool :=
  (y mod 4 =? 0) && (negb (y mod 100 =? 0) || (y mod 400 =? 0)).

Definition days_before_year (yr : Z) : Z :=
  let y := yr - 1 in
  y * 365 + y / 4 - y / 100 + y / 400.

Definition days_in_month (y m : Z) : Z :=
  if (m =? 2) && is_leap y then 29 else index DAYS_IN_MONTH m.

Definition days_before_month (y m : Z) : Z :=
  index DAYS_BEFORE_MONTH m + bool_to_int ((2 <? m) && is_leap y).

Definition ymd2ord (y m d : Z) : Z :=
  days_before_year y + days_before_month y m + d.

Definition DI400Y : Z := days_before_year 401.
Definition DI100Y : Z := days_before_year 101.
Definition DI4Y : Z := days_before_year 5.

Definition ord2ymd (n0 : Z) : Z * Z * Z :=
  let n := n0 - 1 in
  let n400 := n / DI400Y in
  let n := n mod DI400Y in
  let yr := n400 * 400 + 1 in
  let n100 := n / DI100Y in
  let n := n mod DI100Y in
  let n4 := n / DI4Y in
  let n := n mod DI4Y in
  let n1 := n / 365 in
  let n := n mod 365 in
  let yr := yr + (n100 * 100 + n4 * 4 + n1) in
  if (n1 =? 4) || (n100 =? 4) then (yr - 1, 12, 31)
  else
    let leapyear := (n1 =? 3) && (negb (n4 =? 24) || (n100 =? 3)) in
    let mo := Z.shiftr (n + 50) 5 in
    let preceding := index DAYS_BEFORE_MONTH mo + bool_to_int ((2 <? mo) && leapyear) in
    if n <? preceding then
      let mo' := mo - 1 in
      let preceding' :=
        preceding - (index DAYS_IN_MONTH mo' + bool_to_int ((mo' =? 2) && leapyear)) in
      (yr, mo', n - preceding' + 1)
    else (yr, mo, n - preceding + 1).

(** [_check_date_fields], the test of [date(year, month, day)]. *)
Definition check_date_fields (y m d : Z) : result (Z * Z * Z) :=
  if negb ((MINYEAR <=? y) && (y <=? MAXYEAR)) then
    Raise (ValueError (OutOfRange "year" y))
  else if negb ((1 <=? m) && (m <=? 12)) then
    Raise (ValueError (OutOfRange "month" m))
  else if negb ((1 <=? d) && (d <=? days_in_month y m)) then
    Raise (ValueError (OutOfRange "day" d))
  else Ok (y, m, d).

Definition new_date (y m d : Z) : result date :=
  rbind (check_date_fields y m d) (fun '(y', m', d') => Ok (mkdate y' m' d')).

(** [self.replace(year=..., day=...)]; an argument left out keeps the
    field of [self]. *)
Definition replace (self : date) (y : option Z) (d : option Z) : result date :=
  new_date (match y with Some v => v | None => year self end)
           (month self)
           (match d with Some v => v | None => day self end).

Definition toordinal (self : date) : Z :=
  ymd2ord (year self) (month self) (day self).

Definition fromordinal (n : Z) : date :=
  let '(y, m, d) := ord2ymd n in mkdate y m d.

(** [self < other], the order of the triples (year, month, day). *)
Definition lt (self other : date) : bool :=
  (year self <? year other)
  || ((year self =? year other)
      && ((month self <? month other)
          || ((month self =? month other) && (day self <? day other)))).

(** [(self - other).days] *)
Definition sub_days (self other : date) : Z := toordinal self - toordinal other.

(** [self + timedelta(days=n)] *)
Definition add_days (self : date) (n : Z) : result date :=
  let o := toordinal self + n in
  if (0 <? o) && (o <=? MAXORDINAL) then Ok (fromordinal o)
  else Raise (OverflowError (Text "date value out of range")).

(** Monday is 0, Sunday is 6. *)
Definition weekday (self : date) : Z := (toordinal self + 6) mod 7.

Definition digit_char (z : Z) : ascii := ascii_of_N (Z.to_N (48 + z)).

(** The last [width] decimal digits of [z]: [z] padded with zeros when it
    is shorter, which is [%02d] on the day and the month of a date. *)
Fixpoint decimal (width : nat) (z : Z) : string :=
  match width with
  | O => EmptyString
  | S w => decimal w (z / 10) ++ String (digit_char (z mod 10)) EmptyString
  end.

(** The decimal digits of [z] with no zero in front, for a number of at
    most [width] digits: [%d] of the C library. *)
Fixpoint plain_decimal (width : nat) (z : Z) : string :=
  match width with
  | O => EmptyString
  | S w =>
      (if z <? 10 then EmptyString else plain_decimal w (z / 10))
        ++ String (digit_char (z mod 10)) EmptyString
  end.

(** [self.strftime("%d.%m.%Y")].  The interpreter hands the format to
    [strftime] of the C library: the day and the month come as two digits,
    and the year as the number itself, which has four digits from the year
    1000 on and fewer before it ([999], not [0999]). *)
Definition strftime (self : date) : string :=
  decimal 2 (day self) ++ "." ++ decimal 2 (month self) ++ "."
          ++ plain_decimal 4 (year self).

(** The patterns of the directives [%d], [%m] and [%Y] in [_strptime]:
    [(?P<d>3[0-1]|[1-2]\d|0[1-9]|[1-9]| [1-9])],
    [(?P<m>1[0-2]|0[1-9]|[1-9])] and [(?P<Y>\d\d\d\d)]. *)
Definition regex_d : Re.regex :=
  Re.Alt (Re.Cat (Re.Lit "3") (Re.Range "0" "1"))
  (Re.Alt (Re.Cat (Re.Range "1" "2") Re.Digit)
  (Re.Alt (Re.Cat (Re.Lit "0") (Re.Range "1" "9"))
  (Re.Alt (Re.Range "1" "9")
          (Re.Cat (Re.Lit " ") (Re.Range "1" "9"))))).

Definition regex_m : Re.regex :=
  Re.Alt (Re.Cat (Re.Lit "1") (Re.Range "0" "2"))
  (Re.Alt (Re.Cat (Re.Lit "0") (Re.Range "1" "9"))
          (Re.Range "1" "9")).

Definition regex_Y : Re.regex := Re.repeat 4 Re.Digit.

Definition directive_d : Re.regex := Re.Group "d" regex_d.
Definition directive_m : Re.regex := Re.Group "m" regex_m.
Definition directive_Y : Re.regex := Re.Group "Y" regex_Y.

(** The pattern of the format [%d.%m.%Y]. *)
Definition format_regex : Re.regex :=
  Re.Cat directive_d
    (Re.Cat (Re.Lit ".") (Re.Cat directive_m (Re.Cat (Re.Lit ".") directive_Y))).

Fixpoint digits_value (s : string) (acc : Z) : option Z :=
  match s with
  | EmptyString => Some acc
  | String c s' =>
      if Re.is_digit c then digits_value s' (10 * acc + (Re.code c - 48))
      else None
  end.

Fixpoint lstrip (s : string) : string :=
  match s with
  | String " " s' => lstrip s'
  | _ => s
  end.

(** [int(s)] on what a group of [format_regex] can hold: decimal digits,
    with blanks in front. *)
Definition int (s : string) : option Z :=
  match lstrip s with
  | EmptyString => None
  | t => digits_value t 0
  end.

Definition group_int (name : string) (found : Re.groupdict) : option Z :=
  match Re.lookup name found with
  | Some v => int v
  | None => None
  end.

(** [datetime.strptime(data_string, "%d.%m.%Y")]; the time of day of the
    result is midnight, so the result is given as its date. *)
Definition strptime (data_string : string) : result date :=
  match Re.rmatch format_regex data_string with
  | None => Raise (ValueError (TimeDataMismatch data_string "%d.%m.%Y"))
  | Some (found, rest) =>
      match rest with
      | String _ _ => Raise (ValueError (UnconvertedData rest))
      | EmptyString =>
          match group_int "Y" found, group_int "m" found, group_int "d" found with
          | Some y, Some m, Some d => new_date y m d
          | _, _, _ => Raise (ValueError (Text "invalid literal for int()"))
          end
      end
  end.

End Datetime.

(** ** The fields of a record *)

Module Name.

Record t : Type := mk { value : string }.

(** The characters that [str.strip] removes. *)
Definition is_space (c : ascii) : bool :=
  let n := Re.code c in
  ((9 <=? n) && (n <=? 13)) || ((28 <=? n) && (n <=? 32))
  || (n =? 133) || (n =? 160).

Fixpoint lstrip (s : string) : string :=
  match s with
  | String c s' => if is_space c then lstrip s' else s
  | EmptyString => EmptyString
  end.

(** [s.rstrip()]: a character stays when it is not a space or something
    stays after it. *)
Fixpoint rstrip (s : string) : string :=
  match s with
  | String c s' =>
      match rstrip s' with
      | EmptyString => if is_space c then EmptyString else String c EmptyString
      | t => String c t
      end
  | EmptyString => EmptyString
  end.

Definition strip (s : string) : string := rstrip (lstrip s).

Definition init (v : string) : result t :=
  match strip v with
  | EmptyString => Raise (ValueError (Text "Name is required"))
  | stripped => Ok (mk stripped)
  end.

End Name.

Module Phone.

Record t : Type := mk { value : string }.

(** [re.fullmatch(r"\d{10}", value) is not None] *)
Definition is_valid_phone (v : string) : bool :=
  match Re.fullmatch (Re.repeat 10 Re.Digit) v with
  | Some _ => true
  | None => false
  end.

Definition init (v : string) : result t :=
  let cleaned := Re.sub_nondigits v in
  if negb (is_valid_phone cleaned) then
    Raise (ValueError (Text "Phone number must contain exactly 10 digits"))
  else Ok (mk cleaned).

End Phone.

Module Birthday.

Record t : Type := mk { value : Datetime.date }.

Definition init (v : string) : result t :=
  match Datetime.strptime v with
  | inr d => Ok (mk d)
  | inl (ValueError e) =>
      Raise (ValueError (Prefixed "Invalid date format. Use DD.MM.YYYY. Error: " e))
  | inl other => Raise other
  end.

Definition str (self : t) : string := Datetime.strftime (value self).

End Birthday.

(** ** A contact *)

Module ContactRecord.

Record t : Type := mk {
  name : Name.t;
  phones : list Phone.t;
  birthday : option Birthday.t
}.

Definition set_phones (self : t) (l : list Phone.t) : t :=
  mk (name self) l (birthday self).

Definition set_birthday (self : t) (b : option Birthday.t) : t :=
  mk (name self) (phones self) b.

Definition init (n : string) : result t :=
  rbind (Name.init n) (fun n' => Ok (mk n' [] None)).

(** The position of the first phone whose value is [cleaned]. *)
Fixpoint first_index (cleaned : string) (l : list Phone.t) : option nat :=
  match l with
  | [] => None
  | phone_obj :: l' =>
      if String.eqb (Phone.value phone_obj) cleaned then Some O
      else option_map S (first_index cleaned l')
  end.

Fixpoint remove_at (i : nat) (l : list Phone.t) : list Phone.t :=
  match l, i with
  | [], _ => []
  | _ :: l', O => l'
  | p :: l', S i' => p :: remove_at i' l'
  end.

Fixpoint set_value_at (i : nat) (v : string) (l : list Phone.t) : list Phone.t :=
  match l, i with
  | [], _ => []
  | _ :: l', O => Phone.mk v :: l'
  | p :: l', S i' => p :: set_value_at i' v l'
  end.

Local Open Scope method_scope.

(** The phone object found is named by its position in [self.phones]. *)
Definition find_phone (phone : string) : M t (option nat) :=
  let cleaned := Re.sub_nondigits phone in
  self <- get ;;
  ret (first_index cleaned (phones self)).

Definition add_phone (phone : string) : M t unit :=
  p <- lift (Phone.init phone) ;;
  modify (fun self => set_phones self (app (phones self) [p])).

Definition remove_phone (phone : string) : M t unit :=
  phone_obj <- find_phone phone ;;
  match phone_obj with
  | None => raise (ValueError (Text "Phone not found"))
  | Some i => modify (fun self => set_phones self (remove_at i (phones self)))
  end.

Definition edit_phone (old_phone new_phone : string) : M t unit :=
  phone_obj <- find_phone old_phone ;;
  match phone_obj with
  | None => raise (ValueError (Text "Phone not found"))
  | Some i =>
      p <- lift (Phone.init new_phone) ;;
      modify (fun self =>
                set_phones self (set_value_at i (Phone.value p) (phones self)))
  end.

Definition add_birthday (b : string) : M t unit :=
  v <- lift (Birthday.init b) ;;
  modify (fun self => set_birthday self (Some v)).

(** [sep.join(l)] is [String.concat sep l]. *)
Definition str (self : t) : string :=
  let phones_str := String.concat "; " (map Phone.value (phones self)) in
  let birthday_str :=
    match birthday self with
    | Some b => ", birthday: " ++ Birthday.str b
    | None => EmptyString
    end in
  ("Contact name: " ++ Name.value (name self) ++ ", ")
    ++ ("phones: " ++ phones_str ++ birthday_str).

End ContactRecord.

(** ** The address book *)

Module AddressBook.

(** [self.data]: a dictionary keeps its keys in the order of their first
    insertion, which is the order of [values()]. *)
Definition t : Type := list (string * ContactRecord.t).

Fixpoint dict_get (key : string) (data : t) : option ContactRecord.t :=
  match data with
  | [] => None
  | (k, v) :: data' => if String.eqb k key then Some v else dict_get key data'
  end.

Fixpoint dict_set (key : string) (v : ContactRecord.t) (data : t) : t :=
  match data with
  | [] => [(key, v)]
  | (k, v') :: data' =>
      if String.eqb k key then (k, v) :: data'
      else (k, v') :: dict_set key v data'
  end.

Fixpoint dict_del (key : string) (data : t) : t :=
  match data with
  | [] => []
  | (k, v) :: data' =>
      if String.eqb k key then data' else (k, v) :: dict_del key data'
  end.

Definition values (data : t) : list ContactRecord.t := map snd data.

(** An item of the list that [get_upcoming_birthdays] returns. *)
Record item : Type := mkitem { item_name : string; congratulation_date : string }.

Local Open Scope method_scope.

Definition add_record (record : ContactRecord.t) : M t unit :=
  modify (dict_set (Name.value (ContactRecord.name record)) record).

Definition find (n : string) : M t (option ContactRecord.t) :=
  data <- get ;;
  ret (dict_get n data).

Definition delete (n : string) : M t unit :=
  data <- get ;;
  match dict_get n data with
  | Some _ => put (dict_del n data)
  | None => ret tt
  end.

(** [birthday_date.replace(year=y)], and with [day=28] when that raises
    [ValueError]. *)
Definition birthday_in_year (birthday_date : Datetime.date) (y : Z)
  : result Datetime.date :=
  try_except_ValueError
    (Datetime.replace birthday_date (Some y) None)
    (fun _ => Datetime.replace birthday_date (Some y) (Some 28)).

(** Lines 119 to 136: the birthday in the year of [today], or in the year
    after it when that day is over. *)
Definition next_birthday (today birthday_date : Datetime.date)
  : result Datetime.date :=
  rbind (birthday_in_year birthday_date (Datetime.year today))
        (fun birthday_this_year =>
           if Datetime.lt birthday_this_year today then
             birthday_in_year birthday_date (Datetime.year today + 1)
           else Ok birthday_this_year).

(** Lines 141 to 150. *)
Definition congratulate (birthday_this_year : Datetime.date)
  : result Datetime.date :=
  if Datetime.weekday birthday_this_year =? 5 then
    Datetime.add_days birthday_this_year 2
  else if Datetime.weekday birthday_this_year =? 6 then
    Datetime.add_days birthday_this_year 1
  else Ok birthday_this_year.

(** The body of the loop over [self.data.values()]. *)
Definition visit (today : Datetime.date) (record : ContactRecord.t)
           (upcoming_birthdays : list item) : M t (list item) :=
  match ContactRecord.birthday record with
  | None => ret upcoming_birthdays
  | Some b =>
      let birthday_date := Birthday.value b in
      birthday_this_year <- lift (next_birthday today birthday_date) ;;
      let days_until_birthday := Datetime.sub_days birthday_this_year today in
      if (0 <=? days_until_birthday) && (days_until_birthday <=? 7) then
        congratulation <- lift (congratulate birthday_this_year) ;;
        ret (app upcoming_birthdays
                 [mkitem (Name.value (ContactRecord.name record))
                         (Datetime.strftime congratulation)])
      else ret upcoming_birthdays
  end.

(** [today] stands for [datetime.today().date()]. *)
Definition get_upcoming_birthdays (today : Datetime.date) : M t (list item) :=
  data <- get ;;
  for_each (values data) (visit today) [].

End AddressBook.

(** * The words of the specification *)

(** The value of a digit. *)
Definition digit_val (c : ascii) : Z := Re.code c - 48.

(** Numbers written with the characters [0] to [9]. *)
Definition two_digits (t : string) (v : Z) : Prop :=
  exists a b,
    t = String a (String b EmptyString)
    /\ Re.in_range "0" "9" a = true /\ Re.in_range "0" "9" b = true
    /\ v = 10 * digit_val a + digit_val b.

Definition four_digits (t : string) (v : Z) : Prop :=
  exists a b c d,
    t = String a (String b (String c (String d EmptyString)))
    /\ Re.in_range "0" "9" a = true /\ Re.in_range "0" "9" b = true
    /\ Re.in_range "0" "9" c = true /\ Re.in_range "0" "9" d = true
    /\ v = 1000 * digit_val a + 100 * digit_val b + 10 * digit_val c + digit_val d.

(** DD.MM.YYYY: a day of two digits, a dot, a month of two digits, a dot and
    a year of four digits. *)
Definition strict_format (raw : string) (y m d : Z) : Prop :=
  exists D Mo Y,
    raw = D ++ "." ++ Mo ++ "." ++ Y
    /\ two_digits D d /\ two_digits Mo m /\ four_digits Y y.

(** The days that the parser takes: [3] and then [0] or [1]; [1] or [2] and
    then a digit of the class [\d]; [0] and then one of [1] to [9]; one of
    [1] to [9], alone or after one blank. *)
Definition day_text (t : string) (v : Z) : Prop :=
  (exists b, t = String "3" (String b EmptyString)
             /\ Re.in_range "0" "1" b = true /\ v = 30 + digit_val b)
  \/ (exists a b, t = String a (String b EmptyString)
                  /\ Re.in_range "1" "2" a = true /\ Re.is_digit b = true
                  /\ v = 10 * digit_val a + digit_val b)
  \/ (exists b, t = String "0" (String b EmptyString)
                /\ Re.in_range "1" "9" b = true /\ v = digit_val b)
  \/ (exists a, t = String a EmptyString
                /\ Re.in_range "1" "9" a = true /\ v = digit_val a)
  \/ (exists a, t = String " " (String a EmptyString)
                /\ Re.in_range "1" "9" a = true /\ v = digit_val a).

(** The months that the parser takes: [1] and then one of [0] to [2]; [0]
    and then one of [1] to [9]; one of [1] to [9] alone. *)
Definition month_text (t : string) (v : Z) : Prop :=
  (exists b, t = String "1" (String b EmptyString)
             /\ Re.in_range "0" "2" b = true /\ v = 10 + digit_val b)
  \/ (exists b, t = String "0" (String b EmptyString)
                /\ Re.in_range "1" "9" b = true /\ v = digit_val b)
  \/ (exists a, t = String a EmptyString
                /\ Re.in_range "1" "9" a = true /\ v = digit_val a).

(** The years that the parser takes: four digits of the class [\d]. *)
Definition year_text (t : string) (v : Z) : Prop :=
  exists a b c d,
    t = String a (String b (String c (String d EmptyString)))
    /\ Re.is_digit a = true /\ Re.is_digit b = true
    /\ Re.is_digit c = true /\ Re.is_digit d = true
    /\ v = 1000 * digit_val a + 100 * digit_val b + 10 * digit_val c + digit_val d.

(** A day, a dot, a month, a dot and a year that the parser takes. *)
Definition accepted_format (raw : string) (y m d : Z) : Prop :=
  exists D Mo Y,
    raw = D ++ "." ++ Mo ++ "." ++ Y
    /\ day_text D d /\ month_text Mo m /\ year_text Y y.

(** A date of the calendar, in the years that [datetime] has. *)
Definition valid_ymd (y m d : Z) : Prop :=
  Datetime.MINYEAR <= y <= Datetime.MAXYEAR
  /\ 1 <= m <= 12
  /\ 1 <= d <= Datetime.days_in_month y m.

Definition valid_date (x : Datetime.date) : Prop :=
  valid_ymd (Datetime.year x) (Datetime.month x) (Datetime.day x).

(** The birthday in the year [y]: its month and day, with day 28 for the
    29th of February when [y] is not a leap year. *)
Definition spec_in_year (b : Datetime.date) (y : Z) : Datetime.date :=
  if (Datetime.month b =? 2) && (Datetime.day b =? 29) && negb (Datetime.is_leap y)
  then Datetime.mkdate y 2 28
  else Datetime.mkdate y (Datetime.month b) (Datetime.day b).

(** The candidate: the birthday in the year of [today], or in the year
    after it when that day is strictly before [today]. *)
Definition spec_candidate (today b : Datetime.date) : Datetime.date :=
  let c := spec_in_year b (Datetime.year today) in
  if Datetime.lt c today then spec_in_year b (Datetime.year today + 1) else c.

(** [0 <= candidate - today <= 7], in days. *)
Definition in_window (today c : Datetime.date) : bool :=
  (0 <=? Datetime.sub_days c today) && (Datetime.sub_days c today <=? 7).

Definition spec_upcoming (today : Datetime.date) (r : ContactRecord.t) : bool :=
  match ContactRecord.birthday r with
  | Some b => in_window today (spec_candidate today (Birthday.value b))
  | None => false
  end.

(** Two days for a Saturday, one day for a Sunday. *)
Definition weekend_shift (c : Datetime.date) : Z :=
  if Datetime.weekday c =? 5 then 2
  else if Datetime.weekday c =? 6 then 1
  else 0.

(** The item [it] congratulates the contact [r]: its date is the candidate
    moved by the shift of the weekend, a date not before the year of
    [today], and from the year 1000 on it is written as DD.MM.YYYY. *)
Definition congratulated (today : Datetime.date) (r : ContactRecord.t)
           (it : AddressBook.item) : Prop :=
  exists b c',
    ContactRecord.birthday r = Some b
    /\ AddressBook.item_name it = Name.value (ContactRecord.name r)
    /\ valid_date c'
    /\ Datetime.toordinal c'
       = Datetime.toordinal (spec_candidate today (Birthday.value b))
         + weekend_shift (spec_candidate today (Birthday.value b))
    /\ AddressBook.congratulation_date it = Datetime.strftime c'
    /\ Datetime.year today <= Datetime.year c'
    /\ (1000 <= Datetime.year c' ->
        strict_format (AddressBook.congratulation_date it)
                      (Datetime.year c') (Datetime.month c') (Datetime.day c')).

(** The birthdays in a book are dates. *)
Definition record_valid (r : ContactRecord.t) : Prop :=
  match ContactRecord.birthday r with
  | Some b => valid_date (Birthday.value b)
  | None => True
  end.

Definition book_valid (book : AddressBook.t) : Prop :=
  Forall record_valid (AddressBook.values book).

(** The phones with ["; "] between them: the first phone, and each later
    phone after a separator. *)
Definition phones_segment (l : list string) : string :=
  match l with
  | [] => EmptyString
  | p :: l' => p ++ fold_right (fun q acc => "; " ++ q ++ acc) EmptyString l'
  end.

(** The books of the scenarios. *)
Definition contact (n : string) (phone_values : list string)
           (b : option Datetime.date) : ContactRecord.t :=
  ContactRecord.mk (Name.mk n) (map Phone.mk phone_values)
                   (option_map Birthday.mk b).

Definition record_ann : ContactRecord.t :=
  contact "Ann" ["0501234567"; "0670000000"] (Some (Datetime.mkdate 2025 3 12)).
Definition record_bob : ContactRecord.t :=
  contact "Bob" ["0931112233"] (Some (Datetime.mkdate 2025 3 15)).
Definition record_cid : ContactRecord.t :=
  contact "Cid" [] (Some (Datetime.mkdate 2000 1 1)).
Definition record_dee : ContactRecord.t :=
  contact "Dee" [] (Some (Datetime.mkdate 2000 2 29)).
Definition record_eve : ContactRecord.t := contact "Eve" [] None.

Definition book_march : AddressBook.t :=
  [("Ann", record_ann); ("Bob", record_bob); ("Cid", record_cid)].
Definition book_february : AddressBook.t :=
  [("Dee", record_dee); ("Eve", record_eve)].
Definition book_new_year : AddressBook.t := [("Cid", record_cid)].

(** * Definitions of the proofs *)

(** [n] digits are read from the front of [s]. *)
Fixpoint drop_digits (n : nat) (s : string) : option string :=
  match n with
  | O => Some s
  | S n' =>
      match s with
      | String c s' => if Re.is_digit c then drop_digits n' s' else None
      | EmptyString => None
      end
  end.

(** The strings that a pattern matches. *)
Fixpoint matches (r : Re.regex) (t : string) : Prop :=
  match r with
  | Re.Eps => t = EmptyString
  | Re.Lit c => t = String c EmptyString
  | Re.Range lo hi => exists c, t = String c EmptyString /\ Re.in_range lo hi c = true
  | Re.Digit => exists c, t = String c EmptyString /\ Re.is_digit c = true
  | Re.Cat r1 r2 => exists t1 t2, t = t1 ++ t2 /\ matches r1 t1 /\ matches r2 t2
  | Re.Alt r1 r2 => matches r1 t \/ matches r2 t
  | Re.Group _ r1 => matches r1 t
  end.

(** Patterns without groups. *)
Fixpoint plain (r : Re.regex) : bool :=
  match r with
  | Re.Cat r1 r2 | Re.Alt r1 r2 => plain r1 && plain r2
  | Re.Group _ _ => false
  | _ => true
  end.

(** No dot is in [t]. *)
Fixpoint dotless (t : string) : bool :=
  match t with
  | EmptyString => true
  | String c t' => negb (Ascii.eqb c ".") && dotless t'
  end.

(** The month and the day of the [n]-th day of a year, as [_ord2ymd]
    finds them. *)
Definition month_day (n : Z) (leapyear : bool) : Z * Z :=
  let mo := Z.shiftr (n + 50) 5 in
  let preceding :=
    Datetime.index Datetime.DAYS_BEFORE_MONTH mo
    + Datetime.bool_to_int ((2 <? mo) && leapyear) in
  if n <? preceding then
    let mo' := mo - 1 in
    let preceding' :=
      preceding - (Datetime.index Datetime.DAYS_IN_MONTH mo'
                   + Datetime.bool_to_int ((mo' =? 2) && leapyear)) in
    (mo', n - preceding' + 1)
  else (mo, n - preceding + 1).

(** The test of [month_day] on the day [i] of a year. *)
Definition month_day_check (leapyear : bool) (i : nat) : bool :=
  let n := Z.of_nat i in
  let '(mo, d) := month_day n leapyear in
  (1 <=? mo) && (mo <=? 12) && (1 <=? d)
  && (d <=? (if (mo =? 2) && leapyear then 29
             else Datetime.index Datetime.DAYS_IN_MONTH mo))
  && (Datetime.index Datetime.DAYS_BEFORE_MONTH mo
      + Datetime.bool_to_int ((2 <? mo) && leapyear) + d =? n + 1).

(** * The commands of the bot *)

Module Commands.

Local Open Scope method_scope.

(** [@input_error]: the message of a [ValueError] is what the command
    returns; any other exception goes to the branch [except Exception].
    Nothing in the commands raises [IndexError] or [KeyError]: the length of
    [args] is tested before it is unpacked, and the book is read with
    [get]. *)
Definition input_error {S : Type} (func : M S message) : M S message :=
  fun s =>
    match func s with
    | (inr v, s') => (Ok v, s')
    | (inl (ValueError m), s') => (Ok m, s')
    | (inl (OverflowError m), s') => (Ok (Prefixed "An error occurred: " m), s')
    end.

(** [s.split()]: the words of [s] between runs of white space; [word] is
    the word that is being read. *)
Fixpoint split_from (s : string) (word : string) : list string :=
  match s with
  | EmptyString =>
      match word with
      | EmptyString => []
      | _ => [word]
      end
  | String c s' =>
      if Name.is_space c then
        match word with
        | EmptyString => split_from s' EmptyString
        | _ => word :: split_from s' EmptyString
        end
      else split_from s' (word ++ String c EmptyString)
  end.

Definition split (s : string) : list string := split_from s EmptyString.

(** [c.lower()] for a character below code point 256: the letters [A] to
    [Z] and the capital letters from code 192 to 222, the sign of
    multiplication apart. *)
Definition lower_char (c : ascii) : ascii :=
  let n := Re.code c in
  if ((65 <=? n) && (n <=? 90))
     || ((192 <=? n) && (n <=? 222) && negb (n =? 215))
  then ascii_of_N (Z.to_N (n + 32))
  else c.

Fixpoint lower (s : string) : string :=
  match s with
  | EmptyString => EmptyString
  | String c s' => String (lower_char c) (lower s')
  end.

Definition parse_input (user_input : string) : string * list string :=
  let parts := split user_input in
  let command :=
    match parts with
    | p :: _ => lower (Name.strip p)
    | [] => EmptyString
    end in
  let args :=
    match parts with
    | _ :: (_ :: _) as rest => rest
    | _ => []
    end in
  (command, args).

(** [record.method(...)] for the record object that the book holds under
    [key], and under no other key: the call leaves the object in the book
    in the state it leaves [record] in, also when it raises. *)
Definition call_on {A : Type} (key : string) (record : ContactRecord.t)
           (method : M ContactRecord.t A) : M AddressBook.t A :=
  fun data =>
    let '(r, record') := method record in
    (r, AddressBook.dict_set key record' data).

Definition add_contact (args : list string) : M AddressBook.t message :=
  input_error
    match args with
    | name :: phone :: _ =>
        found <- AddressBook.find name ;;
        match found with
        | Some record =>
            match phone with
            | EmptyString => ret tt
            | _ => call_on name record (ContactRecord.add_phone phone)
            end ;;
            ret (Text "Contact updated.")
        | None =>
            record <- lift (ContactRecord.init name) ;;
            AddressBook.add_record record ;;
            match phone with
            | EmptyString => ret tt
            | _ => call_on (Name.value (ContactRecord.name record)) record
                           (ContactRecord.add_phone phone)
            end ;;
            ret (Text "Contact added.")
        end
    | _ => ret (Text "Please provide name and phone number.")
    end.

Definition change_contact (args : list string) : M AddressBook.t message :=
  input_error
    match args with
    | name :: old_phone :: new_phone :: _ =>
        found <- AddressBook.find name ;;
        match found with
        | None => ret (Text ("Contact " ++ name ++ " not found."))
        | Some record =>
            call_on name record (ContactRecord.edit_phone old_phone new_phone) ;;
            ret (Text "Contact updated.")
        end
    | _ => ret (Text "Please provide name, old phone and new phone.")
    end.

Definition show_phone (args : list string) : M AddressBook.t message :=
  input_error
    match args with
    | name :: _ =>
        found <- AddressBook.find name ;;
        match found with
        | None => ret (Text ("Contact " ++ name ++ " not found."))
        | Some record =>
            match ContactRecord.phones record with
            | [] => ret (Text ("No phone numbers for " ++ name ++ "."))
            | _ =>
                let phones :=
                  String.concat ", " (map Phone.value (ContactRecord.phones record)) in
                ret (Text (name ++ ": " ++ phones))
            end
        end
    | [] => ret (Text "Please provide contact name.")
    end.

Definition newline : string := String "010"%char EmptyString.

Definition show_all (args : list string) : M AddressBook.t message :=
  input_error
    (data <- get ;;
     match data with
     | [] => ret (Text "No contacts in address book.")
     | _ =>
         let result := map ContactRecord.str (AddressBook.values data) in
         ret (Text (String.concat newline result))
     end).

Definition add_birthday (args : list string) : M AddressBook.t message :=
  input_error
    match args with
    | name :: birthday :: _ =>
        found <- AddressBook.find name ;;
        match found with
        | None => ret (Text ("Contact " ++ name ++ " not found."))
        | Some record =>
            call_on name record (ContactRecord.add_birthday birthday) ;;
            ret (Text "Birthday added.")
        end
    | _ => ret (Text "Please provide name and birthday (DD.MM.YYYY).")
    end.

Definition show_birthday (args : list string) : M AddressBook.t message :=
  input_error
    match args with
    | name :: _ =>
        found <- AddressBook.find name ;;
        match found with
        | None => ret (Text ("Contact " ++ name ++ " not found."))
        | Some record =>
            match ContactRecord.birthday record with
            | None => ret (Text ("No birthday set for " ++ name ++ "."))
            | Some b => ret (Text (name ++ ": " ++ Birthday.str b))
            end
        end
    | [] => ret (Text "Please provide contact name.")
    end.

(** [today] is the date that [get_upcoming_birthdays] reads from the
    clock. *)
Definition birthdays (today : Datetime.date) (args : list string)
  : M AddressBook.t message :=
  input_error
    (upcoming <- AddressBook.get_upcoming_birthdays today ;;
     match upcoming with
     | [] => ret (Text "No upcoming birthdays in the next week.")
     | _ =>
         let result :=
           "Upcoming birthdays:"
           :: map (fun it =>
                     "  " ++ AddressBook.item_name it ++ ": "
                          ++ AddressBook.congratulation_date it)
                  upcoming in
         ret (Text (String.concat newline result))
     end).

End Commands.

(** * The words of further properties *)

(** Every character of [s] is white space. *)
Fixpoint all_space (s : string) : bool :=
  match s with
  | EmptyString => true
  | String c s' => Name.is_space c && all_space s'
  end.

Definition starts_with_space (s : string) : bool :=
  match s with
  | String c _ => Name.is_space c
  | EmptyString => false
  end.

Fixpoint ends_with_space (s : string) : bool :=
  match s with
  | EmptyString => false
  | String c EmptyString => Name.is_space c
  | String _ s' => ends_with_space s'
  end.

(** Not empty, and no white space at either end. *)
Definition trimmed (s : string) : Prop :=
  s <> EmptyString /\ starts_with_space s = false /\ ends_with_space s = false.

(** No character of [s] is white space. *)
Fixpoint no_space (s : string) : bool :=
  match s with
  | EmptyString => true
  | String c s' => negb (Name.is_space c) && no_space s'
  end.

(** A word: not empty and without white space. *)
Definition is_word (s : string) : Prop := s <> EmptyString /\ no_space s = true.

(** Ten digits, the form of a stored phone. *)
Definition ten_digits (s : string) : Prop :=
  String.length s = 10%nat
  /\ forallb Re.is_digit (list_ascii_of_string s) = true.

(** A record as the methods build it: a trimmed name, phones of ten
    digits and a birthday that is a date. *)
Definition record_wf (r : ContactRecord.t) : Prop :=
  trimmed (Name.value (ContactRecord.name r))
  /\ Forall (fun p => ten_digits (Phone.value p)) (ContactRecord.phones r)
  /\ record_valid r.

(** A book as the operations build it: no key twice, every record under
    its own name, every record well formed. *)
Definition book_wf (book : AddressBook.t) : Prop :=
  NoDup (map fst book)
  /\ Forall (fun kv => fst kv = Name.value (ContactRecord.name (snd kv))
                       /\ record_wf (snd kv)) book.

(** The number that the characters [0] to [9] of [t] write, after the
    digits of [acc]. *)
Fixpoint number (t : string) (acc : Z) : option Z :=
  match t with
  | EmptyString => Some acc
  | String c t' =>
      if Re.in_range "0" "9" c then number t' (10 * acc + digit_val c) else None
  end.

(** [t] writes the number [v] with no zero in front. *)
Definition plain_number (t : string) (v : Z) : Prop :=
  number t 0 = Some v
  /\ exists a t', t = String a t' /\ a <> "0"%char.

(** A date as it is rendered: a day of two digits, a dot, a month of two
    digits, a dot and the year with no zero in front. *)
Definition rendered_format (text : string) (y m d : Z) : Prop :=
  exists D Mo Y,
    text = D ++ "." ++ Mo ++ "." ++ Y
    /\ two_digits D d /\ two_digits Mo m /\ plain_number Y y.

(** * Properties *)

(** ** Phone numbers *)

Lemma sub_nondigits_filter (s : string) :
  Re.sub_nondigits s
  = string_of_list_ascii (filter Re.is_digit (list_ascii_of_string s)).
Proof.
  induction s as [|c s IH]; simpl; [reflexivity|].
  destruct (Re.is_digit c); simpl; rewrite IH; reflexivity.
Qed.

Lemma run_repeat_digit {A : Type} (n : nat) :
  forall (s : string) (g : Re.groupdict) (k : string -> Re.groupdict -> option A),
    Re.run (Re.repeat n Re.Digit) s g k
    = match drop_digits n s with
      | Some s' => k s' g
      | None => None
      end.
Proof.
  induction n as [|n IH]; intros s g k; simpl; [reflexivity|].
  destruct s as [|c s]; simpl; [reflexivity|].
  destruct (Re.is_digit c); [apply IH | reflexivity].
Qed.

Lemma drop_digits_all (l : list ascii) :
  forallb Re.is_digit l = true ->
  forall n : nat,
    match drop_digits n (string_of_list_ascii l) with
    | Some EmptyString => true
    | _ => false
    end = Nat.eqb (List.length l) n.
Proof.
  induction l as [|c l IH]; intros Hall n.
  - destruct n; reflexivity.
  - simpl in Hall. apply andb_true_iff in Hall as [Hc Hl].
    destruct n as [|n]; simpl; [reflexivity|].
    rewrite Hc. apply IH, Hl.
Qed.

Lemma forallb_filter {X : Type} (p : X -> bool) (l : list X) :
  forallb p (filter p l) = true.
Proof.
  induction l as [|x l IH]; simpl; [reflexivity|].
  destruct (p x) eqn:E; simpl; [rewrite E|]; exact IH.
Qed.

Lemma is_valid_phone_cleaned (s : string) :
  Phone.is_valid_phone (Re.sub_nondigits s)
  = Nat.eqb (List.length (filter Re.is_digit (list_ascii_of_string s))) 10.
Proof.
  unfold Phone.is_valid_phone, Re.fullmatch.
  rewrite run_repeat_digit, sub_nondigits_filter.
  rewrite <- (drop_digits_all _ (forallb_filter _ _) 10%nat).
  destruct (drop_digits 10 _) as [[|c r]|]; reflexivity.
Qed.

Lemma Phone_init_eq (s : string) :
  Phone.init s
  = if Nat.eqb (List.length (filter Re.is_digit (list_ascii_of_string s))) 10
    then Ok (Phone.mk (string_of_list_ascii
                         (filter Re.is_digit (list_ascii_of_string s))))
    else Raise (ValueError (Text "Phone number must contain exactly 10 digits")).
Proof.
  unfold Phone.init. rewrite is_valid_phone_cleaned.
  destruct (Nat.eqb _ 10); simpl; [|reflexivity].
  rewrite sub_nondigits_filter. reflexivity.
Qed.

(** C3: [Phone(s)] succeeds exactly when the digits of [s], the characters
    that stay when every character that is not a digit is stripped, are ten;
    the value stored is then the string of these ten digits, and otherwise
    the constructor raises its [ValueError]. *)
Theorem Phone_init_ten_digits (s : string) :
  let digits := filter Re.is_digit (list_ascii_of_string s) in
  ((exists p, Phone.init s = Ok p) <-> List.length digits = 10%nat)
  /\ Phone.init s
     = if Nat.eqb (List.length digits) 10
       then Ok (Phone.mk (string_of_list_ascii digits))
       else Raise (ValueError (Text "Phone number must contain exactly 10 digits")).
Proof.
  intros digits. split; [|apply Phone_init_eq].
  rewrite Phone_init_eq. fold digits.
  destruct (Nat.eqb_spec (List.length digits) 10) as [H|H].
  - split; [intros _; exact H | intros _; eexists; reflexivity].
  - split; [intros [p Hp]; discriminate | intros H'; contradiction].
Qed.

Example Phone_init_dashes :
  Phone.init "(050) 123-45-67" = Ok (Phone.mk "0501234567").
Proof. reflexivity. Qed.

Example Phone_init_short :
  Phone.init "123"
  = Raise (ValueError (Text "Phone number must contain exactly 10 digits")).
Proof. reflexivity. Qed.

(** ** Strings *)

Lemma append_assoc (a b c : string) : (a ++ b) ++ c = a ++ (b ++ c).
Proof. induction a as [|x a IH]; simpl; [reflexivity | rewrite IH; reflexivity]. Qed.

Lemma append_empty_r (a : string) : a ++ EmptyString = a.
Proof. induction a as [|x a IH]; simpl; [reflexivity | rewrite IH; reflexivity]. Qed.

Lemma length_append (a b : string) :
  String.length (a ++ b) = (String.length a + String.length b)%nat.
Proof. induction a as [|x a IH]; simpl; [reflexivity | rewrite IH; reflexivity]. Qed.

(** ** Contact records *)

Lemma first_index_In (cleaned : string) (l : list Phone.t) :
  In cleaned (map Phone.value l) ->
  exists i, ContactRecord.first_index cleaned l = Some i.
Proof.
  induction l as [|p l IH]; simpl; [intros []|].
  intros [H|H].
  - rewrite H, String.eqb_refl. eauto.
  - destruct (String.eqb (Phone.value p) cleaned); [eauto|].
    destruct (IH H) as [i Hi]. rewrite Hi. simpl. eauto.
Qed.

Lemma first_index_not_In (cleaned : string) (l : list Phone.t) :
  ~ In cleaned (map Phone.value l) ->
  ContactRecord.first_index cleaned l = None.
Proof.
  induction l as [|p l IH]; simpl; [reflexivity|].
  intros H. destruct (String.eqb_spec (Phone.value p) cleaned) as [E|E].
  - exfalso. apply H. left. exact E.
  - rewrite IH; [reflexivity|]. intros HIn. apply H. right. exact HIn.
Qed.

(** C5: when a phone of the record has the digits of [old_phone] and the
    digits of [new_phone] are not ten, [edit_phone] raises the [ValueError]
    of [Phone] and the record, its phone list included, is what it was. *)
Theorem edit_phone_invalid_new_unchanged
        (r : ContactRecord.t) (old_phone new_phone : string)
        (Hold : In (Re.sub_nondigits old_phone)
                   (map Phone.value (ContactRecord.phones r)))
        (Hnew : List.length (filter Re.is_digit (list_ascii_of_string new_phone))
                <> 10%nat) :
  ContactRecord.edit_phone old_phone new_phone r
  = (Raise (ValueError (Text "Phone number must contain exactly 10 digits")), r).
Proof.
  destruct (first_index_In _ _ Hold) as [i Hi].
  unfold ContactRecord.edit_phone, ContactRecord.find_phone, bind, get, ret, lift.
  simpl. rewrite Hi.
  rewrite Phone_init_eq.
  apply Nat.eqb_neq in Hnew. rewrite Hnew. reflexivity.
Qed.

Lemma edit_phone_invalid_new_unchanged_witness :
  ContactRecord.edit_phone "050-123-45-67" "123" record_ann
  = (Raise (ValueError (Text "Phone number must contain exactly 10 digits")),
     record_ann).
Proof.
  apply edit_phone_invalid_new_unchanged.
  - simpl. left. reflexivity.
  - simpl. lia.
Defined.

(** C9: a query whose digits are the value of no phone of the record is
    never validated: [find_phone] returns [None], [remove_phone] and
    [edit_phone] raise "Phone not found", whatever the new phone is, and
    the record is left as it was. *)
Theorem phone_lookup_does_not_validate
        (r : ContactRecord.t) (raw : string)
        (Habsent : ~ In (Re.sub_nondigits raw)
                        (map Phone.value (ContactRecord.phones r))) :
  ContactRecord.find_phone raw r = (Ok None, r)
  /\ ContactRecord.remove_phone raw r
     = (Raise (ValueError (Text "Phone not found")), r)
  /\ forall new_phone : string,
      ContactRecord.edit_phone raw new_phone r
      = (Raise (ValueError (Text "Phone not found")), r).
Proof.
  pose proof (first_index_not_In _ _ Habsent) as Hi.
  unfold ContactRecord.edit_phone, ContactRecord.remove_phone,
    ContactRecord.find_phone, bind, get, ret, raise.
  simpl. rewrite Hi. repeat split.
Qed.

Lemma phone_lookup_does_not_validate_witness :
  ContactRecord.find_phone "123" record_ann = (Ok None, record_ann)
  /\ ContactRecord.remove_phone "123" record_ann
     = (Raise (ValueError (Text "Phone not found")), record_ann)
  /\ forall new_phone : string,
      ContactRecord.edit_phone "123" new_phone record_ann
      = (Raise (ValueError (Text "Phone not found")), record_ann).
Proof.
  apply phone_lookup_does_not_validate.
  simpl. intros [H|[H|[]]]; discriminate H.
Defined.

(** ** The address book *)

Lemma dict_get_set (key : string) (v : ContactRecord.t) (data : AddressBook.t) :
  AddressBook.dict_get key (AddressBook.dict_set key v data) = Some v.
Proof.
  induction data as [|[k v'] data IH]; simpl.
  - rewrite String.eqb_refl. reflexivity.
  - destruct (String.eqb k key) eqn:E; simpl; rewrite E; [reflexivity | exact IH].
Qed.

(** C7: after [add_record(record)], [find] with the name of the record
    returns a record with the name, the phones in their order and the
    birthday of the one added. *)
Theorem find_after_add_record (book : AddressBook.t) (record : ContactRecord.t) :
  let book' := snd (AddressBook.add_record record book) in
  fst (AddressBook.add_record record book) = Ok tt
  /\ AddressBook.find (Name.value (ContactRecord.name record)) book'
     = (Ok (Some record), book').
Proof.
  unfold AddressBook.add_record, AddressBook.find, modify, bind, get, ret.
  simpl. rewrite dict_get_set. split; reflexivity.
Qed.

Lemma for_each_keeps_state {S X A : Type} (body : X -> A -> M S A) :
  (forall x acc s, snd (body x acc s) = s) ->
  forall l acc s, snd (for_each l body acc s) = s.
Proof.
  intros Hbody l. induction l as [|x l IH]; intros acc s; simpl; [reflexivity|].
  unfold bind. specialize (Hbody x acc s).
  destruct (body x acc s) as [[e|a] s']; simpl in *; subst s'; [reflexivity|].
  apply IH.
Qed.

Lemma visit_keeps_state (today : Datetime.date) (record : ContactRecord.t)
      (acc : list AddressBook.item) (book : AddressBook.t) :
  snd (AddressBook.visit today record acc book) = book.
Proof.
  unfold AddressBook.visit, bind, lift, ret.
  destruct (ContactRecord.birthday record) as [b|]; simpl; [|reflexivity].
  destruct (AddressBook.next_birthday today (Birthday.value b)) as [e|c];
    simpl; [reflexivity|].
  destruct (_ && _)%bool; simpl; [|reflexivity].
  destruct (AddressBook.congratulate c); reflexivity.
Qed.

(** C10: [get_upcoming_birthdays] only reads: the book after the call,
    whether the call returns or raises, is the book before it, so every
    record is there with its name, phones and birthday. *)
Theorem get_upcoming_birthdays_read_only
        (today : Datetime.date) (book : AddressBook.t) :
  snd (AddressBook.get_upcoming_birthdays today book) = book.
Proof.
  unfold AddressBook.get_upcoming_birthdays, bind, get. simpl.
  apply for_each_keeps_state. intros x acc s. apply visit_keeps_state.
Qed.

Example edit_phone_valid_new :
  ContactRecord.edit_phone "067 000 00 00" "099-765-43-21" record_ann
  = (Ok tt,
     ContactRecord.set_phones record_ann
       [Phone.mk "0501234567"; Phone.mk "0997654321"]).
Proof. reflexivity. Qed.

Example add_record_overwrites_in_place :
  snd (AddressBook.add_record record_eve
         [("Eve", record_bob); ("Cid", record_cid)])
  = [("Eve", record_eve); ("Cid", record_cid)].
Proof. reflexivity. Qed.

(** ** The matcher and the language of a pattern *)

Section Matcher.

Context {A : Type}.
Implicit Types (k : string -> Re.groupdict -> option A) (g : Re.groupdict).

Lemma step_sound (p : ascii -> bool) s (k : string -> option A) x :
  Re.step p s k = Some x ->
  exists c s', s = String c s' /\ p c = true /\ k s' = Some x.
Proof.
  destruct s as [|c s']; simpl; [discriminate|].
  destruct (p c) eqn:E; [|discriminate]. eauto.
Qed.

Lemma step_none (p : ascii -> bool) c s' (k : string -> option A) :
  Re.step p (String c s') k = None -> p c = true -> k s' = None.
Proof. simpl. intros H E. rewrite E in H. exact H. Qed.

(** A result of the matcher comes from a prefix in the language of the
    pattern, followed by a rest that the continuation accepts. *)
Lemma run_sound (r : Re.regex) :
  plain r = true ->
  forall s g k x,
    Re.run r s g k = Some x ->
    exists t s', s = t ++ s' /\ matches r t /\ k s' g = Some x.
Proof.
  induction r as [|c|lo hi| |r1 IH1 r2 IH2|r1 IH1 r2 IH2|n r1 IH1];
    simpl; intros Hp s g k x H.
  - exists EmptyString, s. auto.
  - apply step_sound in H as (c' & s' & -> & E & H).
    apply Ascii.eqb_eq in E. subst c'.
    exists (String c EmptyString), s'. auto.
  - apply step_sound in H as (c' & s' & -> & E & H).
    exists (String c' EmptyString), s'. eauto.
  - apply step_sound in H as (c' & s' & -> & E & H).
    exists (String c' EmptyString), s'. eauto.
  - apply andb_true_iff in Hp as [Hp1 Hp2].
    apply (IH1 Hp1) in H as (t1 & s1 & -> & M1 & H).
    apply (IH2 Hp2) in H as (t2 & s2 & -> & M2 & H).
    exists (t1 ++ t2), s2. rewrite append_assoc.
    split; [reflexivity|]. split; [exists t1, t2; auto | exact H].
  - apply andb_true_iff in Hp as [Hp1 Hp2].
    destruct (Re.run r1 s g k) as [y|] eqn:E1.
    + inversion H; subst y.
      apply (IH1 Hp1) in E1 as (t & s' & -> & M1 & E1).
      exists t, s'. auto.
    + apply (IH2 Hp2) in H as (t & s' & -> & M2 & H).
      exists t, s'. auto.
  - discriminate.
Qed.

(** The matcher tries every prefix in the language of the pattern: when
    it fails, the continuation refuses the rest after each of them. *)
Lemma run_none (r : Re.regex) :
  plain r = true ->
  forall s g k,
    Re.run r s g k = None ->
    forall t s', s = t ++ s' -> matches r t -> k s' g = None.
Proof.
  induction r as [|c|lo hi| |r1 IH1 r2 IH2|r1 IH1 r2 IH2|n r1 IH1];
    simpl; intros Hp s g k H t s' Hs Hm.
  - subst t s. exact H.
  - subst t s. apply step_none in H; [exact H | apply Ascii.eqb_refl].
  - destruct Hm as (c & -> & E). subst s. apply step_none in H; assumption.
  - destruct Hm as (c & -> & E). subst s. apply step_none in H; assumption.
  - apply andb_true_iff in Hp as [Hp1 Hp2].
    destruct Hm as (t1 & t2 & -> & M1 & M2). subst s.
    rewrite append_assoc in H.
    pose proof (IH1 Hp1 _ _ _ H t1 (t2 ++ s') eq_refl M1) as H2.
    exact (IH2 Hp2 _ _ _ H2 t2 s' eq_refl M2).
  - apply andb_true_iff in Hp as [Hp1 Hp2].
    destruct (Re.run r1 s g k) eqn:E1; [discriminate|].
    destruct Hm as [M|M]; [eapply IH1 | eapply IH2]; eauto.
  - discriminate.
Qed.

(** When the continuation accepts the rest after one prefix of the
    language only, the matcher returns what it returns there. *)
Lemma run_unique (r : Re.regex) t s' g k x :
  plain r = true ->
  matches r t ->
  k s' g = Some x ->
  (forall t2 s2 y,
      t ++ s' = t2 ++ s2 -> matches r t2 -> k s2 g = Some y -> s2 = s') ->
  Re.run r (t ++ s') g k = Some x.
Proof.
  intros Hp Hm Hk Huniq.
  destruct (Re.run r (t ++ s') g k) as [y|] eqn:E.
  - apply (run_sound r Hp) in E as (t2 & s2 & Hs & M2 & K2).
    pose proof (Huniq _ _ _ Hs M2 K2). subst s2. congruence.
  - rewrite (run_none r Hp _ _ _ E t s' eq_refl Hm) in Hk. discriminate.
Qed.

End Matcher.

Lemma substring_prefix (t s' : string) :
  substring 0 (String.length t) (t ++ s') = t.
Proof.
  induction t as [|c t IH]; simpl.
  - destruct s'; reflexivity.
  - rewrite IH. reflexivity.
Qed.

Lemma consumed_append (t s' : string) : Re.consumed (t ++ s') s' = t.
Proof.
  unfold Re.consumed. rewrite length_append.
  replace (String.length t + String.length s' - String.length s')%nat
    with (String.length t) by lia.
  apply substring_prefix.
Qed.

(** ** Characters and digits *)

Lemma code_inj (a b : ascii) : Re.code a = Re.code b -> a = b.
Proof.
  unfold Re.code. intros H. apply N2Z.inj in H.
  rewrite <- (ascii_N_embedding a), <- (ascii_N_embedding b), H. reflexivity.
Qed.

Lemma is_digit_iff (c : ascii) : Re.is_digit c = true <-> 48 <= Re.code c <= 57.
Proof. unfold Re.is_digit. rewrite andb_true_iff, !Z.leb_le. reflexivity. Qed.

Lemma in_range_iff (lo hi c : ascii) :
  Re.in_range lo hi c = true <-> Re.code lo <= Re.code c <= Re.code hi.
Proof. unfold Re.in_range. rewrite andb_true_iff, !Z.leb_le. reflexivity. Qed.

Lemma digit_val_range (c : ascii) : Re.is_digit c = true -> 0 <= digit_val c <= 9.
Proof. rewrite is_digit_iff. unfold digit_val. lia. Qed.

Lemma digit_char_val (c : ascii) :
  Re.is_digit c = true -> Datetime.digit_char (digit_val c) = c.
Proof.
  intros _. unfold Datetime.digit_char, digit_val, Re.code.
  replace (48 + (Z.of_N (N_of_ascii c) - 48)) with (Z.of_N (N_of_ascii c)) by lia.
  rewrite N2Z.id. apply ascii_N_embedding.
Qed.

Lemma code_digit_char (z : Z) :
  0 <= z <= 9 -> Re.code (Datetime.digit_char z) = 48 + z.
Proof.
  intros H. unfold Datetime.digit_char, Re.code.
  rewrite N_ascii_embedding; lia.
Qed.

Lemma lstrip_not_blank (a : ascii) (s : string) :
  Re.code a <> 32 -> Datetime.lstrip (String a s) = String a s.
Proof.
  intros H. destruct a as [[] [] [] [] [] [] [] []]; try reflexivity.
  exfalso. apply H. reflexivity.
Qed.

Lemma digit_char_range (z : Z) :
  0 <= z <= 9 -> Re.in_range "0" "9" (Datetime.digit_char z) = true.
Proof.
  intros H. apply in_range_iff. rewrite code_digit_char by exact H.
  change (Re.code "0") with 48. change (Re.code "9") with 57. lia.
Qed.

Lemma digit_val_digit_char (z : Z) :
  0 <= z <= 9 -> digit_val (Datetime.digit_char z) = z.
Proof. intros H. unfold digit_val. rewrite code_digit_char by exact H. lia. Qed.

Lemma digits_value_step (a : ascii) (s : string) (acc : Z) :
  48 <= Re.code a <= 57 ->
  Datetime.digits_value (String a s) acc
  = Datetime.digits_value s (10 * acc + digit_val a).
Proof.
  intros H. apply is_digit_iff in H. cbn [Datetime.digits_value].
  rewrite H. reflexivity.
Qed.

Lemma int_digit_first (a : ascii) (s : string) :
  48 <= Re.code a <= 57 ->
  Datetime.int (String a s) = Datetime.digits_value (String a s) 0.
Proof.
  intros H. unfold Datetime.int. rewrite lstrip_not_blank by lia. reflexivity.
Qed.

Lemma int_blank_first (s : string) :
  Datetime.int (String " " s) = Datetime.int s.
Proof. reflexivity. Qed.

(** ** The fields of a date and the patterns of the directives *)

Ltac code_consts :=
  change (Re.code "0") with 48 in *; change (Re.code "1") with 49 in *;
  change (Re.code "2") with 50 in *; change (Re.code "3") with 51 in *;
  change (Re.code "9") with 57 in *; change (Re.code " ") with 32 in *;
  change (Re.code ".") with 46 in *.

Ltac char_facts :=
  repeat match goal with
         | H : Re.is_digit _ = true |- _ => apply is_digit_iff in H
         | H : Re.in_range _ _ _ = true |- _ => apply in_range_iff in H
         | |- Re.is_digit _ = true => apply is_digit_iff
         | |- Re.in_range _ _ _ = true => apply in_range_iff
         end;
  unfold digit_val in *; code_consts.

Ltac read_digits :=
  rewrite ?int_blank_first;
  rewrite int_digit_first by (code_consts; lia);
  rewrite !digits_value_step by (code_consts; lia);
  cbn [Datetime.digits_value]; apply f_equal; unfold digit_val; code_consts; lia.

Lemma int_day_text (t : string) (v : Z) : day_text t v -> Datetime.int t = Some v.
Proof.
  intros [(b & -> & Hb & ->)|[(a & b & -> & Ha & Hb & ->)|[(b & -> & Hb & ->)
         |[(a & -> & Ha & ->)|(a & -> & Ha & ->)]]]];
    char_facts; read_digits.
Qed.

Lemma int_month_text (t : string) (v : Z) :
  month_text t v -> Datetime.int t = Some v.
Proof.
  intros [(b & -> & Hb & ->)|[(b & -> & Hb & ->)|(a & -> & Ha & ->)]];
    char_facts; read_digits.
Qed.

Lemma int_year_text (t : string) (v : Z) : year_text t v -> Datetime.int t = Some v.
Proof.
  intros (a & b & c & d & -> & Ha & Hb & Hc & Hd & ->). char_facts. read_digits.
Qed.

Lemma day_text_range (t : string) (v : Z) : day_text t v -> 1 <= v <= 31.
Proof.
  intros [(b & -> & Hb & ->)|[(a & b & -> & Ha & Hb & ->)|[(b & -> & Hb & ->)
         |[(a & -> & Ha & ->)|(a & -> & Ha & ->)]]]];
    char_facts; lia.
Qed.

Lemma month_text_range (t : string) (v : Z) : month_text t v -> 1 <= v <= 12.
Proof.
  intros [(b & -> & Hb & ->)|[(b & -> & Hb & ->)|(a & -> & Ha & ->)]];
    char_facts; lia.
Qed.

Lemma year_text_range (t : string) (v : Z) : year_text t v -> 0 <= v <= 9999.
Proof.
  intros (a & b & c & d & -> & Ha & Hb & Hc & Hd & ->). char_facts. lia.
Qed.

(** The fields are the strings of the patterns. *)
Lemma matches_regex_d (t : string) :
  matches Datetime.regex_d t <-> exists v, day_text t v.
Proof.
  unfold Datetime.regex_d, day_text. cbn [matches]. split.
  - intros [H|[H|[H|[H|H]]]].
    + destruct H as (t1 & t2 & -> & -> & b & -> & Hb).
      eexists. left. exists b. split; [reflexivity|]. split; [exact Hb|reflexivity].
    + destruct H as (t1 & t2 & -> & (a & -> & Ha) & b & -> & Hb).
      eexists. right. left. exists a, b.
      split; [reflexivity|]. split; [exact Ha|]. split; [exact Hb|reflexivity].
    + destruct H as (t1 & t2 & -> & -> & b & -> & Hb).
      eexists. right. right. left. exists b.
      split; [reflexivity|]. split; [exact Hb|reflexivity].
    + destruct H as (a & -> & Ha).
      eexists. right. right. right. left. exists a.
      split; [reflexivity|]. split; [exact Ha|reflexivity].
    + destruct H as (t1 & t2 & -> & -> & a & -> & Ha).
      eexists. right. right. right. right. exists a.
      split; [reflexivity|]. split; [exact Ha|reflexivity].
  - intros (v & [(b & -> & Hb & _)|[(a & b & -> & Ha & Hb & _)|[(b & -> & Hb & _)
                |[(a & -> & Ha & _)|(a & -> & Ha & _)]]]]).
    + left. exists "3", (String b EmptyString).
      split; [reflexivity|]. split; [reflexivity|]. exists b. auto.
    + right. left. exists (String a EmptyString), (String b EmptyString).
      split; [reflexivity|]. split; [exists a; auto | exists b; auto].
    + right. right. left. exists "0", (String b EmptyString).
      split; [reflexivity|]. split; [reflexivity|]. exists b. auto.
    + right. right. right. left. exists a. auto.
    + right. right. right. right. exists " ", (String a EmptyString).
      split; [reflexivity|]. split; [reflexivity|]. exists a. auto.
Qed.

Lemma matches_regex_m (t : string) :
  matches Datetime.regex_m t <-> exists v, month_text t v.
Proof.
  unfold Datetime.regex_m, month_text. cbn [matches]. split.
  - intros [H|[H|H]].
    + destruct H as (t1 & t2 & -> & -> & b & -> & Hb).
      eexists. left. exists b. split; [reflexivity|]. split; [exact Hb|reflexivity].
    + destruct H as (t1 & t2 & -> & -> & b & -> & Hb).
      eexists. right. left. exists b.
      split; [reflexivity|]. split; [exact Hb|reflexivity].
    + destruct H as (a & -> & Ha).
      eexists. right. right. exists a.
      split; [reflexivity|]. split; [exact Ha|reflexivity].
  - intros (v & [(b & -> & Hb & _)|[(b & -> & Hb & _)|(a & -> & Ha & _)]]).
    + left. exists "1", (String b EmptyString).
      split; [reflexivity|]. split; [reflexivity|]. exists b. auto.
    + right. left. exists "0", (String b EmptyString).
      split; [reflexivity|]. split; [reflexivity|]. exists b. auto.
    + right. right. exists a. auto.
Qed.

Lemma matches_regex_Y (t : string) :
  matches Datetime.regex_Y t <-> exists v, year_text t v.
Proof.
  unfold Datetime.regex_Y, year_text. cbn [matches Re.repeat]. split.
  - intros (t1 & r1 & -> & (a & -> & Ha) & t2 & r2 & -> & (b & -> & Hb)
            & t3 & r3 & -> & (c & -> & Hc) & t4 & r4 & -> & (d & -> & Hd) & ->).
    eexists. exists a, b, c, d. simpl. repeat split; assumption.
  - intros (v & a & b & c & d & -> & Ha & Hb & Hc & Hd & _).
    exists (String a EmptyString), (String b (String c (String d EmptyString))).
    repeat split; [exists a; auto|].
    exists (String b EmptyString), (String c (String d EmptyString)).
    repeat split; [exists b; auto|].
    exists (String c EmptyString), (String d EmptyString).
    repeat split; [exists c; auto|].
    exists (String d EmptyString), EmptyString. repeat split. exists d; auto.
Qed.

(** Two digits that write a day, or a month, are a text that the parser
    takes; so are four digits, for a year. *)
Lemma two_digits_day_text (t : string) (v : Z) :
  two_digits t v -> 1 <= v <= 31 -> day_text t v.
Proof.
  intros (a & b & -> & Ha & Hb & ->) Hv. unfold day_text. char_facts.
  assert (C : Re.code a = 51 \/ 49 <= Re.code a <= 50 \/ Re.code a = 48) by lia.
  destruct C as [C|[C|C]].
  - left. exists b.
    replace a with "3"%char by (apply code_inj; rewrite C; reflexivity).
    split; [reflexivity|]. split; char_facts; lia.
  - right. left. exists a, b.
    split; [reflexivity|]. repeat split; char_facts; lia.
  - right. right. left. exists b.
    replace a with "0"%char by (apply code_inj; rewrite C; reflexivity).
    split; [reflexivity|]. split; char_facts; lia.
Qed.

Lemma two_digits_month_text (t : string) (v : Z) :
  two_digits t v -> 1 <= v <= 12 -> month_text t v.
Proof.
  intros (a & b & -> & Ha & Hb & ->) Hv. unfold month_text. char_facts.
  assert (C : Re.code a = 49 \/ Re.code a = 48) by lia.
  destruct C as [C|C].
  - left. exists b.
    replace a with "1"%char by (apply code_inj; rewrite C; reflexivity).
    split; [reflexivity|]. split; char_facts; lia.
  - right. left. exists b.
    replace a with "0"%char by (apply code_inj; rewrite C; reflexivity).
    split; [reflexivity|]. split; char_facts; lia.
Qed.

Lemma four_digits_year_text (t : string) (v : Z) : four_digits t v -> year_text t v.
Proof. intros H. exact H. Qed.

(** ** The pattern of [%d.%m.%Y] *)

Lemma dot_split (a a' b b' : string) :
  dotless a = true -> dotless a' = true ->
  a ++ String "." b = a' ++ String "." b' -> a = a' /\ b = b'.
Proof.
  revert a'. induction a as [|c a IH]; intros [|c' a']; simpl; intros Ha Ha' E.
  - inversion E. auto.
  - inversion E; subst c'. discriminate.
  - inversion E; subst c. discriminate.
  - apply andb_true_iff in Ha as [_ Ha]. apply andb_true_iff in Ha' as [_ Ha'].
    inversion E; subst c'. destruct (IH a' Ha Ha' H1) as [-> ->]. auto.
Qed.

Lemma not_dot (a : ascii) : Re.code a <> 46 -> Ascii.eqb a "." = false.
Proof. intros H. apply Ascii.eqb_neq. intros ->. apply H. reflexivity. Qed.

Ltac no_dots :=
  char_facts; cbn [dotless]; rewrite ?not_dot by (code_consts; lia); reflexivity.

Lemma two_digits_dotless t v : two_digits t v -> dotless t = true.
Proof. intros (a & b & -> & Ha & Hb & _). no_dots. Qed.

Lemma day_text_dotless t v : day_text t v -> dotless t = true.
Proof.
  intros [(b & -> & Hb & _)|[(a & b & -> & Ha & Hb & _)|[(b & -> & Hb & _)
         |[(a & -> & Ha & _)|(a & -> & Ha & _)]]]]; no_dots.
Qed.

Lemma month_text_dotless t v : month_text t v -> dotless t = true.
Proof.
  intros [(b & -> & Hb & _)|[(b & -> & Hb & _)|(a & -> & Ha & _)]]; no_dots.
Qed.

Lemma year_text_length t v : year_text t v -> String.length t = 4%nat.
Proof. intros (a & b & c & d & -> & _). reflexivity. Qed.

Lemma append_same_length (a a' b b' : string) :
  String.length a = String.length a' -> a ++ b = a' ++ b' -> a = a' /\ b = b'.
Proof.
  revert a'. induction a as [|c a IH]; intros [|c' a']; simpl; intros L E;
    try discriminate; [auto|].
  inversion E; subst c'. inversion L as [L'].
  destruct (IH a' L' H1) as [-> ->]. auto.
Qed.

Lemma rmatch_format_sound (raw : string) (found : Re.groupdict) (rest : string) :
  Re.rmatch Datetime.format_regex raw = Some (found, rest) ->
  exists D Mo Y,
    raw = D ++ "." ++ Mo ++ "." ++ Y ++ rest
    /\ matches Datetime.regex_d D /\ matches Datetime.regex_m Mo
    /\ matches Datetime.regex_Y Y
    /\ found = [("Y", Y); ("m", Mo); ("d", D)].
Proof.
  unfold Re.rmatch, Datetime.format_regex, Datetime.directive_d,
    Datetime.directive_m, Datetime.directive_Y.
  cbn [Re.run]. intros H.
  apply run_sound in H as (D & s1 & -> & MD & H); [|reflexivity].
  apply step_sound in H as (c & s2 & -> & E & H).
  apply Ascii.eqb_eq in E. subst c.
  apply run_sound in H as (Mo & s3 & -> & MM & H); [|reflexivity].
  apply step_sound in H as (c & s4 & -> & E & H).
  apply Ascii.eqb_eq in E. subst c.
  apply run_sound in H as (Y & s5 & -> & MY & H); [|reflexivity].
  inversion H; subst found rest. rewrite !consumed_append.
  exists D, Mo, Y. repeat split; assumption.
Qed.

Lemma rmatch_format_complete (D Mo Y rest : string) :
  matches Datetime.regex_d D -> matches Datetime.regex_m Mo ->
  matches Datetime.regex_Y Y ->
  Re.rmatch Datetime.format_regex (D ++ "." ++ Mo ++ "." ++ Y ++ rest)
  = Some ([("Y", Y); ("m", Mo); ("d", D)], rest).
Proof.
  intros MD MM MY.
  pose proof MD as FD. apply matches_regex_d in FD as (vd & FD).
  pose proof MM as FM. apply matches_regex_m in FM as (vm & FM).
  pose proof MY as FY. apply matches_regex_Y in FY as (vy & FY).
  unfold Re.rmatch, Datetime.format_regex, Datetime.directive_d,
    Datetime.directive_m, Datetime.directive_Y.
  cbn [Re.run append].
  apply run_unique; [reflexivity | exact MD | |].
  - cbn [Re.step]. rewrite Ascii.eqb_refl, consumed_append.
    apply run_unique; [reflexivity | exact MM | |].
    + cbn [Re.step]. rewrite Ascii.eqb_refl, consumed_append.
      apply run_unique; [reflexivity | exact MY | |].
      * rewrite consumed_append. reflexivity.
      * intros t2 s2 y E M2 _.
        apply matches_regex_Y in M2 as (v2 & F2).
        apply append_same_length in E; [symmetry; apply E|].
        rewrite (year_text_length _ _ FY), (year_text_length _ _ F2).
        reflexivity.
    + intros t2 s2 y E M2 K.
      apply step_sound in K as (c & s3 & -> & Ec & _).
      apply Ascii.eqb_eq in Ec. subst c.
      apply matches_regex_m in M2 as (v2 & F2).
      apply dot_split in E as [_ ->];
        [reflexivity | eapply month_text_dotless, FM
         | eapply month_text_dotless, F2].
  - intros t2 s2 y E M2 K.
    apply step_sound in K as (c & s3 & -> & Ec & _).
    apply Ascii.eqb_eq in Ec. subst c.
    apply matches_regex_d in M2 as (v2 & F2).
    apply dot_split in E as [_ ->];
      [reflexivity | eapply day_text_dotless, FD
       | eapply day_text_dotless, F2].
Qed.

(** ** Dates that [date(year, month, day)] takes *)

Lemma new_date_Ok (y m d : Z) (x : Datetime.date) :
  Datetime.new_date y m d = Ok x <-> valid_ymd y m d /\ x = Datetime.mkdate y m d.
Proof.
  unfold Datetime.new_date, Datetime.check_date_fields, valid_ymd, rbind, Ok, Raise.
  destruct (Z.leb_spec Datetime.MINYEAR y), (Z.leb_spec y Datetime.MAXYEAR),
    (Z.leb_spec 1 m), (Z.leb_spec m 12), (Z.leb_spec 1 d),
    (Z.leb_spec d (Datetime.days_in_month y m)); simpl;
    split; try discriminate; try (intros [? _]; lia).
  - intros E. inversion E. repeat split; assumption.
  - intros [_ ->]. reflexivity.
Qed.

Lemma new_date_valid (y m d : Z) :
  valid_ymd y m d -> Datetime.new_date y m d = Ok (Datetime.mkdate y m d).
Proof. intros H. apply new_date_Ok. auto. Qed.

Lemma new_date_raises (y m d : Z) :
  ~ valid_ymd y m d -> exists e, Datetime.new_date y m d = Raise (ValueError e).
Proof.
  intros H.
  unfold Datetime.new_date, Datetime.check_date_fields, valid_ymd, rbind, Ok, Raise in *.
  destruct (Z.leb_spec Datetime.MINYEAR y), (Z.leb_spec y Datetime.MAXYEAR),
    (Z.leb_spec 1 m), (Z.leb_spec m 12), (Z.leb_spec 1 d),
    (Z.leb_spec d (Datetime.days_in_month y m)); simpl;
    try (eexists; reflexivity).
  exfalso. apply H. lia.
Qed.

(** The numbers of a text that the parser takes are refused by
    [date(year, month, day)] for the year 0, and else for a day after the
    last day of the month. *)
Lemma new_date_refused (y m d : Z) :
  0 <= y <= 9999 -> 1 <= m <= 12 -> 1 <= d -> ~ valid_ymd y m d ->
  Datetime.new_date y m d
  = Raise (ValueError (if y =? 0 then OutOfRange "year" 0 else OutOfRange "day" d)).
Proof.
  intros Hy Hm Hd H.
  unfold Datetime.new_date, Datetime.check_date_fields, valid_ymd, rbind, Ok, Raise,
    Datetime.MINYEAR, Datetime.MAXYEAR in *.
  destruct (Z.eqb_spec y 0) as [->|Hy0]; [reflexivity|].
  destruct (Z.leb_spec 1 y), (Z.leb_spec y 9999),
    (Z.leb_spec 1 m), (Z.leb_spec m 12), (Z.leb_spec 1 d),
    (Z.leb_spec d (Datetime.days_in_month y m)); simpl;
    try reflexivity; lia.
Qed.

Lemma days_in_month_range (y m : Z) :
  1 <= m <= 12 -> 28 <= Datetime.days_in_month y m <= 31.
Proof.
  intros H. unfold Datetime.days_in_month.
  destruct ((m =? 2) && Datetime.is_leap y)%bool; [lia|].
  assert (C : m = 1 \/ m = 2 \/ m = 3 \/ m = 4 \/ m = 5 \/ m = 6 \/ m = 7
              \/ m = 8 \/ m = 9 \/ m = 10 \/ m = 11 \/ m = 12) by lia.
  repeat (destruct C as [->|C]; [cbv; split; discriminate|]).
  subst m. cbv. split; discriminate.
Qed.

(** ** What [strptime] answers *)

(** On a text that the parser takes, with nothing after it, [strptime]
    answers what [date(year, month, day)] answers on its numbers. *)
Lemma strptime_accepted (raw : string) (y m d : Z) :
  accepted_format raw y m d -> Datetime.strptime raw = Datetime.new_date y m d.
Proof.
  intros (D & Mo & Y & -> & FD & FM & FY). unfold Datetime.strptime.
  assert (MD : matches Datetime.regex_d D) by (apply matches_regex_d; eauto).
  assert (MM : matches Datetime.regex_m Mo) by (apply matches_regex_m; eauto).
  assert (MY : matches Datetime.regex_Y Y) by (apply matches_regex_Y; eauto).
  pose proof (rmatch_format_complete D Mo Y EmptyString MD MM MY) as E.
  rewrite append_empty_r in E. rewrite E.
  unfold Datetime.group_int. cbn [Re.lookup String.eqb Ascii.eqb Bool.eqb].
  rewrite (int_year_text _ _ FY), (int_month_text _ _ FM), (int_day_text _ _ FD).
  reflexivity.
Qed.

(** With more text after it, [strptime] raises on what is left. *)
Lemma strptime_unconverted (D Mo Y rest : string) (y m d : Z) :
  day_text D d -> month_text Mo m -> year_text Y y -> rest <> EmptyString ->
  Datetime.strptime (D ++ "." ++ Mo ++ "." ++ Y ++ rest)
  = Raise (ValueError (UnconvertedData rest)).
Proof.
  intros FD FM FY Hrest. unfold Datetime.strptime.
  assert (MD : matches Datetime.regex_d D) by (apply matches_regex_d; eauto).
  assert (MM : matches Datetime.regex_m Mo) by (apply matches_regex_m; eauto).
  assert (MY : matches Datetime.regex_Y Y) by (apply matches_regex_Y; eauto).
  rewrite (rmatch_format_complete D Mo Y rest MD MM MY).
  destruct rest; [contradiction|reflexivity].
Qed.

(** When no text that the parser takes is at the front of [raw],
    [strptime] raises on the whole of [raw]. *)
Lemma strptime_mismatch (raw : string) :
  ~ (exists D Mo Y rest y m d,
        raw = D ++ "." ++ Mo ++ "." ++ Y ++ rest
        /\ day_text D d /\ month_text Mo m /\ year_text Y y) ->
  Datetime.strptime raw = Raise (ValueError (TimeDataMismatch raw "%d.%m.%Y")).
Proof.
  intros H. unfold Datetime.strptime.
  destruct (Re.rmatch Datetime.format_regex raw) as [[found rest]|] eqn:E;
    [|reflexivity].
  exfalso. apply H.
  apply rmatch_format_sound in E as (D & Mo & Y & -> & MD & MM & MY & _).
  apply matches_regex_d in MD as (d & FD).
  apply matches_regex_m in MM as (m & FM).
  apply matches_regex_Y in MY as (y & FY).
  exists D, Mo, Y, rest, y, m, d. auto.
Qed.

(** [strptime] returns a date exactly on the texts that the parser takes
    and whose numbers are a date. *)
Lemma strptime_Ok (raw : string) (x : Datetime.date) :
  Datetime.strptime raw = Ok x
  <-> exists y m d,
      accepted_format raw y m d /\ valid_ymd y m d /\ x = Datetime.mkdate y m d.
Proof.
  split.
  - unfold Datetime.strptime.
    destruct (Re.rmatch Datetime.format_regex raw) as [[found rest]|] eqn:E;
      [|discriminate].
    destruct rest; [|discriminate].
    apply rmatch_format_sound in E as (D & Mo & Y & -> & MD & MM & MY & ->).
    apply matches_regex_d in MD as (d & FD).
    apply matches_regex_m in MM as (m & FM).
    apply matches_regex_Y in MY as (y & FY).
    unfold Datetime.group_int. cbn [Re.lookup String.eqb Ascii.eqb Bool.eqb].
    rewrite (int_year_text _ _ FY), (int_month_text _ _ FM), (int_day_text _ _ FD).
    intros H. apply new_date_Ok in H as [V ->].
    exists y, m, d. rewrite append_empty_r. repeat split; try apply V.
    exists D, Mo, Y. auto.
  - intros (y & m & d & F & V & ->).
    rewrite (strptime_accepted _ _ _ _ F). apply new_date_valid, V.
Qed.

(** On a text that the parser takes and whose numbers are no date,
    [strptime] raises what [date(year, month, day)] raises. *)
Lemma strptime_out_of_range (raw : string) (y m d : Z) :
  accepted_format raw y m d -> ~ valid_ymd y m d ->
  Datetime.strptime raw
  = Raise (ValueError (if y =? 0 then OutOfRange "year" 0 else OutOfRange "day" d)).
Proof.
  intros F V. rewrite (strptime_accepted _ _ _ _ F).
  destruct F as (D & Mo & Y & _ & FD & FM & FY).
  apply new_date_refused; [eapply year_text_range, FY | eapply month_text_range, FM
                           | eapply day_text_range, FD | exact V].
Qed.

Lemma strptime_raises_ValueError (raw : string) :
  (exists x, Datetime.strptime raw = Ok x)
  \/ (exists e, Datetime.strptime raw = Raise (ValueError e)).
Proof.
  unfold Datetime.strptime.
  destruct (Re.rmatch Datetime.format_regex raw) as [[found rest]|];
    [|right; eexists; reflexivity].
  destruct rest; [|right; eexists; reflexivity].
  destruct (Datetime.group_int "Y" found) as [y|]; [|right; eexists; reflexivity].
  destruct (Datetime.group_int "m" found) as [m|]; [|right; eexists; reflexivity].
  destruct (Datetime.group_int "d" found) as [d|]; [|right; eexists; reflexivity].
  unfold Datetime.new_date, Datetime.check_date_fields.
  repeat match goal with
         | |- context [if ?b then _ else _] => destruct b
         end; simpl; eauto.
Qed.

(** ** Birthdays *)

Lemma strict_is_accepted (raw : string) (y m d : Z) :
  strict_format raw y m d -> 1 <= d <= 31 -> 1 <= m <= 12 ->
  accepted_format raw y m d.
Proof.
  intros (D & Mo & Y & E & HD & HM & HY) Hd Hm. exists D, Mo, Y.
  split; [exact E|]. split; [|split].
  - apply two_digits_day_text; assumption.
  - apply two_digits_month_text; assumption.
  - apply four_digits_year_text, HY.
Qed.

Lemma strict_valid_is_accepted (raw : string) (y m d : Z) :
  strict_format raw y m d -> valid_ymd y m d -> accepted_format raw y m d.
Proof.
  intros F (_ & Hm & Hd). pose proof (days_in_month_range y m Hm).
  apply strict_is_accepted; [exact F | lia | exact Hm].
Qed.

Lemma strict_format_length (raw : string) (y m d : Z) :
  strict_format raw y m d -> String.length raw = 10%nat.
Proof.
  intros (D & Mo & Y & -> & (a & b & -> & _) & (a' & b' & -> & _)
          & (e & f & g & h & -> & _)).
  reflexivity.
Qed.

Lemma Birthday_init_Ok (raw : string) (b : Birthday.t) :
  Birthday.init raw = Ok b <-> Datetime.strptime raw = Ok (Birthday.value b).
Proof.
  unfold Birthday.init. destruct b as [x]. simpl.
  destruct (Datetime.strptime raw) as [[e|e]|x']; unfold Ok, Raise;
    split; intros H; try discriminate; inversion H; reflexivity.
Qed.

(** The [ValueError] of [Birthday] carries the message of the parser. *)
Lemma Birthday_init_Raise (raw : string) (e : message) :
  Datetime.strptime raw = Raise (ValueError e) ->
  Birthday.init raw
  = Raise (ValueError (Prefixed "Invalid date format. Use DD.MM.YYYY. Error: " e)).
Proof. intros E. unfold Birthday.init. rewrite E. reflexivity. Qed.

Lemma Birthday_init_date (raw : string) (y m d : Z) :
  accepted_format raw y m d -> valid_ymd y m d ->
  Birthday.init raw = Ok (Birthday.mk (Datetime.mkdate y m d)).
Proof.
  intros F V. apply Birthday_init_Ok, strptime_Ok. exists y, m, d. auto.
Qed.

(** C4, as the code has it: [Birthday(raw)] returns exactly when [raw] is a
    day, a dot, a month, a dot and a year that the parser takes - the day
    is [3] and then [0] or [1], or [1] or [2] and then a digit, or [0] and
    then one of [1] to [9], or one of [1] to [9] alone or after one blank;
    the month is [1] and then one of [0] to [2], or [0] and then one of [1]
    to [9], or one of [1] to [9] alone; the year is four digits - and these
    numbers are a date of the calendar; the value is that date.  A string
    in the strict format DD.MM.YYYY whose numbers are a date is such a
    string.  In every other case the constructor raises its [ValueError],
    which carries the message of the parser: the numbers are out of range
    (the year 0, or a day after the end of the month), or text is left
    after the year, or nothing that the parser takes is at the front of
    [raw]. *)
Theorem Birthday_init_accepted_format (raw : string) :
  (forall b,
      Birthday.init raw = Ok b
      <-> exists y m d,
        accepted_format raw y m d /\ valid_ymd y m d
        /\ b = Birthday.mk (Datetime.mkdate y m d))
  /\ (forall y m d,
         strict_format raw y m d -> valid_ymd y m d ->
         Birthday.init raw = Ok (Birthday.mk (Datetime.mkdate y m d)))
  /\ ((exists b, Birthday.init raw = Ok b)
      \/ exists e,
        Datetime.strptime raw = Raise (ValueError e)
        /\ Birthday.init raw
           = Raise (ValueError
                      (Prefixed "Invalid date format. Use DD.MM.YYYY. Error: " e)))
  /\ (forall y m d,
         accepted_format raw y m d -> ~ valid_ymd y m d ->
         Birthday.init raw
         = Raise (ValueError
                    (Prefixed "Invalid date format. Use DD.MM.YYYY. Error: "
                              (if y =? 0 then OutOfRange "year" 0
                               else OutOfRange "day" d))))
  /\ (forall D Mo Y rest y m d,
         raw = D ++ "." ++ Mo ++ "." ++ Y ++ rest ->
         day_text D d -> month_text Mo m -> year_text Y y ->
         rest <> EmptyString ->
         Birthday.init raw
         = Raise (ValueError
                    (Prefixed "Invalid date format. Use DD.MM.YYYY. Error: "
                              (UnconvertedData rest))))
  /\ (~ (exists D Mo Y rest y m d,
            raw = D ++ "." ++ Mo ++ "." ++ Y ++ rest
            /\ day_text D d /\ month_text Mo m /\ year_text Y y) ->
      Birthday.init raw
      = Raise (ValueError
                 (Prefixed "Invalid date format. Use DD.MM.YYYY. Error: "
                           (TimeDataMismatch raw "%d.%m.%Y")))).
Proof.
  split; [|split; [|split; [|split; [|split]]]].
  - intros b. rewrite Birthday_init_Ok, strptime_Ok. destruct b as [x]. simpl.
    split; intros (y & m & d & F & V & E); exists y, m, d;
      (split; [exact F | split; [exact V | congruence]]).
  - intros y m d F V. apply Birthday_init_date; [|exact V].
    apply strict_valid_is_accepted; assumption.
  - destruct (strptime_raises_ValueError raw) as [[x E]|[e E]].
    + left. exists (Birthday.mk x). apply Birthday_init_Ok. exact E.
    + right. exists e. split; [exact E|]. apply Birthday_init_Raise, E.
  - intros y m d F V. apply Birthday_init_Raise.
    apply (strptime_out_of_range _ y m d F V).
  - intros D Mo Y rest y m d -> FD FM FY Hrest.
    apply Birthday_init_Raise. eapply strptime_unconverted; eassumption.
  - intros H. apply Birthday_init_Raise, strptime_mismatch, H.
Qed.

(** C4, as it is stated, fails: the string [1.1.2000] is not in the format
    DD.MM.YYYY, and [Birthday] takes it. *)
Lemma Birthday_init_single_digits :
  Birthday.init "1.1.2000" = Ok (Birthday.mk (Datetime.mkdate 2000 1 1))
  /\ ~ (exists y m d, strict_format "1.1.2000" y m d).
Proof.
  split; [reflexivity|].
  intros (y & m & d & H). apply strict_format_length in H. discriminate H.
Qed.

Example Birthday_init_blank_day :
  Birthday.init " 1.01.2000" = Ok (Birthday.mk (Datetime.mkdate 2000 1 1)).
Proof. reflexivity. Qed.

Example Birthday_init_april_31 :
  Birthday.init "31.04.2024"
  = Raise (ValueError (Prefixed "Invalid date format. Use DD.MM.YYYY. Error: "
                                (OutOfRange "day" 31))).
Proof. reflexivity. Qed.

Example Birthday_init_february_30 :
  Birthday.init "30.02.2024"
  = Raise (ValueError (Prefixed "Invalid date format. Use DD.MM.YYYY. Error: "
                                (OutOfRange "day" 30))).
Proof. reflexivity. Qed.

Example Birthday_init_year_0 :
  Birthday.init "01.01.0000"
  = Raise (ValueError (Prefixed "Invalid date format. Use DD.MM.YYYY. Error: "
                                (OutOfRange "year" 0))).
Proof. reflexivity. Qed.

Example Birthday_init_month_13 :
  Birthday.init "01.13.2000"
  = Raise (ValueError (Prefixed "Invalid date format. Use DD.MM.YYYY. Error: "
                                (TimeDataMismatch "01.13.2000" "%d.%m.%Y"))).
Proof. reflexivity. Qed.

Example Birthday_init_five_digit_year :
  Birthday.init "01.01.20000"
  = Raise (ValueError (Prefixed "Invalid date format. Use DD.MM.YYYY. Error: "
                                (UnconvertedData "0"))).
Proof. reflexivity. Qed.

Example Birthday_init_dashes :
  Birthday.init "2024-01-05"
  = Raise (ValueError (Prefixed "Invalid date format. Use DD.MM.YYYY. Error: "
                                (TimeDataMismatch "2024-01-05" "%d.%m.%Y"))).
Proof. reflexivity. Qed.

(** ** The rendering of a date *)

Lemma decimal_two_digits (t : string) (v : Z) :
  two_digits t v -> Datetime.decimal 2 v = t.
Proof.
  intros (a & b & -> & Ha & Hb & ->).
  pose proof (digit_val_range a Ha). pose proof (digit_val_range b Hb).
  cbn [Datetime.decimal append].
  replace ((10 * digit_val a + digit_val b) mod 10) with (digit_val b)
    by (apply Z.mod_unique with (q := digit_val a); lia).
  replace ((10 * digit_val a + digit_val b) / 10) with (digit_val a)
    by (apply Z.div_unique with (r := digit_val b); lia).
  rewrite (Z.mod_small (digit_val a)) by lia.
  rewrite (digit_char_val a Ha), (digit_char_val b Hb). reflexivity.
Qed.

Lemma decimal_four_digits (t : string) (v : Z) :
  four_digits t v -> Datetime.decimal 4 v = t.
Proof.
  intros (a & b & c & d & -> & Ha & Hb & Hc & Hd & ->).
  pose proof (digit_val_range a Ha). pose proof (digit_val_range b Hb).
  pose proof (digit_val_range c Hc). pose proof (digit_val_range d Hd).
  cbn [Datetime.decimal append].
  set (v := 1000 * digit_val a + 100 * digit_val b + 10 * digit_val c + digit_val d).
  assert (E0 : v mod 10 = digit_val d)
    by (symmetry; apply Z.mod_unique
          with (q := 100 * digit_val a + 10 * digit_val b + digit_val c);
        unfold v; lia).
  assert (E1 : v / 10 = 100 * digit_val a + 10 * digit_val b + digit_val c)
    by (symmetry; apply Z.div_unique with (r := digit_val d); unfold v; lia).
  rewrite E0, E1.
  replace ((100 * digit_val a + 10 * digit_val b + digit_val c) mod 10)
    with (digit_val c)
    by (apply Z.mod_unique with (q := 10 * digit_val a + digit_val b); lia).
  replace ((100 * digit_val a + 10 * digit_val b + digit_val c) / 10)
    with (10 * digit_val a + digit_val b)
    by (apply Z.div_unique with (r := digit_val c); lia).
  replace ((10 * digit_val a + digit_val b) mod 10) with (digit_val b)
    by (apply Z.mod_unique with (q := digit_val a); lia).
  replace ((10 * digit_val a + digit_val b) / 10) with (digit_val a)
    by (apply Z.div_unique with (r := digit_val b); lia).
  rewrite (Z.mod_small (digit_val a)) by lia.
  rewrite (digit_char_val a Ha), (digit_char_val b Hb), (digit_char_val c Hc),
    (digit_char_val d Hd).
  reflexivity.
Qed.

Lemma decimal_2_is_two_digits (v : Z) :
  0 <= v <= 99 -> two_digits (Datetime.decimal 2 v) v.
Proof.
  intros Hv. cbn [Datetime.decimal append].
  assert (H1 : 0 <= (v / 10) mod 10 <= 9) by (Z.div_mod_to_equations; lia).
  assert (H0 : 0 <= v mod 10 <= 9) by (Z.div_mod_to_equations; lia).
  exists (Datetime.digit_char ((v / 10) mod 10)), (Datetime.digit_char (v mod 10)).
  split; [reflexivity|].
  rewrite !digit_char_range, !digit_val_digit_char by assumption.
  repeat split. Z.div_mod_to_equations. lia.
Qed.

Lemma decimal_4_is_four_digits (v : Z) :
  0 <= v <= 9999 -> four_digits (Datetime.decimal 4 v) v.
Proof.
  intros Hv. cbn [Datetime.decimal append].
  assert (H3 : 0 <= (v / 10 / 10 / 10) mod 10 <= 9) by (Z.div_mod_to_equations; lia).
  assert (H2 : 0 <= (v / 10 / 10) mod 10 <= 9) by (Z.div_mod_to_equations; lia).
  assert (H1 : 0 <= (v / 10) mod 10 <= 9) by (Z.div_mod_to_equations; lia).
  assert (H0 : 0 <= v mod 10 <= 9) by (Z.div_mod_to_equations; lia).
  exists (Datetime.digit_char ((v / 10 / 10 / 10) mod 10)),
    (Datetime.digit_char ((v / 10 / 10) mod 10)),
    (Datetime.digit_char ((v / 10) mod 10)), (Datetime.digit_char (v mod 10)).
  split; [reflexivity|].
  rewrite !digit_char_range, !digit_val_digit_char by assumption.
  repeat split. Z.div_mod_to_equations. lia.
Qed.

(** The cases of [plain_decimal] on a number of at most four digits. *)
Ltac plain_cases :=
  cbn [Datetime.plain_decimal];
  repeat match goal with
         | |- context [?a <? 10] => destruct (Z.ltb_spec a 10)
         end.

(** From the year 1000 on the year has its four digits. *)
Lemma plain_decimal_four (v : Z) :
  1000 <= v -> Datetime.plain_decimal 4 v = Datetime.decimal 4 v.
Proof.
  intros Hv. plain_cases; try reflexivity; exfalso; Z.div_mod_to_equations; lia.
Qed.

(** Before the year 1000 it has fewer. *)
Lemma plain_decimal_short (v : Z) :
  v < 1000 -> (String.length (Datetime.plain_decimal 4 v) < 4)%nat.
Proof.
  intros Hv. plain_cases; cbn [append String.length]; try lia;
    exfalso; Z.div_mod_to_equations; lia.
Qed.

Lemma digit_char_mod_range (v : Z) :
  Re.in_range "0" "9" (Datetime.digit_char (v mod 10)) = true.
Proof. apply digit_char_range. Z.div_mod_to_equations. lia. Qed.

Lemma digit_val_mod (v : Z) : digit_val (Datetime.digit_char (v mod 10)) = v mod 10.
Proof. apply digit_val_digit_char. Z.div_mod_to_equations. lia. Qed.

Lemma digit_char_not_zero (v : Z) :
  1 <= v < 10 -> Datetime.digit_char (v mod 10) <> "0"%char.
Proof.
  intros Hv E. apply (f_equal Re.code) in E.
  rewrite code_digit_char in E by (Z.div_mod_to_equations; lia).
  change (Re.code "0") with 48 in E. Z.div_mod_to_equations. lia.
Qed.

Lemma plain_decimal_plain_number (v : Z) :
  1 <= v <= 9999 -> plain_number (Datetime.plain_decimal 4 v) v.
Proof.
  intros Hv. unfold plain_number.
  plain_cases; cbn [append number];
    rewrite ?digit_char_mod_range, ?digit_val_mod;
    try (exfalso; Z.div_mod_to_equations; lia);
    (split;
     [ apply f_equal; Z.div_mod_to_equations; lia
     | eexists; eexists; split;
       [ reflexivity | apply digit_char_not_zero; Z.div_mod_to_equations; lia ] ]).
Qed.

Lemma decimal_2_length (v : Z) : String.length (Datetime.decimal 2 v) = 2%nat.
Proof. reflexivity. Qed.

Lemma strftime_length (c : Datetime.date) :
  String.length (Datetime.strftime c)
  = (6 + String.length (Datetime.plain_decimal 4 (Datetime.year c)))%nat.
Proof.
  unfold Datetime.strftime. rewrite !length_append, !decimal_2_length. reflexivity.
Qed.

(** The rendering of a date: the day and the month with two digits, the
    year with no zero in front. *)
Lemma strftime_rendered (c : Datetime.date) :
  valid_date c ->
  rendered_format (Datetime.strftime c)
                  (Datetime.year c) (Datetime.month c) (Datetime.day c).
Proof.
  intros (Hy & Hm & Hd).
  pose proof (days_in_month_range (Datetime.year c) _ Hm).
  unfold Datetime.MINYEAR, Datetime.MAXYEAR in Hy.
  exists (Datetime.decimal 2 (Datetime.day c)),
    (Datetime.decimal 2 (Datetime.month c)),
    (Datetime.plain_decimal 4 (Datetime.year c)).
  split; [reflexivity|]. split; [|split].
  - apply decimal_2_is_two_digits. lia.
  - apply decimal_2_is_two_digits. lia.
  - apply plain_decimal_plain_number. lia.
Qed.

(** From the year 1000 on the rendering of a date is DD.MM.YYYY and
    denotes the date. *)
Lemma strftime_is_strict (c : Datetime.date) :
  valid_date c -> 1000 <= Datetime.year c ->
  strict_format (Datetime.strftime c)
                (Datetime.year c) (Datetime.month c) (Datetime.day c).
Proof.
  intros (Hy & Hm & Hd) Hk.
  pose proof (days_in_month_range (Datetime.year c) _ Hm).
  unfold Datetime.MINYEAR, Datetime.MAXYEAR in Hy.
  exists (Datetime.decimal 2 (Datetime.day c)),
    (Datetime.decimal 2 (Datetime.month c)),
    (Datetime.decimal 4 (Datetime.year c)).
  split; [|split; [|split]].
  - unfold Datetime.strftime. rewrite plain_decimal_four by exact Hk. reflexivity.
  - apply decimal_2_is_two_digits. lia.
  - apply decimal_2_is_two_digits. lia.
  - apply decimal_4_is_four_digits. lia.
Qed.

(** Before the year 1000 it is shorter than DD.MM.YYYY. *)
Lemma strftime_not_strict (c : Datetime.date) (y m d : Z) :
  Datetime.year c < 1000 -> ~ strict_format (Datetime.strftime c) y m d.
Proof.
  intros Hk F. apply strict_format_length in F. rewrite strftime_length in F.
  pose proof (plain_decimal_short _ Hk). lia.
Qed.

Lemma strftime_strict (s : string) (y m d : Z) :
  strict_format s y m d -> 1000 <= y ->
  Datetime.strftime (Datetime.mkdate y m d) = s.
Proof.
  intros (D & Mo & Y & -> & HD & HM & HY) Hk. unfold Datetime.strftime.
  cbn [Datetime.day Datetime.month Datetime.year].
  rewrite (decimal_two_digits _ _ HD), (decimal_two_digits _ _ HM),
    (plain_decimal_four _ Hk), (decimal_four_digits _ _ HY).
  reflexivity.
Qed.

(** The parser does not take the rendering of a date before the year
    1000: its year has fewer than four digits. *)
Lemma strftime_not_parsed (c : Datetime.date) :
  valid_date c -> Datetime.year c < 1000 ->
  Datetime.strptime (Datetime.strftime c)
  = Raise (ValueError (TimeDataMismatch (Datetime.strftime c) "%d.%m.%Y")).
Proof.
  intros (Hy & Hm & Hd) Hk. apply strptime_mismatch.
  intros (D & Mo & Y & rest & y & m & d & E & FD & FM & FY).
  pose proof (days_in_month_range (Datetime.year c) _ Hm).
  unfold Datetime.strftime in E.
  apply dot_split in E as [_ E];
    [| eapply two_digits_dotless, decimal_2_is_two_digits; lia
     | eapply day_text_dotless, FD].
  apply dot_split in E as [_ E];
    [| eapply two_digits_dotless, decimal_2_is_two_digits; lia
     | eapply month_text_dotless, FM].
  apply (f_equal String.length) in E. rewrite length_append in E.
  rewrite (year_text_length _ _ FY) in E.
  pose proof (plain_decimal_short _ Hk). lia.
Qed.

(** C6, as the code has it: when [s] is DD.MM.YYYY, with a day of two
    digits, a month of two digits and a year of four digits that are a date
    of the calendar, [Birthday(s)] returns that date, and from the year
    1000 on its rendering is [s]. *)
Theorem Birthday_parse_format_round_trip (s : string) (y m d : Z)
        (Hformat : strict_format s y m d) (Hvalid : valid_ymd y m d) :
  exists b,
    Birthday.init s = Ok b
    /\ Birthday.value b = Datetime.mkdate y m d
    /\ (1000 <= y -> Birthday.str b = s).
Proof.
  exists (Birthday.mk (Datetime.mkdate y m d)).
  split; [|split].
  - apply Birthday_init_date; [|exact Hvalid].
    apply strict_valid_is_accepted; assumption.
  - reflexivity.
  - intros Hk. apply strftime_strict; assumption.
Qed.

Lemma strict_format_leap_day : strict_format "29.02.2000" 2000 2 29.
Proof.
  exists "29", "02", "2000". split; [reflexivity|]. split; [|split].
  - exists "2"%char, "9"%char. repeat split.
  - exists "0"%char, "2"%char. repeat split.
  - exists "2"%char, "0"%char, "0"%char, "0"%char. repeat split.
Qed.

Lemma valid_leap_day : valid_ymd 2000 2 29.
Proof. unfold valid_ymd. cbv. repeat split; discriminate. Qed.

Lemma Birthday_parse_format_round_trip_witness :
  exists b,
    Birthday.init "29.02.2000" = Ok b
    /\ Birthday.value b = Datetime.mkdate 2000 2 29
    /\ (1000 <= 2000 -> Birthday.str b = "29.02.2000").
Proof.
  apply (Birthday_parse_format_round_trip "29.02.2000" 2000 2 29).
  - exact strict_format_leap_day.
  - exact valid_leap_day.
Defined.

(** C6, as it is stated, fails: [01.01.0999] is DD.MM.YYYY and a date of the
    calendar, [Birthday] takes it, and the rendering is [01.01.999]. *)
Lemma Birthday_round_trip_year_999 :
  strict_format "01.01.0999" 999 1 1
  /\ valid_ymd 999 1 1
  /\ Birthday.init "01.01.0999" = Ok (Birthday.mk (Datetime.mkdate 999 1 1))
  /\ Birthday.str (Birthday.mk (Datetime.mkdate 999 1 1)) = "01.01.999"
  /\ Birthday.str (Birthday.mk (Datetime.mkdate 999 1 1)) <> "01.01.0999".
Proof.
  split; [|split; [|split; [|split]]].
  - exists "01", "01", "0999". split; [reflexivity|]. split; [|split].
    + exists "0"%char, "1"%char. repeat split.
    + exists "0"%char, "1"%char. repeat split.
    + exists "0"%char, "9"%char, "9"%char, "9"%char. repeat split.
  - unfold valid_ymd. cbv. repeat split; discriminate.
  - reflexivity.
  - reflexivity.
  - discriminate.
Qed.

(** ** The calendar: ordinals and dates *)

Lemma month_day_checked (leapyear : bool) :
  forallb (month_day_check leapyear) (seq 0 365) = true.
Proof. destruct leapyear; vm_compute; reflexivity. Qed.

Lemma month_day_ok (n : Z) (leapyear : bool) :
  0 <= n <= 364 ->
  let '(mo, d) := month_day n leapyear in
  1 <= mo <= 12
  /\ 1 <= d <= (if (mo =? 2) && leapyear then 29
                else Datetime.index Datetime.DAYS_IN_MONTH mo)
  /\ Datetime.index Datetime.DAYS_BEFORE_MONTH mo
     + Datetime.bool_to_int ((2 <? mo) && leapyear) + d = n + 1.
Proof.
  intros Hn.
  pose proof (month_day_checked leapyear) as H.
  rewrite forallb_forall in H.
  specialize (H (Z.to_nat n)).
  assert (HIn : In (Z.to_nat n) (seq 0 365)) by (apply in_seq; lia).
  specialize (H HIn). unfold month_day_check in H.
  rewrite Z2Nat.id in H by lia.
  destruct (month_day n leapyear) as [mo d].
  repeat (apply andb_true_iff in H; destruct H as [H ?]).
  rewrite ?Z.leb_le, ?Z.eqb_eq in *. lia.
Qed.

Lemma ord2ymd_unfold (n0 : Z) :
  Datetime.ord2ymd n0
  = let n := n0 - 1 in
    let n400 := n / 146097 in
    let n := n mod 146097 in
    let n100 := n / 36524 in
    let n := n mod 36524 in
    let n4 := n / 1461 in
    let n := n mod 1461 in
    let n1 := n / 365 in
    let n := n mod 365 in
    let yr := n400 * 400 + 1 + (n100 * 100 + n4 * 4 + n1) in
    if (n1 =? 4) || (n100 =? 4) then (yr - 1, 12, 31)
    else
      let '(mo, d) :=
        month_day n ((n1 =? 3) && (negb (n4 =? 24) || (n100 =? 3))) in
      (yr, mo, d).
Proof.
  unfold Datetime.ord2ymd, month_day.
  change Datetime.DI400Y with 146097. change Datetime.DI100Y with 36524.
  change Datetime.DI4Y with 1461. cbv zeta.
  destruct (_ || _)%bool; [reflexivity|].
  destruct (_ <? _); reflexivity.
Qed.

Lemma days_before_year_decomp (n400 n100 n4 n1 : Z) :
  0 <= n100 <= 3 -> 0 <= n4 <= 24 -> 0 <= n1 <= 3 ->
  Datetime.days_before_year (n400 * 400 + 1 + (n100 * 100 + n4 * 4 + n1))
  = 146097 * n400 + 36524 * n100 + 1461 * n4 + 365 * n1.
Proof.
  intros. unfold Datetime.days_before_year. cbv zeta.
  Z.div_mod_to_equations. lia.
Qed.

Lemma is_leap_decomp (n400 n100 n4 n1 : Z) :
  0 <= n100 <= 3 -> 0 <= n4 <= 24 -> 0 <= n1 <= 3 ->
  Datetime.is_leap (n400 * 400 + 1 + (n100 * 100 + n4 * 4 + n1))
  = (n1 =? 3) && (negb (n4 =? 24) || (n100 =? 3)).
Proof.
  intros. unfold Datetime.is_leap.
  repeat match goal with
         | |- context [?a =? ?b] => destruct (Z.eqb_spec a b)
         end; simpl; try reflexivity; exfalso;
    Z.div_mod_to_equations; lia.
Qed.

Ltac december :=
  change (Datetime.index Datetime.DAYS_BEFORE_MONTH 12) with 334;
  change (Datetime.index Datetime.DAYS_IN_MONTH 12) with 31;
  change (2 <? 12) with true; change (12 =? 2) with false;
  cbn [andb orb negb Datetime.bool_to_int].

(** [_ord2ymd] is the inverse of [_ymd2ord] on the ordinals of dates, and
    what it returns is a date. *)
Lemma ord2ymd_correct (n0 : Z) :
  1 <= n0 ->
  let '(y, m, d) := Datetime.ord2ymd n0 in
  Datetime.ymd2ord y m d = n0
  /\ 1 <= y /\ (n0 <= Datetime.MAXORDINAL -> y <= Datetime.MAXYEAR)
  /\ 1 <= m <= 12 /\ 1 <= d <= Datetime.days_in_month y m.
Proof.
  intros Hn0. rewrite ord2ymd_unfold. cbv zeta.
  unfold Datetime.MAXORDINAL, Datetime.MAXYEAR.
  pose proof (Z.div_mod (n0 - 1) 146097 ltac:(lia)) as E400.
  pose proof (Z.mod_pos_bound (n0 - 1) 146097 ltac:(lia)) as B400.
  assert (Q400 : 0 <= (n0 - 1) / 146097) by (apply Z.div_pos; lia).
  set (n400 := (n0 - 1) / 146097) in *.
  set (r400 := (n0 - 1) mod 146097) in *.
  pose proof (Z.div_mod r400 36524 ltac:(lia)) as E100.
  pose proof (Z.mod_pos_bound r400 36524 ltac:(lia)) as B100.
  set (n100 := r400 / 36524) in *.
  set (r100 := r400 mod 36524) in *.
  pose proof (Z.div_mod r100 1461 ltac:(lia)) as E4.
  pose proof (Z.mod_pos_bound r100 1461 ltac:(lia)) as B4.
  set (n4 := r100 / 1461) in *.
  set (r4 := r100 mod 1461) in *.
  pose proof (Z.div_mod r4 365 ltac:(lia)) as E1.
  pose proof (Z.mod_pos_bound r4 365 ltac:(lia)) as B1.
  set (n1 := r4 / 365) in *.
  set (r1 := r4 mod 365) in *.
  clearbody n400 r400 n100 r100 n4 r4 n1 r1.
  assert (R100 : 0 <= n100 <= 4) by lia.
  assert (R4 : 0 <= n4 <= 24) by lia.
  assert (R1 : 0 <= n1 <= 4) by lia.
  destruct (Z.eqb_spec n1 4) as [C1|C1]; [|destruct (Z.eqb_spec n100 4) as [C100|C100]];
    cbn [orb].
  - (* the last day of a leap year *)
    assert (R4' : n4 <= 23) by lia.
    replace (n400 * 400 + 1 + (n100 * 100 + n4 * 4 + n1) - 1)
      with (n400 * 400 + 1 + (n100 * 100 + n4 * 4 + 3)) by lia.
    assert (R100' : 0 <= n100 <= 3) by lia.
    unfold Datetime.ymd2ord, Datetime.days_before_month, Datetime.days_in_month.
    rewrite days_before_year_decomp, is_leap_decomp by lia.
    replace (3 =? 3) with true by reflexivity.
    replace (n4 =? 24) with false by (symmetry; apply Z.eqb_neq; lia).
    december. lia.
  - (* the last day of a cycle of 400 years *)
    assert (n4 = 0 /\ n1 = 0 /\ r1 = 0) as (-> & -> & ->) by lia.
    subst n100.
    replace (n400 * 400 + 1 + (4 * 100 + 0 * 4 + 0) - 1)
      with (n400 * 400 + 1 + (3 * 100 + 24 * 4 + 3)) by lia.
    unfold Datetime.ymd2ord, Datetime.days_before_month, Datetime.days_in_month.
    rewrite days_before_year_decomp, is_leap_decomp by lia.
    change ((3 =? 3) && (negb (24 =? 24) || (3 =? 3)))%bool with true.
    december. lia.
  - assert (R100' : 0 <= n100 <= 3) by lia.
    assert (R1' : 0 <= n1 <= 3) by lia.
    pose proof (month_day_ok r1 ((n1 =? 3) && (negb (n4 =? 24) || (n100 =? 3)))
                             ltac:(lia)) as Hmd.
    destruct (month_day r1 _) as [mo d].
    destruct Hmd as (Hmo & Hd & Hsum).
    unfold Datetime.ymd2ord, Datetime.days_before_month, Datetime.days_in_month.
    rewrite days_before_year_decomp, is_leap_decomp by lia.
    repeat split; try lia.
Qed.

Lemma fromordinal_correct (n : Z) :
  1 <= n <= Datetime.MAXORDINAL ->
  valid_date (Datetime.fromordinal n)
  /\ Datetime.toordinal (Datetime.fromordinal n) = n.
Proof.
  intros Hn. pose proof (ord2ymd_correct n ltac:(lia)) as H.
  unfold Datetime.fromordinal, Datetime.toordinal, valid_date, valid_ymd.
  destruct (Datetime.ord2ymd n) as [[y m] d]. simpl.
  unfold Datetime.MINYEAR. repeat split; try lia.
Qed.

(** ** Upcoming birthdays *)

Lemma february (y : Z) :
  Datetime.days_in_month y 2 = if Datetime.is_leap y then 29 else 28.
Proof. unfold Datetime.days_in_month. destruct (Datetime.is_leap y); reflexivity. Qed.

Lemma days_in_month_other (y y' m : Z) :
  m <> 2 -> Datetime.days_in_month y m = Datetime.days_in_month y' m.
Proof.
  intros H. unfold Datetime.days_in_month.
  replace (m =? 2) with false by (symmetry; apply Z.eqb_neq; exact H).
  reflexivity.
Qed.

Lemma spec_in_year_valid (b : Datetime.date) (y : Z) :
  valid_date b -> Datetime.MINYEAR <= y <= Datetime.MAXYEAR ->
  valid_date (spec_in_year b y).
Proof.
  destruct b as [yb m d]. unfold valid_date, valid_ymd, spec_in_year. simpl.
  intros (Hy & Hm & Hd) Hy'.
  destruct (Z.eqb_spec m 2) as [->|Hm2]; simpl.
  - rewrite february in *.
    destruct (Z.eqb_spec d 29) as [->|Hd29]; simpl;
      destruct (Datetime.is_leap y) eqn:El; simpl;
      rewrite ?february, ?El; destruct (Datetime.is_leap yb); lia.
  - rewrite (days_in_month_other y yb m Hm2). lia.
Qed.

Lemma birthday_in_year_Ok (b : Datetime.date) (y : Z) :
  valid_date b -> Datetime.MINYEAR <= y <= Datetime.MAXYEAR ->
  AddressBook.birthday_in_year b y = Ok (spec_in_year b y).
Proof.
  intros Hb Hy. pose proof (spec_in_year_valid b y Hb Hy) as Hv.
  destruct b as [yb m d]. unfold valid_date, valid_ymd in Hb. simpl in Hb.
  destruct Hb as (Hyb & Hm & Hd).
  unfold AddressBook.birthday_in_year, Datetime.replace, spec_in_year in *.
  cbn [Datetime.year Datetime.month Datetime.day] in *.
  destruct ((m =? 2) && (d =? 29) && negb (Datetime.is_leap y))%bool eqn:E;
    unfold valid_date in Hv;
    cbn [Datetime.year Datetime.month Datetime.day] in Hv.
  - apply andb_true_iff in E as [E El]. apply andb_true_iff in E as [Em Ed].
    apply Z.eqb_eq in Em, Ed. subst m d. apply negb_true_iff in El.
    destruct (new_date_raises y 2 29) as [e Hr].
    { unfold valid_ymd. rewrite february, El. lia. }
    rewrite Hr. simpl. apply new_date_valid, Hv.
  - rewrite (new_date_valid _ _ _ Hv). reflexivity.
Qed.

Lemma birthday_in_year_raises (b : Datetime.date) (y : Z) :
  Datetime.MAXYEAR < y ->
  AddressBook.birthday_in_year b y = Raise (ValueError (OutOfRange "year" y)).
Proof.
  intros Hy.
  unfold AddressBook.birthday_in_year, Datetime.replace, Datetime.new_date,
    Datetime.check_date_fields.
  replace (y <=? Datetime.MAXYEAR) with false by (symmetry; apply Z.leb_gt; lia).
  rewrite andb_false_r. reflexivity.
Qed.

(** When the candidate is a date that [datetime] has, the code finds it. *)
Lemma next_birthday_Ok (today b c : Datetime.date) :
  valid_date today -> valid_date b ->
  AddressBook.next_birthday today b = Ok c ->
  c = spec_candidate today b /\ valid_date c.
Proof.
  intros Ht Hb. unfold AddressBook.next_birthday, spec_candidate.
  pose proof Ht as (Hy & _).
  rewrite (birthday_in_year_Ok b _ Hb Hy). simpl.
  destruct (Datetime.lt (spec_in_year b (Datetime.year today)) today).
  - destruct (Z_lt_le_dec (Datetime.year today) Datetime.MAXYEAR) as [Hlt|Hge].
    + assert (Hy' : Datetime.MINYEAR <= Datetime.year today + 1 <= Datetime.MAXYEAR)
        by lia.
      rewrite (birthday_in_year_Ok b _ Hb Hy'). intros E. inversion E. subst c.
      split; [reflexivity | apply spec_in_year_valid; assumption].
    + rewrite birthday_in_year_raises by lia. discriminate.
  - intros E. inversion E. subst c.
    split; [reflexivity | apply spec_in_year_valid; assumption].
Qed.

Lemma next_birthday_total (today b : Datetime.date) :
  valid_date today -> valid_date b ->
  Datetime.year today < Datetime.MAXYEAR ->
  AddressBook.next_birthday today b = Ok (spec_candidate today b).
Proof.
  intros Ht Hb Hlt. unfold AddressBook.next_birthday, spec_candidate.
  pose proof Ht as (Hy & _).
  rewrite (birthday_in_year_Ok b _ Hb Hy). simpl.
  destruct (Datetime.lt (spec_in_year b (Datetime.year today)) today);
    [|reflexivity].
  apply birthday_in_year_Ok; [exact Hb | lia].
Qed.

Lemma days_before_year_range (y : Z) :
  Datetime.MINYEAR <= y <= Datetime.MAXYEAR ->
  0 <= Datetime.days_before_year y
  /\ Datetime.days_before_year y + 365 + Datetime.bool_to_int (Datetime.is_leap y)
     <= Datetime.MAXORDINAL.
Proof.
  unfold Datetime.MINYEAR, Datetime.MAXYEAR, Datetime.MAXORDINAL,
    Datetime.days_before_year, Datetime.is_leap, Datetime.bool_to_int.
  intros H. cbv zeta.
  repeat match goal with
         | |- context [?a =? ?b] => destruct (Z.eqb_spec a b)
         end; cbn [andb orb negb];
    Z.div_mod_to_equations; lia.
Qed.

Lemma days_before_month_range (y m : Z) :
  1 <= m <= 12 ->
  0 <= Datetime.days_before_month y m
  /\ Datetime.days_before_month y m + Datetime.days_in_month y m
     <= 365 + Datetime.bool_to_int (Datetime.is_leap y).
Proof.
  intros H. unfold Datetime.days_before_month, Datetime.days_in_month.
  assert (C : m = 1 \/ m = 2 \/ m = 3 \/ m = 4 \/ m = 5 \/ m = 6 \/ m = 7
              \/ m = 8 \/ m = 9 \/ m = 10 \/ m = 11 \/ m = 12) by lia.
  destruct (Datetime.is_leap y);
    repeat (destruct C as [->|C]; [cbv; split; discriminate|]);
    subst m; cbv; split; discriminate.
Qed.

Lemma toordinal_range (c : Datetime.date) :
  valid_date c -> 1 <= Datetime.toordinal c <= Datetime.MAXORDINAL.
Proof.
  intros (Hy & Hm & Hd). unfold Datetime.toordinal, Datetime.ymd2ord.
  pose proof (days_before_year_range _ Hy).
  pose proof (days_before_month_range (Datetime.year c) _ Hm).
  lia.
Qed.

(** The congratulation date is a date, as many days after the candidate as
    the weekend asks for. *)
Lemma congratulate_Ok (c : Datetime.date) :
  valid_date c ->
  exists c',
    AddressBook.congratulate c = Ok c'
    /\ valid_date c'
    /\ Datetime.toordinal c' = Datetime.toordinal c + weekend_shift c.
Proof.
  intros Hc. pose proof (toordinal_range c Hc) as Ho.
  unfold AddressBook.congratulate, weekend_shift, Datetime.add_days,
    Datetime.weekday, Datetime.MAXORDINAL in *.
  destruct (Z.eqb_spec ((Datetime.toordinal c + 6) mod 7) 5) as [E5|E5];
    [|destruct (Z.eqb_spec ((Datetime.toordinal c + 6) mod 7) 6) as [E6|E6]].
  - assert (Hr : 1 <= Datetime.toordinal c + 2 <= 3652059)
      by (Z.div_mod_to_equations; lia).
    replace (0 <? Datetime.toordinal c + 2) with true
      by (symmetry; apply Z.ltb_lt; lia).
    replace (Datetime.toordinal c + 2 <=? 3652059) with true
      by (symmetry; apply Z.leb_le; lia).
    eexists. split; [reflexivity|]. apply fromordinal_correct. exact Hr.
  - assert (Hr : 1 <= Datetime.toordinal c + 1 <= 3652059)
      by (Z.div_mod_to_equations; lia).
    replace (0 <? Datetime.toordinal c + 1) with true
      by (symmetry; apply Z.ltb_lt; lia).
    replace (Datetime.toordinal c + 1 <=? 3652059) with true
      by (symmetry; apply Z.leb_le; lia).
    eexists. split; [reflexivity|]. apply fromordinal_correct. exact Hr.
  - exists c. split; [reflexivity|]. split; [exact Hc | lia].
Qed.

(** ** Ordinals follow the order of the calendar *)

Lemma days_before_year_mono (y1 y2 : Z) :
  y1 < y2 ->
  Datetime.days_before_year y1 + 365 + Datetime.bool_to_int (Datetime.is_leap y1)
  <= Datetime.days_before_year y2.
Proof.
  unfold Datetime.days_before_year, Datetime.is_leap, Datetime.bool_to_int.
  intros H. cbv zeta.
  repeat match goal with
         | |- context [?a =? ?b] => destruct (Z.eqb_spec a b)
         end; cbn [andb orb negb];
    Z.div_mod_to_equations; lia.
Qed.

Lemma days_before_month_mono (y m1 m2 : Z) :
  1 <= m1 -> m1 < m2 -> m2 <= 12 ->
  Datetime.days_before_month y m1 + Datetime.days_in_month y m1
  <= Datetime.days_before_month y m2.
Proof.
  intros H1 H12 H2.
  unfold Datetime.days_before_month, Datetime.days_in_month.
  assert (C1 : m1 = 1 \/ m1 = 2 \/ m1 = 3 \/ m1 = 4 \/ m1 = 5 \/ m1 = 6
               \/ m1 = 7 \/ m1 = 8 \/ m1 = 9 \/ m1 = 10 \/ m1 = 11) by lia.
  assert (C2 : m2 = 2 \/ m2 = 3 \/ m2 = 4 \/ m2 = 5 \/ m2 = 6 \/ m2 = 7
               \/ m2 = 8 \/ m2 = 9 \/ m2 = 10 \/ m2 = 11 \/ m2 = 12) by lia.
  destruct (Datetime.is_leap y);
    repeat (destruct C1 as [->|C1]); try subst m1;
    repeat (destruct C2 as [->|C2]); try subst m2;
    first [ exfalso; lia | cbv; discriminate ].
Qed.

Lemma toordinal_lt (a b : Datetime.date) :
  valid_date a -> valid_date b ->
  Datetime.lt a b = true -> Datetime.toordinal a < Datetime.toordinal b.
Proof.
  intros (Hya & Hma & Hda) (Hyb & Hmb & Hdb).
  unfold Datetime.lt, Datetime.toordinal, Datetime.ymd2ord.
  pose proof (days_before_month_range (Datetime.year a) _ Hma).
  pose proof (days_before_month_range (Datetime.year b) _ Hmb).
  repeat (rewrite orb_true_iff || rewrite andb_true_iff).
  rewrite !Z.ltb_lt, !Z.eqb_eq.
  intros [Hy|[Hy [Hm|[Hm Hd]]]].
  - pose proof (days_before_year_mono _ _ Hy). lia.
  - rewrite Hy in *.
    pose proof (days_before_month_mono (Datetime.year b) _ _
                  (proj1 Hma) Hm (proj2 Hmb)).
    lia.
  - rewrite Hy, Hm. lia.
Qed.

Lemma lt_total (a b : Datetime.date) :
  a = b \/ Datetime.lt a b = true \/ Datetime.lt b a = true.
Proof.
  destruct a as [ya ma da], b as [yb mb db]. unfold Datetime.lt. simpl.
  destruct (Z.lt_trichotomy ya yb) as [H|[H|H]].
  - right. left. apply orb_true_iff. left. apply Z.ltb_lt, H.
  - subst yb. rewrite Z.eqb_refl, Z.ltb_irrefl. simpl.
    destruct (Z.lt_trichotomy ma mb) as [Hm|[Hm|Hm]].
    + right. left. apply orb_true_iff. left. apply Z.ltb_lt, Hm.
    + subst mb. rewrite Z.eqb_refl, Z.ltb_irrefl. simpl.
      destruct (Z.lt_trichotomy da db) as [Hd|[Hd|Hd]].
      * right. left. apply Z.ltb_lt, Hd.
      * left. subst db. reflexivity.
      * right. right. apply Z.ltb_lt, Hd.
    + right. right. apply orb_true_iff. left. apply Z.ltb_lt, Hm.
  - right. right. apply orb_true_iff. left. apply Z.ltb_lt, H.
Qed.

(** A date is before another one exactly when its ordinal is smaller, so
    the difference of two ordinals counts the days between the dates. *)
Lemma lt_toordinal (a b : Datetime.date) :
  valid_date a -> valid_date b ->
  Datetime.lt a b = (Datetime.toordinal a <? Datetime.toordinal b).
Proof.
  intros Ha Hb.
  destruct (Z.ltb_spec (Datetime.toordinal a) (Datetime.toordinal b)) as [H|H].
  - destruct (lt_total a b) as [->|[E|E]]; [lia | exact E |].
    apply (toordinal_lt _ _ Hb Ha) in E. lia.
  - destruct (Datetime.lt a b) eqn:E; [|reflexivity].
    apply (toordinal_lt _ _ Ha Hb) in E. lia.
Qed.

Lemma toordinal_inj (a b : Datetime.date) :
  valid_date a -> valid_date b ->
  Datetime.toordinal a = Datetime.toordinal b -> a = b.
Proof.
  intros Ha Hb E. destruct (lt_total a b) as [->|[H|H]]; [reflexivity | |].
  - apply (toordinal_lt _ _ Ha Hb) in H. lia.
  - apply (toordinal_lt _ _ Hb Ha) in H. lia.
Qed.

Lemma fromordinal_toordinal (c : Datetime.date) :
  valid_date c -> Datetime.fromordinal (Datetime.toordinal c) = c.
Proof.
  intros Hc.
  destruct (fromordinal_correct _ (toordinal_range c Hc)) as [Hv Ho].
  apply toordinal_inj; assumption.
Qed.

Lemma spec_in_year_year (b : Datetime.date) (y : Z) :
  Datetime.year (spec_in_year b y) = y.
Proof. unfold spec_in_year. destruct (_ && _)%bool; reflexivity. Qed.

(** The candidate is on the day of [today] or after it. *)
Lemma spec_candidate_not_before (today b : Datetime.date) :
  valid_date today -> valid_date b ->
  Datetime.year today < Datetime.MAXYEAR ->
  0 <= Datetime.sub_days (spec_candidate today b) today.
Proof.
  intros Ht Hb Hlt. pose proof Ht as (Hy & _).
  unfold spec_candidate, Datetime.sub_days. cbv zeta.
  destruct (Datetime.lt (spec_in_year b (Datetime.year today)) today) eqn:E.
  - assert (Hv : valid_date (spec_in_year b (Datetime.year today + 1)))
      by (apply spec_in_year_valid; [exact Hb | lia]).
    assert (L : Datetime.lt today (spec_in_year b (Datetime.year today + 1)) = true).
    { unfold Datetime.lt. rewrite spec_in_year_year.
      apply orb_true_iff. left. apply Z.ltb_lt. lia. }
    apply (toordinal_lt _ _ Ht Hv) in L. lia.
  - rewrite lt_toordinal in E;
      [|apply spec_in_year_valid; assumption | exact Ht].
    apply Z.ltb_ge in E. lia.
Qed.

(** One turn of the loop that returns has appended the item of the record
    when its candidate is in the window, and nothing otherwise. *)
Lemma toordinal_le_year (a b : Datetime.date) :
  valid_date a -> valid_date b ->
  Datetime.toordinal a <= Datetime.toordinal b ->
  Datetime.year a <= Datetime.year b.
Proof.
  intros Ha Hb H.
  destruct (Z.le_gt_cases (Datetime.year a) (Datetime.year b)) as [L|L];
    [exact L|].
  assert (E : Datetime.lt b a = true)
    by (unfold Datetime.lt; apply orb_true_iff; left; apply Z.ltb_lt; lia).
  apply (toordinal_lt _ _ Hb Ha) in E. lia.
Qed.

Lemma weekend_shift_range (c : Datetime.date) : 0 <= weekend_shift c <= 2.
Proof.
  unfold weekend_shift.
  destruct (Datetime.weekday c =? 5); [lia|].
  destruct (Datetime.weekday c =? 6); lia.
Qed.

Lemma visit_Ok (today : Datetime.date) (r : ContactRecord.t)
      (acc acc' : list AddressBook.item) (book : AddressBook.t) :
  valid_date today -> record_valid r ->
  fst (AddressBook.visit today r acc book) = Ok acc' ->
  (spec_upcoming today r = false /\ acc' = acc)
  \/ (spec_upcoming today r = true
      /\ exists it, acc' = app acc [it] /\ congratulated today r it).
Proof.
  intros Ht Hr. unfold AddressBook.visit, spec_upcoming, record_valid in *.
  destruct (ContactRecord.birthday r) as [b|] eqn:Eb.
  - unfold bind, lift, ret.
    destruct (AddressBook.next_birthday today (Birthday.value b)) as [e|c] eqn:En;
      cbn [fst]; [discriminate|].
    apply (next_birthday_Ok _ _ _ Ht Hr) in En as [-> Hc].
    fold (in_window today (spec_candidate today (Birthday.value b))).
    destruct (in_window today _) eqn:Ew; cbn [fst].
    + destruct (congratulate_Ok _ Hc) as (c' & Ec & Hc' & Ho).
      rewrite Ec. cbn [fst Ok]. intros E. inversion E. right.
      split; [reflexivity|]. eexists. split; [reflexivity|].
      exists b, c'. cbn [AddressBook.item_name AddressBook.congratulation_date].
      split; [exact Eb|]. split; [reflexivity|]. split; [exact Hc'|].
      split; [exact Ho|]. split; [reflexivity|].
      split; [|intros Hk; apply strftime_is_strict; assumption].
      apply (toordinal_le_year _ _ Ht Hc').
      unfold in_window, Datetime.sub_days in Ew.
      apply andb_true_iff in Ew as [Ew _]. apply Z.leb_le in Ew.
      pose proof (weekend_shift_range (spec_candidate today (Birthday.value b))).
      lia.
    + intros E. inversion E. left. auto.
  - cbn. intros E. inversion E. left. auto.
Qed.

Lemma visit_total (today : Datetime.date) (r : ContactRecord.t)
      (acc : list AddressBook.item) (book : AddressBook.t) :
  valid_date today -> Datetime.year today < Datetime.MAXYEAR -> record_valid r ->
  exists acc', AddressBook.visit today r acc book = (Ok acc', book).
Proof.
  intros Ht Hlt Hr. unfold AddressBook.visit, record_valid in *.
  destruct (ContactRecord.birthday r) as [b|]; [|eexists; reflexivity].
  unfold bind, lift, ret. rewrite (next_birthday_total _ _ Ht Hr Hlt).
  cbv zeta. cbn [Ok].
  destruct (_ && _)%bool; [|eexists; reflexivity].
  assert (Hc : valid_date (spec_candidate today (Birthday.value b))).
  { eapply next_birthday_Ok; [exact Ht | exact Hr |].
    apply next_birthday_total; assumption. }
  destruct (congratulate_Ok _ Hc) as (c' & Ec & _). rewrite Ec.
  eexists. reflexivity.
Qed.

Lemma for_each_visit_Ok (today : Datetime.date) (book : AddressBook.t)
      (l : list ContactRecord.t) :
  valid_date today -> Forall record_valid l ->
  forall acc items,
    fst (for_each l (AddressBook.visit today) acc book) = Ok items ->
    exists new,
      items = app acc new
      /\ Forall2 (congratulated today) (filter (spec_upcoming today) l) new.
Proof.
  intros Ht Hl. induction Hl as [|r l Hr Hl IH]; intros acc items; simpl.
  - intros E. inversion E. exists []. rewrite app_nil_r. auto.
  - unfold bind.
    pose proof (visit_keeps_state today r acc book) as Hs.
    pose proof (fun acc' => visit_Ok today r acc acc' book Ht Hr) as Hv.
    destruct (AddressBook.visit today r acc book) as [[e|acc'] s];
      simpl in Hs; subst s; [discriminate|].
    specialize (Hv acc' eq_refl).
    intros E. apply IH in E as (new & -> & HF).
    destruct Hv as [[Hu ->]|(Hu & it & -> & Hc)]; rewrite Hu.
    + exists new. auto.
    + exists (it :: new). rewrite <- app_assoc. auto.
Qed.

Lemma for_each_visit_total (today : Datetime.date) (book : AddressBook.t)
      (l : list ContactRecord.t) :
  valid_date today -> Datetime.year today < Datetime.MAXYEAR ->
  Forall record_valid l ->
  forall acc, exists items,
    for_each l (AddressBook.visit today) acc book = (Ok items, book).
Proof.
  intros Ht Hlt Hl. induction Hl as [|r l Hr Hl IH]; intros acc; simpl.
  - eexists. reflexivity.
  - unfold bind. destruct (visit_total today r acc book Ht Hlt Hr) as [acc' E].
    rewrite E. apply IH.
Qed.

Lemma congratulated_names (today : Datetime.date)
      (l : list ContactRecord.t) (items : list AddressBook.item) :
  Forall2 (congratulated today) l items ->
  map AddressBook.item_name items
  = map (fun r => Name.value (ContactRecord.name r)) l.
Proof.
  induction 1 as [|r it l items (b & c' & _ & Hn & _) _ IH]; simpl;
    [reflexivity|].
  rewrite Hn, IH. reflexivity.
Qed.

(** C1, as the code has it: when the year of [today] is before 9999, the
    last year of [datetime], [get_upcoming_birthdays] returns, and the
    contacts of its items are, in the order of the book, the records with a
    birthday whose candidate is from 0 to 7 days after [today]; the
    candidate is the month and day of the birthday in the year of [today],
    with day 28 for the 29th of February when that year is not a leap year,
    and the same in the next year when that date is strictly before
    [today]; it is never before [today].  A birthday on 29.02 seen on
    25.02.2025 has the candidate 28.02.2025, 3 days later. *)
Theorem get_upcoming_birthdays_window
        (today : Datetime.date) (book : AddressBook.t)
        (Htoday : valid_date today)
        (Hyear : Datetime.year today < Datetime.MAXYEAR)
        (Hbook : book_valid book) :
  (exists items,
      AddressBook.get_upcoming_birthdays today book = (Ok items, book)
      /\ map AddressBook.item_name items
         = map (fun r => Name.value (ContactRecord.name r))
               (filter (spec_upcoming today) (AddressBook.values book)))
  /\ (forall r b,
         In r (AddressBook.values book) -> ContactRecord.birthday r = Some b ->
         AddressBook.next_birthday today (Birthday.value b)
         = Ok (spec_candidate today (Birthday.value b))
         /\ 0 <= Datetime.sub_days (spec_candidate today (Birthday.value b)) today)
  /\ AddressBook.next_birthday (Datetime.mkdate 2025 2 25) (Datetime.mkdate 2000 2 29)
     = Ok (Datetime.mkdate 2025 2 28)
  /\ Datetime.sub_days (Datetime.mkdate 2025 2 28) (Datetime.mkdate 2025 2 25) = 3.
Proof.
  split; [|split; [|split; reflexivity]];
    [|intros r b Hr Eb;
      assert (Hb : valid_date (Birthday.value b))
        by (unfold book_valid in Hbook; rewrite Forall_forall in Hbook;
            specialize (Hbook r Hr); unfold record_valid in Hbook;
            rewrite Eb in Hbook; exact Hbook);
      split; [apply next_birthday_total | apply spec_candidate_not_before];
      assumption].
  unfold AddressBook.get_upcoming_birthdays, bind, get. cbn [Ok].
  destruct (for_each_visit_total today book _ Htoday Hyear Hbook []) as [items E].
  exists items. split; [exact E|].
  pose proof (for_each_visit_Ok today book _ Htoday Hbook [] items) as H.
  rewrite E in H. destruct (H eq_refl) as (new & -> & HF).
  apply (congratulated_names today), HF.
Qed.

Lemma valid_date_compute (c : Datetime.date) :
  ((Datetime.MINYEAR <=? Datetime.year c) && (Datetime.year c <=? Datetime.MAXYEAR)
   && (1 <=? Datetime.month c) && (Datetime.month c <=? 12)
   && (1 <=? Datetime.day c)
   && (Datetime.day c <=? Datetime.days_in_month (Datetime.year c) (Datetime.month c)))%bool
  = true ->
  valid_date c.
Proof.
  intros H. repeat (apply andb_true_iff in H; destruct H as [H ?]).
  rewrite ?Z.leb_le in *. unfold valid_date, valid_ymd. lia.
Qed.

Lemma get_upcoming_birthdays_window_witness :
  (exists items,
      AddressBook.get_upcoming_birthdays (Datetime.mkdate 2025 2 25) book_february
      = (Ok items, book_february)
      /\ map AddressBook.item_name items
         = map (fun r => Name.value (ContactRecord.name r))
               (filter (spec_upcoming (Datetime.mkdate 2025 2 25))
                       (AddressBook.values book_february)))
  /\ (forall r b,
         In r (AddressBook.values book_february) ->
         ContactRecord.birthday r = Some b ->
         AddressBook.next_birthday (Datetime.mkdate 2025 2 25) (Birthday.value b)
         = Ok (spec_candidate (Datetime.mkdate 2025 2 25) (Birthday.value b))
         /\ 0 <= Datetime.sub_days
                   (spec_candidate (Datetime.mkdate 2025 2 25) (Birthday.value b))
                   (Datetime.mkdate 2025 2 25))
  /\ AddressBook.next_birthday (Datetime.mkdate 2025 2 25) (Datetime.mkdate 2000 2 29)
     = Ok (Datetime.mkdate 2025 2 28)
  /\ Datetime.sub_days (Datetime.mkdate 2025 2 28) (Datetime.mkdate 2025 2 25) = 3.
Proof.
  apply (get_upcoming_birthdays_window (Datetime.mkdate 2025 2 25) book_february).
  - apply valid_date_compute. reflexivity.
  - reflexivity.
  - repeat constructor; apply valid_date_compute; reflexivity.
Defined.

Example get_upcoming_birthdays_february :
  AddressBook.get_upcoming_birthdays (Datetime.mkdate 2025 2 25) book_february
  = (Ok [AddressBook.mkitem "Dee" "28.02.2025"], book_february).
Proof. reflexivity. Qed.

(** C1, as it is stated, fails on the last day of the year 9999: the
    candidate of a birthday on the 1st of January is one day later, in the
    window, and the code raises instead of including the contact, because
    the year 10000 is not a year of [datetime]. *)
Lemma get_upcoming_birthdays_year_9999 :
  valid_date (Datetime.mkdate 9999 12 31)
  /\ book_valid book_new_year
  /\ spec_candidate (Datetime.mkdate 9999 12 31) (Datetime.mkdate 2000 1 1)
     = Datetime.mkdate 10000 1 1
  /\ Datetime.sub_days (Datetime.mkdate 10000 1 1) (Datetime.mkdate 9999 12 31) = 1
  /\ spec_upcoming (Datetime.mkdate 9999 12 31) record_cid = true
  /\ AddressBook.get_upcoming_birthdays (Datetime.mkdate 9999 12 31) book_new_year
     = (Raise (ValueError (OutOfRange "year" 10000)), book_new_year).
Proof.
  split; [apply valid_date_compute; reflexivity|].
  split; [repeat constructor; apply valid_date_compute; reflexivity|].
  repeat split.
Qed.

(** C2, as the code has it: the item of every contact that
    [get_upcoming_birthdays] includes has the name of the contact and the
    rendering of the date that is 2 days after the candidate when the
    candidate is a Saturday, 1 day after it when it is a Sunday, and the
    candidate otherwise.  The year of that date is not before the year of
    [today], and from the year 1000 on the date is written as DD.MM.YYYY.
    The candidate 15.03.2025 is a Saturday and gives 17.03.2025. *)
Theorem get_upcoming_birthdays_congratulation_date
        (today : Datetime.date) (book : AddressBook.t)
        (items : list AddressBook.item)
        (Htoday : valid_date today) (Hbook : book_valid book)
        (Hreturns : fst (AddressBook.get_upcoming_birthdays today book) = Ok items) :
  Forall2 (congratulated today)
          (filter (spec_upcoming today) (AddressBook.values book)) items
  /\ Datetime.weekday (Datetime.mkdate 2025 3 15) = 5
  /\ weekend_shift (Datetime.mkdate 2025 3 15) = 2
  /\ rbind (AddressBook.congratulate (Datetime.mkdate 2025 3 15))
           (fun c => Ok (Datetime.strftime c))
     = Ok "17.03.2025".
Proof.
  split; [|repeat split].
  unfold AddressBook.get_upcoming_birthdays, bind, get in Hreturns.
  cbn [Ok] in Hreturns.
  destruct (for_each_visit_Ok today book _ Htoday Hbook [] items Hreturns)
    as (new & -> & HF).
  exact HF.
Qed.

Lemma get_upcoming_birthdays_congratulation_date_witness :
  Forall2 (congratulated (Datetime.mkdate 2025 3 10))
          (filter (spec_upcoming (Datetime.mkdate 2025 3 10))
                  (AddressBook.values book_march))
          [AddressBook.mkitem "Ann" "12.03.2025";
           AddressBook.mkitem "Bob" "17.03.2025"]
  /\ Datetime.weekday (Datetime.mkdate 2025 3 15) = 5
  /\ weekend_shift (Datetime.mkdate 2025 3 15) = 2
  /\ rbind (AddressBook.congratulate (Datetime.mkdate 2025 3 15))
           (fun c => Ok (Datetime.strftime c))
     = Ok "17.03.2025".
Proof.
  apply (get_upcoming_birthdays_congratulation_date
           (Datetime.mkdate 2025 3 10) book_march).
  - apply valid_date_compute. reflexivity.
  - repeat constructor; apply valid_date_compute; reflexivity.
  - reflexivity.
Defined.

(** C2, as it is stated, fails before the year 1000: on the 10th of March
    of the year 999 the dates of the items are [12.03.999] and [15.03.999],
    which are not DD.MM.YYYY. *)
Lemma get_upcoming_birthdays_year_999 :
  valid_date (Datetime.mkdate 999 3 10)
  /\ book_valid book_march
  /\ AddressBook.get_upcoming_birthdays (Datetime.mkdate 999 3 10) book_march
     = (Ok [AddressBook.mkitem "Ann" "12.03.999";
            AddressBook.mkitem "Bob" "15.03.999"], book_march)
  /\ ~ (exists y m d, strict_format "12.03.999" y m d)
  /\ ~ (exists y m d, strict_format "15.03.999" y m d).
Proof.
  split; [apply valid_date_compute; reflexivity|].
  split; [repeat constructor; apply valid_date_compute; reflexivity|].
  split; [reflexivity|].
  split; intros (y & m & d & H); apply strict_format_length in H; discriminate H.
Qed.

Example get_upcoming_birthdays_march :
  AddressBook.get_upcoming_birthdays (Datetime.mkdate 2025 3 10) book_march
  = (Ok [AddressBook.mkitem "Ann" "12.03.2025";
         AddressBook.mkitem "Bob" "17.03.2025"], book_march).
Proof. reflexivity. Qed.

(** ** The rendering of a record *)

Lemma concat_phones_segment (l : list string) :
  String.concat "; " l = phones_segment l.
Proof.
  destruct l as [|p l]; [reflexivity|]. revert p.
  induction l as [|q l IH]; intros p.
  - simpl. rewrite append_empty_r. reflexivity.
  - change (String.concat "; " (p :: q :: l))
      with (p ++ "; " ++ String.concat "; " (q :: l)).
    rewrite IH. reflexivity.
Qed.

(** C8, as the code has it: a record renders as
    "Contact name: <name>, phones: " followed by its phones with "; "
    between them and, when it has a birthday, by ", birthday: " and the
    rendering of the birthday, which is DD.MM.YYYY from the year 1000 on.
    Without phones nothing stands for them, and without a birthday nothing
    follows the phones. *)
Theorem ContactRecord_str_rendering (r : ContactRecord.t) :
  ContactRecord.str r
  = "Contact name: " ++ Name.value (ContactRecord.name r) ++ ", phones: "
      ++ phones_segment (map Phone.value (ContactRecord.phones r))
      ++ match ContactRecord.birthday r with
         | Some b => ", birthday: " ++ Birthday.str b
         | None => EmptyString
         end
  /\ (forall b,
         ContactRecord.birthday r = Some b -> valid_date (Birthday.value b) ->
         1000 <= Datetime.year (Birthday.value b) ->
         strict_format (Birthday.str b)
                       (Datetime.year (Birthday.value b))
                       (Datetime.month (Birthday.value b))
                       (Datetime.day (Birthday.value b)))
  /\ (ContactRecord.phones r = [] -> ContactRecord.birthday r = None ->
      ContactRecord.str r
      = "Contact name: " ++ Name.value (ContactRecord.name r) ++ ", phones: ")
  /\ (ContactRecord.birthday r = None ->
      ContactRecord.str r
      = "Contact name: " ++ Name.value (ContactRecord.name r) ++ ", phones: "
          ++ phones_segment (map Phone.value (ContactRecord.phones r))).
Proof.
  assert (E : ContactRecord.str r
  = "Contact name: " ++ Name.value (ContactRecord.name r) ++ ", phones: "
      ++ phones_segment (map Phone.value (ContactRecord.phones r))
      ++ match ContactRecord.birthday r with
         | Some b => ", birthday: " ++ Birthday.str b
         | None => EmptyString
         end).
  { unfold ContactRecord.str. cbv zeta. rewrite concat_phones_segment.
    rewrite !append_assoc. reflexivity. }
  split; [exact E|]. split; [|split].
  - intros b _ Hb Hk. apply strftime_is_strict; assumption.
  - intros Hp Hb. rewrite E, Hp, Hb. reflexivity.
  - intros Hb. rewrite E, Hb. rewrite append_empty_r. reflexivity.
Qed.

(** C8, as it is stated, fails before the year 1000: the birthday
    [02.03.0999], which [add_birthday] takes, renders as [02.03.999]. *)
Lemma ContactRecord_str_year_999 :
  ContactRecord.add_birthday "02.03.0999" (contact "Zed" [] None)
  = (Ok tt, contact "Zed" [] (Some (Datetime.mkdate 999 3 2)))
  /\ valid_date (Datetime.mkdate 999 3 2)
  /\ ContactRecord.str (contact "Zed" [] (Some (Datetime.mkdate 999 3 2)))
     = "Contact name: Zed, phones: , birthday: 02.03.999"
  /\ ~ (exists y m d, strict_format "02.03.999" y m d).
Proof.
  split; [reflexivity|].
  split; [apply valid_date_compute; reflexivity|].
  split; [reflexivity|].
  intros (y & m & d & H). apply strict_format_length in H. discriminate H.
Qed.

Example ContactRecord_str_ann :
  ContactRecord.str record_ann
  = "Contact name: Ann, phones: 0501234567; 0670000000, birthday: 12.03.2025".
Proof. reflexivity. Qed.

Example ContactRecord_str_eve :
  ContactRecord.str record_eve = "Contact name: Eve, phones: ".
Proof. reflexivity. Qed.

(** * More of the program *)

(** ** Names *)

Lemma lstrip_spec (s : string) :
  exists pre,
    s = pre ++ Name.lstrip s /\ all_space pre = true
    /\ starts_with_space (Name.lstrip s) = false.
Proof.
  induction s as [|c s (pre & E & Hpre & Hs)]; simpl.
  - exists EmptyString. auto.
  - destruct (Name.is_space c) eqn:Ec.
    + exists (String c pre). simpl. rewrite Ec, Hpre, <- E. auto.
    + exists EmptyString. simpl. auto.
Qed.

Lemma rstrip_spec (s : string) :
  exists post,
    s = Name.rstrip s ++ post /\ all_space post = true
    /\ ends_with_space (Name.rstrip s) = false.
Proof.
  induction s as [|c s (post & E & Hpost & Hs)]; simpl.
  - exists EmptyString. auto.
  - destruct (Name.rstrip s) as [|a t] eqn:Er.
    + simpl in E. subst post. destruct (Name.is_space c) eqn:Ec.
      * exists (String c s). simpl. rewrite Ec, Hpost. auto.
      * exists s. simpl. rewrite Ec. auto.
    + exists post. simpl. rewrite E at 1. simpl. auto.
Qed.

Lemma rstrip_start (s : string) :
  starts_with_space s = false -> starts_with_space (Name.rstrip s) = false.
Proof.
  destruct s as [|c s]; simpl; [auto|]. intros Ec.
  destruct (Name.rstrip s); [rewrite Ec|]; simpl; auto.
Qed.

Lemma all_space_append (a b : string) :
  all_space (a ++ b) = all_space a && all_space b.
Proof.
  induction a as [|c a IH]; simpl; [reflexivity|].
  rewrite IH, andb_assoc. reflexivity.
Qed.

Lemma rstrip_all_space (s : string) :
  all_space s = true -> Name.rstrip s = EmptyString.
Proof.
  induction s as [|c s IH]; simpl; [reflexivity|].
  intros H. apply andb_true_iff in H as [Hc Hs].
  rewrite (IH Hs), Hc. reflexivity.
Qed.

Lemma rstrip_trimmed (s : string) :
  ends_with_space s = false -> Name.rstrip s = s.
Proof.
  induction s as [|c s IH]; simpl; [reflexivity|].
  destruct s as [|a t].
  - intros Ec. simpl. rewrite Ec. reflexivity.
  - intros H. rewrite (IH H). reflexivity.
Qed.

Lemma lstrip_trimmed (s : string) :
  starts_with_space s = false -> Name.lstrip s = s.
Proof.
  destruct s as [|c s]; simpl; [reflexivity|]. intros Ec. rewrite Ec. reflexivity.
Qed.

Lemma Name_init_blank (v : string) :
  all_space v = true -> Name.init v = Raise (ValueError (Text "Name is required")).
Proof.
  unfold Name.init, Name.strip. intros H.
  destruct (lstrip_spec v) as (pre & E & Hpre & Hstart).
  rewrite E, all_space_append in H.
  apply andb_true_iff in H as [_ H]. rewrite (rstrip_all_space _ H). reflexivity.
Qed.

Lemma Name_init_not_blank (v : string) :
  all_space v = false ->
  exists n pre post,
    Name.init v = Ok n
    /\ v = pre ++ Name.value n ++ post
    /\ all_space pre = true /\ all_space post = true
    /\ trimmed (Name.value n).
Proof.
  unfold Name.init, Name.strip. intros H.
  destruct (lstrip_spec v) as (pre & E & Hpre & Hstart).
  destruct (rstrip_spec (Name.lstrip v)) as (post & E' & Hpost & Hend).
  pose proof (rstrip_start _ Hstart) as Hstart'.
  destruct (Name.rstrip (Name.lstrip v)) as [|c t] eqn:Er.
  - simpl in E'. rewrite E, all_space_append, E', Hpre, Hpost in H. discriminate.
  - exists (Name.mk (String c t)), pre, post. simpl.
    repeat split; try assumption; [|discriminate].
    rewrite E at 1. rewrite E' at 1. reflexivity.
Qed.

Lemma Name_init_trimmed (v : string) : trimmed v -> Name.init v = Ok (Name.mk v).
Proof.
  unfold Name.init, Name.strip. intros (Hne & Hs & He).
  rewrite (lstrip_trimmed v Hs), (rstrip_trimmed v He).
  destruct v; [contradiction | reflexivity].
Qed.

(** X1: [Name(value)] raises "Name is required" exactly when [value] is
    white space only; otherwise it stores [value] without the white space
    at its two ends and nothing else changed, and a value that is already
    trimmed is stored as it is. *)
Theorem Name_init_trims (v : string) :
  (all_space v = true ->
   Name.init v = Raise (ValueError (Text "Name is required")))
  /\ (all_space v = false ->
      exists n pre post,
        Name.init v = Ok n
        /\ v = pre ++ Name.value n ++ post
        /\ all_space pre = true /\ all_space post = true
        /\ trimmed (Name.value n))
  /\ (trimmed v -> Name.init v = Ok (Name.mk v)).
Proof.
  split; [|split].
  - apply Name_init_blank.
  - apply Name_init_not_blank.
  - apply Name_init_trimmed.
Qed.

(** ** The phones of a record *)

Lemma length_string_of_list_ascii (l : list ascii) :
  String.length (string_of_list_ascii l) = List.length l.
Proof. induction l as [|c l IH]; simpl; [reflexivity | rewrite IH; reflexivity]. Qed.

Lemma Phone_init_Ok_ten_digits (s : string) (p : Phone.t) :
  Phone.init s = Ok p ->
  ten_digits (Phone.value p) /\ Phone.value p = Re.sub_nondigits s.
Proof.
  rewrite Phone_init_eq.
  destruct (Nat.eqb_spec (List.length (filter Re.is_digit (list_ascii_of_string s))) 10)
    as [H|H]; [|discriminate].
  intros E. inversion E. simpl. unfold ten_digits.
  rewrite length_string_of_list_ascii, list_ascii_of_string_of_list_ascii,
    forallb_filter, sub_nondigits_filter.
  auto.
Qed.

Lemma sub_nondigits_digits (s : string) :
  forallb Re.is_digit (list_ascii_of_string s) = true -> Re.sub_nondigits s = s.
Proof.
  induction s as [|c s IH]; simpl; [reflexivity|].
  intros H. apply andb_true_iff in H as [Hc Hs]. rewrite Hc, (IH Hs). reflexivity.
Qed.

Lemma filter_all {X : Type} (p : X -> bool) (l : list X) :
  forallb p l = true -> filter p l = l.
Proof.
  induction l as [|x l IH]; simpl; [reflexivity|].
  intros H. apply andb_true_iff in H as [Hx Hl]. rewrite Hx, (IH Hl). reflexivity.
Qed.

Lemma length_list_ascii_of_string (s : string) :
  List.length (list_ascii_of_string s) = String.length s.
Proof. induction s as [|c s IH]; simpl; [reflexivity | rewrite IH; reflexivity]. Qed.

(** A stored phone is a phone: validating it again gives it back. *)
Lemma Phone_init_ten_digits_id (v : string) :
  ten_digits v -> Phone.init v = Ok (Phone.mk v).
Proof.
  intros [Hlen Hall]. rewrite Phone_init_eq, (filter_all _ _ Hall).
  rewrite length_list_ascii_of_string, Hlen, string_of_list_ascii_of_string.
  reflexivity.
Qed.

Lemma first_index_spec (cleaned : string) (l : list Phone.t) (i : nat) :
  ContactRecord.first_index cleaned l = Some i
  <-> nth_error (map Phone.value l) i = Some cleaned
      /\ forall j, (j < i)%nat -> nth_error (map Phone.value l) j <> Some cleaned.
Proof.
  revert i. induction l as [|p l IH]; intros i; simpl.
  - split; [discriminate|]. intros [H _]. destruct i; discriminate.
  - destruct (String.eqb_spec (Phone.value p) cleaned) as [E|E].
    + split.
      * intros H. inversion H. subst i. simpl. split; [congruence|].
        intros j Hj. inversion Hj.
      * intros [H Hmin]. destruct i as [|i]; [reflexivity|].
        exfalso. apply (Hmin O); [apply Nat.lt_0_succ|]. simpl. congruence.
    + destruct (ContactRecord.first_index cleaned l) as [k|] eqn:Ek; simpl.
      * split.
        -- intros H. inversion H. subst i. simpl.
           destruct (proj1 (IH k) eq_refl) as [Hk Hmin]. split; [exact Hk|].
           intros [|j] Hj; simpl; [congruence|].
           apply Hmin. apply Nat.succ_lt_mono. exact Hj.
        -- intros [H Hmin]. destruct i as [|i]; simpl in H; [congruence|].
           f_equal. f_equal. symmetry.
           assert (Hi : Some k = Some i); [|congruence].
           apply IH. split; [exact H|].
           intros j Hj. apply (Hmin (S j)). apply -> Nat.succ_lt_mono. exact Hj.
      * split; [discriminate|]. intros [H Hmin].
        destruct i as [|i]; simpl in H; [congruence|].
        assert (Hi : None = Some i); [|discriminate].
        apply IH. split; [exact H|].
        intros j Hj. apply (Hmin (S j)). apply -> Nat.succ_lt_mono. exact Hj.
Qed.

(** X2: [find_phone] never fails and leaves the record as it is; it finds
    the phone at position [i] exactly when [i] is the first position whose
    value is the query without its characters that are not digits. *)
Theorem find_phone_first_match (r : ContactRecord.t) (raw : string) :
  snd (ContactRecord.find_phone raw r) = r
  /\ (exists found, fst (ContactRecord.find_phone raw r) = Ok found)
  /\ forall i,
      fst (ContactRecord.find_phone raw r) = Ok (Some i)
      <-> nth_error (map Phone.value (ContactRecord.phones r)) i
          = Some (Re.sub_nondigits raw)
          /\ forall j, (j < i)%nat ->
                       nth_error (map Phone.value (ContactRecord.phones r)) j
                       <> Some (Re.sub_nondigits raw).
Proof.
  unfold ContactRecord.find_phone, bind, get, ret. simpl.
  split; [reflexivity|]. split; [eexists; reflexivity|].
  intros i. rewrite <- first_index_spec. unfold Ok.
  split; intros H; [inversion H; reflexivity | rewrite H; reflexivity].
Qed.

Lemma first_index_split (cleaned : string) (l1 l2 : list Phone.t) (p : Phone.t) :
  Phone.value p = cleaned -> ~ In cleaned (map Phone.value l1) ->
  ContactRecord.first_index cleaned (l1 ++ p :: l2)%list = Some (List.length l1).
Proof.
  intros Hp. induction l1 as [|q l1 IH]; simpl; intros Hn.
  - rewrite Hp, String.eqb_refl. reflexivity.
  - destruct (String.eqb_spec (Phone.value q) cleaned) as [E|E].
    + exfalso. apply Hn. left. exact E.
    + rewrite IH; [reflexivity|]. intros H. apply Hn. right. exact H.
Qed.

Lemma remove_at_split (l1 l2 : list Phone.t) (p : Phone.t) :
  ContactRecord.remove_at (List.length l1) (l1 ++ p :: l2)%list = (l1 ++ l2)%list.
Proof. induction l1 as [|q l1 IH]; simpl; [reflexivity | rewrite IH; reflexivity]. Qed.

Lemma set_value_at_split (l1 l2 : list Phone.t) (p : Phone.t) (v : string) :
  ContactRecord.set_value_at (List.length l1) v (l1 ++ p :: l2)%list
  = (l1 ++ Phone.mk v :: l2)%list.
Proof. induction l1 as [|q l1 IH]; simpl; [reflexivity | rewrite IH; reflexivity]. Qed.

(** X3: [remove_phone] takes out the first phone whose value is the
    digits of the query, and only that one: the phones before it and after
    it stay, in their order, and so do the name and the birthday. *)
Theorem remove_phone_removes_first
        (r : ContactRecord.t) (raw : string) (l1 l2 : list Phone.t) (p : Phone.t)
        (Hphones : ContactRecord.phones r = (l1 ++ p :: l2)%list)
        (Hp : Phone.value p = Re.sub_nondigits raw)
        (Hfirst : ~ In (Re.sub_nondigits raw) (map Phone.value l1)) :
  ContactRecord.remove_phone raw r
  = (Ok tt,
     ContactRecord.mk (ContactRecord.name r) (l1 ++ l2) (ContactRecord.birthday r)).
Proof.
  unfold ContactRecord.remove_phone, ContactRecord.find_phone, bind, get, ret, modify.
  simpl. rewrite Hphones, (first_index_split _ l1 l2 p Hp Hfirst).
  unfold ContactRecord.set_phones. rewrite Hphones, remove_at_split. reflexivity.
Qed.

Lemma remove_phone_removes_first_witness :
  ContactRecord.remove_phone "(067) 000-00-00"
    (contact "Ann" ["0501234567"; "0670000000"; "0670000000"] None)
  = (Ok tt, contact "Ann" ["0501234567"; "0670000000"] None).
Proof.
  apply (remove_phone_removes_first
           (contact "Ann" ["0501234567"; "0670000000"; "0670000000"] None)
           "(067) 000-00-00" [Phone.mk "0501234567"] [Phone.mk "0670000000"]
           (Phone.mk "0670000000")).
  - reflexivity.
  - reflexivity.
  - simpl. intros [H|[]]. discriminate H.
Defined.

(** X4: with a valid new phone, [edit_phone] puts the ten digits of the
    new phone in the place of the first phone whose value is the digits of
    the old one; the other phones, their order, the name and the birthday
    stay. *)
Theorem edit_phone_replaces_first
        (r : ContactRecord.t) (old_phone new_phone : string)
        (l1 l2 : list Phone.t) (p : Phone.t)
        (Hphones : ContactRecord.phones r = (l1 ++ p :: l2)%list)
        (Hp : Phone.value p = Re.sub_nondigits old_phone)
        (Hfirst : ~ In (Re.sub_nondigits old_phone) (map Phone.value l1))
        (Hnew : List.length (filter Re.is_digit (list_ascii_of_string new_phone))
                = 10%nat) :
  ContactRecord.edit_phone old_phone new_phone r
  = (Ok tt,
     ContactRecord.mk (ContactRecord.name r)
                      (l1 ++ Phone.mk (Re.sub_nondigits new_phone) :: l2)
                      (ContactRecord.birthday r))
  /\ ten_digits (Re.sub_nondigits new_phone).
Proof.
  assert (E : Phone.init new_phone = Ok (Phone.mk (Re.sub_nondigits new_phone))).
  { rewrite Phone_init_eq, Hnew, sub_nondigits_filter. reflexivity. }
  split; [|apply (Phone_init_Ok_ten_digits _ _ E)].
  unfold ContactRecord.edit_phone, ContactRecord.find_phone, bind, get, ret,
    modify, lift.
  simpl. rewrite Hphones, (first_index_split _ l1 l2 p Hp Hfirst), E.
  unfold ContactRecord.set_phones. cbn [Ok Phone.value].
  rewrite Hphones, set_value_at_split. reflexivity.
Qed.

Lemma edit_phone_replaces_first_witness :
  ContactRecord.edit_phone "067 000 00 00" "099-765-43-21" record_ann
  = (Ok tt,
     ContactRecord.mk (ContactRecord.name record_ann)
                      ([Phone.mk "0501234567"]
                         ++ Phone.mk (Re.sub_nondigits "099-765-43-21") :: [])
                      (ContactRecord.birthday record_ann))
  /\ ten_digits (Re.sub_nondigits "099-765-43-21").
Proof.
  apply (edit_phone_replaces_first record_ann "067 000 00 00" "099-765-43-21"
           [Phone.mk "0501234567"] [] (Phone.mk "0670000000")).
  - reflexivity.
  - reflexivity.
  - simpl. intros [H|[]]. discriminate H.
  - reflexivity.
Defined.

(** X5: [add_phone] with a phone of ten digits puts these digits at the
    end of the phones, also when the record has them already, and
    [find_phone] with the same text then finds a phone; with any other
    phone it raises the [ValueError] of [Phone] and the record is as
    before. *)
Theorem add_phone_appends (r : ContactRecord.t) (raw : string) :
  (List.length (filter Re.is_digit (list_ascii_of_string raw)) = 10%nat ->
   let r' := ContactRecord.mk (ContactRecord.name r)
               (ContactRecord.phones r ++ [Phone.mk (Re.sub_nondigits raw)])
               (ContactRecord.birthday r) in
   ContactRecord.add_phone raw r = (Ok tt, r')
   /\ ten_digits (Re.sub_nondigits raw)
   /\ exists i, ContactRecord.find_phone raw r' = (Ok (Some i), r'))
  /\ (List.length (filter Re.is_digit (list_ascii_of_string raw)) <> 10%nat ->
      ContactRecord.add_phone raw r
      = (Raise (ValueError (Text "Phone number must contain exactly 10 digits")), r)).
Proof.
  unfold ContactRecord.add_phone, bind, lift, modify. split; intros H.
  - assert (E : Phone.init raw = Ok (Phone.mk (Re.sub_nondigits raw)))
      by (rewrite Phone_init_eq, H, sub_nondigits_filter; reflexivity).
    rewrite E. cbv zeta. split; [reflexivity|].
    split; [apply (Phone_init_Ok_ten_digits _ _ E)|].
    unfold ContactRecord.find_phone, bind, get, ret. cbn [Ok ContactRecord.phones].
    destruct (first_index_In (Re.sub_nondigits raw)
                (ContactRecord.phones r ++ [Phone.mk (Re.sub_nondigits raw)]))
      as [i Hi].
    { rewrite map_app. apply in_or_app. right. left. reflexivity. }
    exists i. rewrite Hi. reflexivity.
  - rewrite Phone_init_eq. apply Nat.eqb_neq in H. rewrite H. reflexivity.
Qed.

Example add_phone_twice :
  snd (ContactRecord.add_phone "050 123 45 67"
         (snd (ContactRecord.add_phone "0501234567" record_eve)))
  = contact "Eve" ["0501234567"; "0501234567"] None.
Proof. reflexivity. Qed.

(** ** Birthdays of a record *)

Lemma Birthday_init_valid (raw : string) (b : Birthday.t) :
  Birthday.init raw = Ok b -> valid_date (Birthday.value b).
Proof.
  intros H. apply Birthday_init_Ok, strptime_Ok in H as (y & m & d & _ & V & E).
  rewrite E. exact V.
Qed.



Example Birthday_str_year_999_not_read_back :
  Birthday.init "1.1.0999" = Ok (Birthday.mk (Datetime.mkdate 999 1 1))
  /\ Birthday.str (Birthday.mk (Datetime.mkdate 999 1 1)) = "01.01.999"
  /\ Birthday.init "01.01.999"
     = Raise (ValueError
                (Prefixed "Invalid date format. Use DD.MM.YYYY. Error: "
                          (TimeDataMismatch "01.01.999" "%d.%m.%Y"))).
Proof. repeat split. Qed.

Lemma add_birthday_Ok (r : ContactRecord.t) (raw : string) (b : Birthday.t) :
  Birthday.init raw = Ok b ->
  ContactRecord.add_birthday raw r
  = (Ok tt,
     ContactRecord.mk (ContactRecord.name r) (ContactRecord.phones r) (Some b)).
Proof.
  intros E. unfold ContactRecord.add_birthday, bind, lift, modify.
  rewrite E. reflexivity.
Qed.

Lemma add_birthday_Raise (r : ContactRecord.t) (raw : string) (e : exn) :
  Birthday.init raw = Raise e -> ContactRecord.add_birthday raw r = (Raise e, r).
Proof.
  intros E. unfold ContactRecord.add_birthday, bind, lift, modify.
  rewrite E. reflexivity.
Qed.

(** X7: [add_birthday] with a text that the parser takes and whose numbers
    are the date [d.m.y] sets the birthday to that date, in the place of
    any birthday the record had, and keeps the name and the phones.  With
    any other text the parser raises, and [add_birthday] raises the
    [ValueError] with the message of the parser - the number that is out
    of range, the text that is left after the year, or the text that the
    parser does not take - and the record is as before. *)
Theorem add_birthday_sets_or_keeps (r : ContactRecord.t) (raw : string) :
  (forall y m d,
      accepted_format raw y m d -> valid_ymd y m d ->
      ContactRecord.add_birthday raw r
      = (Ok tt,
         ContactRecord.mk (ContactRecord.name r) (ContactRecord.phones r)
                          (Some (Birthday.mk (Datetime.mkdate y m d)))))
  /\ (~ (exists y m d, accepted_format raw y m d /\ valid_ymd y m d) ->
      exists e, Datetime.strptime raw = Raise (ValueError e))
  /\ (forall e,
         Datetime.strptime raw = Raise (ValueError e) ->
         ContactRecord.add_birthday raw r
         = (Raise (ValueError
                     (Prefixed "Invalid date format. Use DD.MM.YYYY. Error: " e)),
            r))
  /\ (forall y m d,
         accepted_format raw y m d -> ~ valid_ymd y m d ->
         ContactRecord.add_birthday raw r
         = (Raise (ValueError
                     (Prefixed "Invalid date format. Use DD.MM.YYYY. Error: "
                               (if y =? 0 then OutOfRange "year" 0
                                else OutOfRange "day" d))),
            r))
  /\ (forall D Mo Y rest y m d,
         raw = D ++ "." ++ Mo ++ "." ++ Y ++ rest ->
         day_text D d -> month_text Mo m -> year_text Y y ->
         rest <> EmptyString ->
         ContactRecord.add_birthday raw r
         = (Raise (ValueError
                     (Prefixed "Invalid date format. Use DD.MM.YYYY. Error: "
                               (UnconvertedData rest))),
            r))
  /\ (~ (exists D Mo Y rest y m d,
            raw = D ++ "." ++ Mo ++ "." ++ Y ++ rest
            /\ day_text D d /\ month_text Mo m /\ year_text Y y) ->
      ContactRecord.add_birthday raw r
      = (Raise (ValueError
                  (Prefixed "Invalid date format. Use DD.MM.YYYY. Error: "
                            (TimeDataMismatch raw "%d.%m.%Y"))),
         r)).
Proof.
  split; [|split; [|split; [|split; [|split]]]].
  - intros y m d F V. apply add_birthday_Ok, Birthday_init_date; assumption.
  - intros H.
    destruct (strptime_raises_ValueError raw) as [[x E]|[e E]].
    + exfalso. apply H. apply strptime_Ok in E as (y & m & d & F & V & _).
      exists y, m, d. auto.
    + exists e. exact E.
  - intros e E. apply add_birthday_Raise, Birthday_init_Raise, E.
  - intros y m d F V. apply add_birthday_Raise, Birthday_init_Raise.
    apply (strptime_out_of_range _ y m d F V).
  - intros D Mo Y rest y m d -> FD FM FY Hrest.
    apply add_birthday_Raise, Birthday_init_Raise.
    eapply strptime_unconverted; eassumption.
  - intros H. apply add_birthday_Raise, Birthday_init_Raise, strptime_mismatch, H.
Qed.

Example add_birthday_overwrites :
  ContactRecord.add_birthday "5.7.1999" record_ann
  = (Ok tt, contact "Ann" ["0501234567"; "0670000000"] (Some (Datetime.mkdate 1999 7 5))).
Proof. reflexivity. Qed.

Example add_birthday_invalid :
  ContactRecord.add_birthday "31.04.2024" record_ann
  = (Raise (ValueError (Prefixed "Invalid date format. Use DD.MM.YYYY. Error: "
                                 (OutOfRange "day" 31))),
     record_ann).
Proof. reflexivity. Qed.

(** ** Well-formed records *)

Lemma remove_at_Forall (P : Phone.t -> Prop) (i : nat) (l : list Phone.t) :
  Forall P l -> Forall P (ContactRecord.remove_at i l).
Proof.
  intros H. revert i.
  induction H as [|p l Hp Hl IH]; intros [|i]; simpl; try constructor; auto.
Qed.

Lemma set_value_at_Forall (P : Phone.t -> Prop) (i : nat) (v : string)
      (l : list Phone.t) :
  P (Phone.mk v) -> Forall P l -> Forall P (ContactRecord.set_value_at i v l).
Proof.
  intros Hv H. revert i.
  induction H as [|p l Hp Hl IH]; intros [|i]; simpl; try constructor; auto.
Qed.

Lemma add_phone_wf (r : ContactRecord.t) (a : string) :
  record_wf r -> record_wf (snd (ContactRecord.add_phone a r)).
Proof.
  intros Hwf. pose proof Hwf as (Hn & Hp & Hb). unfold ContactRecord.add_phone, bind, lift, modify.
  destruct (Phone.init a) as [e|p] eqn:Ea; cbn [snd]; [exact Hwf|].
  split; [exact Hn|]. split; [|exact Hb].
  cbn [ContactRecord.set_phones ContactRecord.phones].
  apply Forall_app. split; [exact Hp|]. constructor; [|constructor].
  apply (Phone_init_Ok_ten_digits _ _ Ea).
Qed.

Lemma remove_phone_wf (r : ContactRecord.t) (a : string) :
  record_wf r -> record_wf (snd (ContactRecord.remove_phone a r)).
Proof.
  intros Hwf. pose proof Hwf as (Hn & Hp & Hb).
  unfold ContactRecord.remove_phone, ContactRecord.find_phone, bind, get, ret,
    modify, raise.
  cbn [Ok]. destruct (ContactRecord.first_index _ _) as [i|]; cbn [snd];
    [|exact Hwf].
  split; [exact Hn|]. split; [|exact Hb].
  cbn [ContactRecord.set_phones ContactRecord.phones].
  apply remove_at_Forall, Hp.
Qed.

Lemma edit_phone_wf (r : ContactRecord.t) (a b : string) :
  record_wf r -> record_wf (snd (ContactRecord.edit_phone a b r)).
Proof.
  intros Hwf. pose proof Hwf as (Hn & Hp & Hb).
  unfold ContactRecord.edit_phone, ContactRecord.find_phone, bind, get, ret,
    modify, raise, lift.
  cbn [Ok]. destruct (ContactRecord.first_index _ _) as [i|]; cbn [snd];
    [|exact Hwf].
  destruct (Phone.init b) as [e|p] eqn:Eb; cbn [snd]; [exact Hwf|].
  split; [exact Hn|]. split; [|exact Hb].
  cbn [ContactRecord.set_phones ContactRecord.phones].
  apply set_value_at_Forall; [|exact Hp].
  apply (Phone_init_Ok_ten_digits _ _ Eb).
Qed.

Lemma add_birthday_wf (r : ContactRecord.t) (a : string) :
  record_wf r -> record_wf (snd (ContactRecord.add_birthday a r)).
Proof.
  intros Hwf. pose proof Hwf as (Hn & Hp & Hb). unfold ContactRecord.add_birthday, bind, lift, modify.
  destruct (Birthday.init a) as [e|b] eqn:Ea; cbn [snd]; [exact Hwf|].
  split; [exact Hn|]. split; [exact Hp|].
  unfold record_valid. cbn [ContactRecord.set_birthday ContactRecord.birthday].
  apply (Birthday_init_valid _ _ Ea).
Qed.

Lemma init_wf (n : string) (r : ContactRecord.t) :
  ContactRecord.init n = Ok r -> record_wf r.
Proof.
  unfold ContactRecord.init, rbind.
  destruct (all_space n) eqn:En.
  - rewrite (Name_init_blank n En). discriminate.
  - destruct (Name_init_not_blank n En)
      as (nm & pre & post & E & _ & _ & _ & T).
    rewrite E. intros H. inversion H.
    split; [exact T|]. split; [constructor | exact I].
Qed.

(** X8: a record that [Record(name)] has built and the methods have
    changed is well formed: its name is not empty and has no white space at
    its ends, each of its phones is ten digits, and its birthday is a date
    of the calendar.  No method breaks this, whether it returns or
    raises. *)
Theorem record_methods_keep_wf :
  (forall n r, ContactRecord.init n = Ok r -> record_wf r)
  /\ forall r, record_wf r ->
       forall a b : string,
         record_wf (snd (ContactRecord.add_phone a r))
         /\ record_wf (snd (ContactRecord.remove_phone a r))
         /\ record_wf (snd (ContactRecord.edit_phone a b r))
         /\ record_wf (snd (ContactRecord.add_birthday a r)).
Proof.
  split; [exact init_wf|]. intros r Hr a b.
  split; [apply add_phone_wf, Hr|]. split; [apply remove_phone_wf, Hr|].
  split; [apply edit_phone_wf, Hr | apply add_birthday_wf, Hr].
Qed.

(** ** The dictionary of the book *)

Lemma dict_get_set_other (key k : string) (v : ContactRecord.t) (data : AddressBook.t) :
  k <> key ->
  AddressBook.dict_get k (AddressBook.dict_set key v data)
  = AddressBook.dict_get k data.
Proof.
  intros Hk. induction data as [|[k' v'] data IH]; simpl.
  - destruct (String.eqb_spec key k); [congruence | reflexivity].
  - destruct (String.eqb_spec k' key) as [E|E]; simpl.
    + subst k'. destruct (String.eqb_spec key k); [congruence | reflexivity].
    + rewrite IH. reflexivity.
Qed.

Lemma dict_get_None (key : string) (data : AddressBook.t) :
  AddressBook.dict_get key data = None <-> ~ In key (map fst data).
Proof.
  induction data as [|[k v] data IH]; simpl.
  - split; auto.
  - destruct (String.eqb_spec k key) as [E|E].
    + split; [discriminate|]. intros H. exfalso. apply H. left. exact E.
    + rewrite IH. split; [intros H [H'|H']; auto | intros H H'; apply H; auto].
Qed.

Lemma dict_get_In (key : string) (v : ContactRecord.t) (data : AddressBook.t) :
  AddressBook.dict_get key data = Some v -> In (key, v) data.
Proof.
  induction data as [|[k v'] data IH]; simpl; [discriminate|].
  destruct (String.eqb_spec k key) as [E|E].
  - intros H. inversion H. subst. left. reflexivity.
  - intros H. right. apply IH, H.
Qed.

Lemma dict_set_absent (key : string) (v : ContactRecord.t) (data : AddressBook.t) :
  AddressBook.dict_get key data = None ->
  AddressBook.dict_set key v data = (data ++ [(key, v)])%list.
Proof.
  induction data as [|[k v'] data IH]; simpl; [reflexivity|].
  destruct (String.eqb k key); [discriminate|]. intros H. rewrite (IH H). reflexivity.
Qed.

Lemma dict_set_keys_present (key : string) (v v0 : ContactRecord.t)
      (data : AddressBook.t) :
  AddressBook.dict_get key data = Some v0 ->
  map fst (AddressBook.dict_set key v data) = map fst data.
Proof.
  induction data as [|[k v'] data IH]; simpl; [discriminate|].
  destruct (String.eqb k key); simpl; [reflexivity|].
  intros H. rewrite (IH H). reflexivity.
Qed.

Lemma dict_set_same (key : string) (v : ContactRecord.t) (data : AddressBook.t) :
  AddressBook.dict_get key data = Some v -> AddressBook.dict_set key v data = data.
Proof.
  induction data as [|[k v'] data IH]; simpl; [discriminate|].
  destruct (String.eqb k key).
  - intros H. inversion H. reflexivity.
  - intros H. rewrite (IH H). reflexivity.
Qed.

Lemma dict_set_set (key : string) (v w : ContactRecord.t) (data : AddressBook.t) :
  AddressBook.dict_set key w (AddressBook.dict_set key v data)
  = AddressBook.dict_set key w data.
Proof.
  induction data as [|[k v'] data IH]; simpl.
  - rewrite String.eqb_refl. reflexivity.
  - destruct (String.eqb k key) eqn:E; simpl; rewrite E; [reflexivity|].
    rewrite IH. reflexivity.
Qed.

Lemma dict_del_absent (key : string) (data : AddressBook.t) :
  ~ In key (map fst data) -> AddressBook.dict_del key data = data.
Proof.
  induction data as [|[k v] data IH]; simpl; [reflexivity|].
  intros H. destruct (String.eqb_spec k key) as [E|E].
  - exfalso. apply H. left. exact E.
  - rewrite IH; [reflexivity|]. intros H'. apply H. right. exact H'.
Qed.

Lemma dict_del_keys (key k : string) (data : AddressBook.t) :
  In k (map fst (AddressBook.dict_del key data)) -> In k (map fst data).
Proof.
  induction data as [|[k' v] data IH]; simpl; [auto|].
  destruct (String.eqb k' key); simpl; [auto|].
  intros [H|H]; auto.
Qed.

Lemma dict_del_NoDup (key : string) (data : AddressBook.t) :
  NoDup (map fst data) ->
  NoDup (map fst (AddressBook.dict_del key data))
  /\ ~ In key (map fst (AddressBook.dict_del key data)).
Proof.
  induction data as [|[k v] data IH]; simpl; intros H.
  - split; [constructor | auto].
  - inversion H as [|? ? Hk Hd]. subst.
    destruct (String.eqb_spec k key) as [E|E]; simpl.
    + subst k. auto.
    + destruct (IH Hd) as [Hn Hi]. split.
      * constructor; [|exact Hn]. intros H'. apply Hk. eapply dict_del_keys, H'.
      * intros [H'|H']; auto.
Qed.

Lemma dict_get_del_other (key k : string) (data : AddressBook.t) :
  k <> key ->
  AddressBook.dict_get k (AddressBook.dict_del key data)
  = AddressBook.dict_get k data.
Proof.
  intros Hk. induction data as [|[k' v] data IH]; simpl; [reflexivity|].
  destruct (String.eqb_spec k' key) as [E|E]; simpl.
  - subst k'. destruct (String.eqb_spec key k); [congruence | reflexivity].
  - rewrite IH. reflexivity.
Qed.

Lemma dict_del_length (key : string) (v : ContactRecord.t) (data : AddressBook.t) :
  AddressBook.dict_get key data = Some v ->
  S (List.length (AddressBook.dict_del key data)) = List.length data.
Proof.
  induction data as [|[k v'] data IH]; simpl; [discriminate|].
  destruct (String.eqb k key); simpl; [reflexivity|].
  intros H. rewrite (IH H). reflexivity.
Qed.

Lemma dict_set_NoDup (key : string) (v : ContactRecord.t) (data : AddressBook.t) :
  NoDup (map fst data) -> NoDup (map fst (AddressBook.dict_set key v data)).
Proof.
  intros H. destruct (AddressBook.dict_get key data) as [v0|] eqn:E.
  - rewrite (dict_set_keys_present _ _ _ _ E). exact H.
  - rewrite (dict_set_absent _ _ _ E), map_app. simpl.
    apply dict_get_None in E.
    apply NoDup_app; [exact H | constructor; [auto | constructor] |].
    intros x Hx [Hx'|[]]. subst x. contradiction.
Qed.

Lemma dict_set_present (key : string) (v old : ContactRecord.t)
      (data : AddressBook.t) :
  AddressBook.dict_get key data = Some old ->
  exists l1 l2,
    data = (l1 ++ (key, old) :: l2)%list
    /\ ~ In key (map fst l1)
    /\ AddressBook.dict_set key v data = (l1 ++ (key, v) :: l2)%list.
Proof.
  induction data as [|[k v'] data IH]; simpl; [discriminate|].
  destruct (String.eqb k key) eqn:E.
  - intros H. inversion H; subst v'. apply String.eqb_eq in E. subst k.
    exists [], data. repeat split. intros [].
  - intros H. destruct (IH H) as (l1 & l2 & -> & Hn & ->).
    exists ((k, v') :: l1), l2. repeat split.
    apply String.eqb_neq in E. simpl. intros [C|C]; [exact (E C) | exact (Hn C)].
Qed.

(** X9: [add_record] never fails and stores the record under its name, so
    that [find] with that name returns it: a name that is new goes to the
    end of the book; a name that the book has keeps its place, before
    which the name does not occur, and gets the new record in the place of
    the old one, so the keys stay as they are; what [find] returns for any
    other name does not change. *)
Theorem add_record_frame (book : AddressBook.t) (record : ContactRecord.t) :
  let key := Name.value (ContactRecord.name record) in
  let book' := snd (AddressBook.add_record record book) in
  fst (AddressBook.add_record record book) = Ok tt
  /\ fst (AddressBook.find key book') = Ok (Some record)
  /\ (forall k, k <> key ->
                fst (AddressBook.find k book') = fst (AddressBook.find k book))
  /\ (fst (AddressBook.find key book) = Ok None ->
      book' = (book ++ [(key, record)])%list)
  /\ (forall old, fst (AddressBook.find key book) = Ok (Some old) ->
                  (exists l1 l2,
                      book = (l1 ++ (key, old) :: l2)%list
                      /\ ~ In key (map fst l1)
                      /\ book' = (l1 ++ (key, record) :: l2)%list)
                  /\ map fst book' = map fst book
                  /\ List.length book' = List.length book).
Proof.
  unfold AddressBook.add_record, AddressBook.find, modify, bind, get, ret.
  cbn [fst snd Ok]. split; [reflexivity|]. split; [|split; [|split]].
  - rewrite dict_get_set. reflexivity.
  - intros k Hk. rewrite dict_get_set_other by exact Hk. reflexivity.
  - intros H. apply dict_set_absent. inversion H. reflexivity.
  - intros old H. inversion H as [E].
    pose proof (dict_set_keys_present _ record _ _ E) as Hkeys.
    split; [apply dict_set_present, E|].
    split; [exact Hkeys|].
    rewrite <- (length_map fst), Hkeys, length_map. reflexivity.
Qed.

Example add_record_replaces_in_place :
  snd (AddressBook.add_record (contact "Bob" [] None) book_march)
  = [("Ann", record_ann); ("Bob", contact "Bob" [] None); ("Cid", record_cid)].
Proof. reflexivity. Qed.

(** X10: [delete] never fails.  With a name that the book does not have
    it changes nothing; with a name that it has, the book is one record
    shorter, [find] no longer finds the name, and what [find] returns for
    any other name does not change. *)
Theorem delete_removes (book : AddressBook.t) (n : string)
        (Hkeys : NoDup (map fst book)) :
  let book' := snd (AddressBook.delete n book) in
  fst (AddressBook.delete n book) = Ok tt
  /\ fst (AddressBook.find n book') = Ok None
  /\ (forall k, k <> n ->
                fst (AddressBook.find k book') = fst (AddressBook.find k book))
  /\ (fst (AddressBook.find n book) = Ok None -> book' = book)
  /\ (forall r, fst (AddressBook.find n book) = Ok (Some r) ->
                S (List.length book') = List.length book).
Proof.
  unfold AddressBook.delete, AddressBook.find, bind, get, ret, put.
  cbn [fst snd Ok].
  destruct (AddressBook.dict_get n book) as [r|] eqn:E; cbn [fst snd].
  - split; [reflexivity|]. split; [|split; [|split]].
    + f_equal. apply dict_get_None. apply dict_del_NoDup, Hkeys.
    + intros k Hk. rewrite dict_get_del_other by exact Hk. reflexivity.
    + discriminate.
    + intros r' _. apply (dict_del_length _ _ _ E).
  - split; [reflexivity|]. split; [rewrite E; reflexivity|].
    split; [reflexivity|]. split; [reflexivity | discriminate].
Qed.

Lemma delete_removes_witness :
  let book' := snd (AddressBook.delete "Bob" book_march) in
  fst (AddressBook.delete "Bob" book_march) = Ok tt
  /\ fst (AddressBook.find "Bob" book') = Ok None
  /\ (forall k, k <> "Bob" ->
                fst (AddressBook.find k book') = fst (AddressBook.find k book_march))
  /\ (fst (AddressBook.find "Bob" book_march) = Ok None -> book' = book_march)
  /\ (forall r, fst (AddressBook.find "Bob" book_march) = Ok (Some r) ->
                S (List.length book') = List.length book_march).
Proof.
  apply (delete_removes book_march "Bob").
  simpl. repeat constructor; simpl; intuition discriminate.
Defined.

(** X11: deleting the name of a record just added, when the book did not
    have that name, gives the book back. *)
Theorem delete_after_add_record (book : AddressBook.t) (record : ContactRecord.t)
        (Hnew : fst (AddressBook.find (Name.value (ContactRecord.name record)) book)
                = Ok None) :
  snd (AddressBook.delete (Name.value (ContactRecord.name record))
         (snd (AddressBook.add_record record book)))
  = book.
Proof.
  unfold AddressBook.find, bind, get, ret in Hnew. cbn [fst Ok] in Hnew.
  inversion Hnew as [E].
  unfold AddressBook.delete, AddressBook.add_record, modify, bind, get, ret, put.
  cbn [fst snd Ok]. rewrite dict_get_set. cbn [snd].
  rewrite (dict_set_absent _ _ _ E). clear Hnew.
  induction book as [|[k v] book IH]; simpl.
  - rewrite String.eqb_refl. reflexivity.
  - simpl in E. destruct (String.eqb k _); [discriminate|].
    rewrite (IH E). reflexivity.
Qed.

Lemma delete_after_add_record_witness :
  snd (AddressBook.delete (Name.value (ContactRecord.name record_dee))
         (snd (AddressBook.add_record record_dee book_march)))
  = book_march.
Proof. apply (delete_after_add_record book_march record_dee). reflexivity. Defined.

(** ** Well-formed books *)

Lemma dict_set_Forall (P : string * ContactRecord.t -> Prop) (key : string)
      (v : ContactRecord.t) (data : AddressBook.t) :
  P (key, v) -> Forall P data -> Forall P (AddressBook.dict_set key v data).
Proof.
  intros Hv H. induction H as [|[k v'] data Hx Hd IH]; simpl.
  - constructor; [exact Hv | constructor].
  - destruct (String.eqb_spec k key) as [E|E]; constructor; auto.
    subst k. exact Hv.
Qed.

Lemma dict_del_Forall (P : string * ContactRecord.t -> Prop) (key : string)
      (data : AddressBook.t) :
  Forall P data -> Forall P (AddressBook.dict_del key data).
Proof.
  intros H. induction H as [|[k v'] data Hx Hd IH]; simpl; [constructor|].
  destruct (String.eqb k key); [exact Hd | constructor; auto].
Qed.

Lemma book_wf_set (book : AddressBook.t) (r : ContactRecord.t) :
  book_wf book -> record_wf r ->
  book_wf (AddressBook.dict_set (Name.value (ContactRecord.name r)) r book).
Proof.
  intros [Hk Hr] Hwf. split.
  - apply dict_set_NoDup, Hk.
  - apply dict_set_Forall; [split; [reflexivity | exact Hwf] | exact Hr].
Qed.

Lemma book_wf_get (book : AddressBook.t) (key : string) (r : ContactRecord.t) :
  book_wf book -> AddressBook.dict_get key book = Some r ->
  key = Name.value (ContactRecord.name r) /\ record_wf r.
Proof.
  intros [_ Hr] E. apply dict_get_In in E.
  rewrite Forall_forall in Hr. apply (Hr _ E).
Qed.

(** X12: the operations of the book keep it well formed: no name is a key
    twice, every record is stored under its own name, and every record is
    well formed.  [add_record] with a well-formed record and [delete] keep
    this, and the empty book has it. *)
Theorem book_operations_keep_wf :
  book_wf []
  /\ forall book, book_wf book ->
       (forall record, record_wf record ->
                       book_wf (snd (AddressBook.add_record record book)))
       /\ (forall n, book_wf (snd (AddressBook.delete n book)))
       /\ (forall n r, fst (AddressBook.find n book) = Ok (Some r) ->
                       Name.value (ContactRecord.name r) = n /\ record_wf r).
Proof.
  split; [split; constructor|].
  intros book Hwf. split; [|split].
  - intros record Hr. apply book_wf_set; assumption.
  - intros n. unfold AddressBook.delete, bind, get, ret, put. cbn [Ok].
    destruct (AddressBook.dict_get n book); cbn [snd]; [|exact Hwf].
    destruct Hwf as [Hk Hr]. split.
    + apply dict_del_NoDup, Hk.
    + apply dict_del_Forall, Hr.
  - intros n r H. unfold AddressBook.find, bind, get, ret in H.
    cbn [fst Ok] in H. inversion H as [E].
    destruct (book_wf_get _ _ _ Hwf E) as [Hn Hr]. auto.
Qed.

(** ** Congratulation dates *)

(** X13: the congratulation date of a candidate is never a Saturday or a
    Sunday, and it is the candidate or at most two days later. *)
Theorem congratulate_never_weekend (c c' : Datetime.date)
        (Hc : valid_date c)
        (Hcongratulate : AddressBook.congratulate c = Ok c') :
  valid_date c'
  /\ 0 <= Datetime.weekday c' <= 4
  /\ 0 <= Datetime.sub_days c' c <= 2.
Proof.
  destruct (congratulate_Ok c Hc) as (c'' & E & Hv & Ho).
  rewrite E in Hcongratulate. inversion Hcongratulate. subst c''.
  split; [exact Hv|].
  unfold Datetime.sub_days, weekend_shift in *. unfold Datetime.weekday in *.
  revert Ho.
  destruct (Z.eqb_spec ((Datetime.toordinal c + 6) mod 7) 5);
    [|destruct (Z.eqb_spec ((Datetime.toordinal c + 6) mod 7) 6)];
    intros Ho; rewrite Ho; split; try lia; Z.div_mod_to_equations; lia.
Qed.

Lemma congratulate_never_weekend_witness :
  valid_date (Datetime.mkdate 2025 3 17)
  /\ 0 <= Datetime.weekday (Datetime.mkdate 2025 3 17) <= 4
  /\ 0 <= Datetime.sub_days (Datetime.mkdate 2025 3 17) (Datetime.mkdate 2025 3 15) <= 2.
Proof.
  apply (congratulate_never_weekend (Datetime.mkdate 2025 3 15)).
  - apply valid_date_compute. reflexivity.
  - reflexivity.
Defined.

Lemma congratulated_working_days (today : Datetime.date)
      (rs : list ContactRecord.t) (items : list AddressBook.item) :
  Forall2 (congratulated today) rs items ->
  (forall r, In r rs -> spec_upcoming today r = true) ->
  Forall (fun it =>
            exists c',
              AddressBook.congratulation_date it = Datetime.strftime c'
              /\ valid_date c'
              /\ 0 <= Datetime.weekday c' <= 4
              /\ 0 <= Datetime.sub_days c' today <= 9)
         items.
Proof.
  intros HF. induction HF as [|r it l items' Hc HF IH]; intros Hin; [constructor|].
  constructor; [|apply IH; intros r' Hr'; apply Hin; right; exact Hr'].
  specialize (Hin r (or_introl eq_refl)).
  destruct Hc as (b & c' & Eb & _ & Hv & Ho & Es & _).
  unfold spec_upcoming in Hin. rewrite Eb in Hin. unfold in_window in Hin.
  apply andb_true_iff in Hin as [H0 H7]. apply Z.leb_le in H0, H7.
  exists c'. split; [exact Es|]. split; [exact Hv|].
  unfold Datetime.sub_days, weekend_shift in *. unfold Datetime.weekday in *.
  revert Ho.
  destruct (Z.eqb_spec
              ((Datetime.toordinal (spec_candidate today (Birthday.value b)) + 6)
                 mod 7) 5);
    [|destruct (Z.eqb_spec
                  ((Datetime.toordinal (spec_candidate today (Birthday.value b)) + 6)
                     mod 7) 6)];
    intros Ho; rewrite Ho; split; try lia; Z.div_mod_to_equations; lia.
Qed.

(** X14: every item that [get_upcoming_birthdays] returns carries the
    rendering of a date that is a working day, Monday to Friday, from 0 to 9
    days after [today]; there are at most as many items as records. *)
Theorem get_upcoming_birthdays_working_days
        (today : Datetime.date) (book : AddressBook.t)
        (items : list AddressBook.item)
        (Htoday : valid_date today) (Hbook : book_valid book)
        (Hreturns : fst (AddressBook.get_upcoming_birthdays today book) = Ok items) :
  Forall (fun it =>
            exists c',
              AddressBook.congratulation_date it = Datetime.strftime c'
              /\ valid_date c'
              /\ 0 <= Datetime.weekday c' <= 4
              /\ 0 <= Datetime.sub_days c' today <= 9)
         items
  /\ (List.length items <= List.length book)%nat.
Proof.
  unfold AddressBook.get_upcoming_birthdays, bind, get in Hreturns.
  cbn [Ok] in Hreturns.
  destruct (for_each_visit_Ok today book _ Htoday Hbook [] items Hreturns)
    as (new & -> & HF).
  cbn [app]. split.
  - apply (congratulated_working_days today _ _ HF).
    intros r Hr. apply filter_In in Hr. apply Hr.
  - apply Forall2_length in HF. rewrite <- HF.
    unfold AddressBook.values.
    etransitivity; [apply filter_length_le|]. rewrite length_map. reflexivity.
Qed.

Lemma get_upcoming_birthdays_working_days_witness :
  Forall (fun it =>
            exists c',
              AddressBook.congratulation_date it = Datetime.strftime c'
              /\ valid_date c'
              /\ 0 <= Datetime.weekday c' <= 4
              /\ 0 <= Datetime.sub_days c' (Datetime.mkdate 2025 3 10) <= 9)
         [AddressBook.mkitem "Ann" "12.03.2025";
          AddressBook.mkitem "Bob" "17.03.2025"]
  /\ (List.length [AddressBook.mkitem "Ann" "12.03.2025";
                   AddressBook.mkitem "Bob" "17.03.2025"]
      <= List.length book_march)%nat.
Proof.
  apply (get_upcoming_birthdays_working_days (Datetime.mkdate 2025 3 10) book_march).
  - apply valid_date_compute. reflexivity.
  - repeat constructor; apply valid_date_compute; reflexivity.
  - reflexivity.
Defined.

(** ** The commands *)

Lemma find_eq (n : string) (book : AddressBook.t) :
  AddressBook.find n book = (Ok (AddressBook.dict_get n book), book).
Proof. reflexivity. Qed.

Lemma find_Some (n : string) (book : AddressBook.t) (r : ContactRecord.t) :
  fst (AddressBook.find n book) = Ok (Some r) ->
  AddressBook.dict_get n book = Some r.
Proof. rewrite find_eq. intros H. inversion H. reflexivity. Qed.

Lemma find_None (n : string) (book : AddressBook.t) :
  fst (AddressBook.find n book) = Ok None ->
  AddressBook.dict_get n book = None.
Proof. rewrite find_eq. intros H. inversion H. reflexivity. Qed.

Lemma ten_digits_not_empty (phone : string) :
  List.length (filter Re.is_digit (list_ascii_of_string phone)) = 10%nat ->
  phone <> EmptyString.
Proof. intros H E. subst phone. discriminate H. Qed.

Lemma add_contact_updates
      (book : AddressBook.t) (name phone : string) (rest : list string)
      (r : ContactRecord.t) :
  List.length (filter Re.is_digit (list_ascii_of_string phone)) = 10%nat ->
  AddressBook.dict_get name book = Some r ->
  Commands.add_contact (name :: phone :: rest) book
  = (Ok (Text "Contact updated."),
     AddressBook.dict_set name
       (ContactRecord.mk (ContactRecord.name r)
          (ContactRecord.phones r ++ [Phone.mk (Re.sub_nondigits phone)])
          (ContactRecord.birthday r))
       book).
Proof.
  intros Hphone Hr. pose proof (ten_digits_not_empty _ Hphone) as Hne.
  assert (E : Phone.init phone = Ok (Phone.mk (Re.sub_nondigits phone)))
    by (rewrite Phone_init_eq, Hphone, sub_nondigits_filter; reflexivity).
  unfold Commands.add_contact, Commands.input_error, bind.
  rewrite find_eq, Hr.
  destruct phone as [|c phone]; [contradiction|].
  unfold Commands.call_on, ContactRecord.add_phone, bind, lift, modify, ret.
  rewrite E. reflexivity.
Qed.

Lemma add_contact_adds
      (book : AddressBook.t) (name phone : string) (rest : list string)
      (n : Name.t) :
  List.length (filter Re.is_digit (list_ascii_of_string phone)) = 10%nat ->
  AddressBook.dict_get name book = None ->
  Name.init name = Ok n ->
  Commands.add_contact (name :: phone :: rest) book
  = (Ok (Text "Contact added."),
     snd (AddressBook.add_record
            (ContactRecord.mk n [Phone.mk (Re.sub_nondigits phone)] None)
            book)).
Proof.
  intros Hphone Hn Hi. pose proof (ten_digits_not_empty _ Hphone) as Hne.
  assert (E : Phone.init phone = Ok (Phone.mk (Re.sub_nondigits phone)))
    by (rewrite Phone_init_eq, Hphone, sub_nondigits_filter; reflexivity).
  unfold Commands.add_contact, Commands.input_error, bind.
  rewrite find_eq, Hn.
  unfold lift, ContactRecord.init, rbind. rewrite Hi.
  destruct phone as [|c phone]; [contradiction|].
  unfold Commands.call_on, ContactRecord.add_phone, AddressBook.add_record,
    bind, lift, modify, ret.
  rewrite E. cbn [Ok fst snd ContactRecord.name ContactRecord.set_phones
                    ContactRecord.phones ContactRecord.birthday app].
  rewrite dict_set_set. reflexivity.
Qed.

(** X15: [add_contact] with a phone of ten digits.  For a name that the
    book has, the digits go to the end of the phones of that contact and the
    answer is "Contact updated."; for a new name, a contact with the trimmed
    name and this one phone is stored under the trimmed name and the answer
    is "Contact added.". *)
Theorem add_contact_valid_phone
        (book : AddressBook.t) (name phone : string) (rest : list string)
        (Hphone : List.length (filter Re.is_digit (list_ascii_of_string phone))
                  = 10%nat) :
  (forall r,
      fst (AddressBook.find name book) = Ok (Some r) ->
      Commands.add_contact (name :: phone :: rest) book
      = (Ok (Text "Contact updated."),
         AddressBook.dict_set name
           (ContactRecord.mk (ContactRecord.name r)
              (ContactRecord.phones r ++ [Phone.mk (Re.sub_nondigits phone)])
              (ContactRecord.birthday r))
           book))
  /\ (forall n,
         fst (AddressBook.find name book) = Ok None ->
         Name.init name = Ok n ->
         Commands.add_contact (name :: phone :: rest) book
         = (Ok (Text "Contact added."),
            snd (AddressBook.add_record
                   (ContactRecord.mk n [Phone.mk (Re.sub_nondigits phone)] None)
                   book))).
Proof.
  split.
  - intros r Hr. apply find_Some in Hr.
    apply add_contact_updates; assumption.
  - intros n Hn Hi. apply find_None in Hn.
    apply add_contact_adds; assumption.
Qed.

Example add_contact_new_name :
  Commands.add_contact ["Zoe"; "050-123-45-67"] book_new_year
  = (Ok (Text "Contact added."),
     [("Cid", record_cid); ("Zoe", contact "Zoe" ["0501234567"] None)]).
Proof. reflexivity. Qed.

Example add_contact_known_name :
  Commands.add_contact ["Cid"; "050-123-45-67"; "more"] book_new_year
  = (Ok (Text "Contact updated."),
     [("Cid", contact "Cid" ["0501234567"] (Some (Datetime.mkdate 2000 1 1)))]).
Proof. reflexivity. Qed.

(** X16: [add_contact] with a phone that is not ten digits answers with
    the message of [Phone].  For a name that the book has, the book is as
    before; for a new name, the contact has been stored before the phone is
    validated, and it stays in the book without a phone. *)
Theorem add_contact_invalid_phone
        (book : AddressBook.t) (name phone : string) (rest : list string)
        (Hgiven : phone <> EmptyString)
        (Hphone : List.length (filter Re.is_digit (list_ascii_of_string phone))
                  <> 10%nat) :
  (forall r,
      fst (AddressBook.find name book) = Ok (Some r) ->
      Commands.add_contact (name :: phone :: rest) book
      = (Ok (Text "Phone number must contain exactly 10 digits"), book))
  /\ (forall n,
         fst (AddressBook.find name book) = Ok None ->
         Name.init name = Ok n ->
         Commands.add_contact (name :: phone :: rest) book
         = (Ok (Text "Phone number must contain exactly 10 digits"),
            snd (AddressBook.add_record (ContactRecord.mk n [] None) book))).
Proof.
  assert (E : Phone.init phone
              = Raise (ValueError (Text "Phone number must contain exactly 10 digits")))
    by (rewrite Phone_init_eq; apply Nat.eqb_neq in Hphone; rewrite Hphone;
        reflexivity).
  split.
  - intros r Hr. apply find_Some in Hr.
    unfold Commands.add_contact, Commands.input_error, bind.
    rewrite find_eq, Hr.
    destruct phone as [|c phone]; [contradiction|].
    unfold Commands.call_on, ContactRecord.add_phone, bind, lift, modify, ret.
    rewrite E. cbn [Ok Raise fst snd]. rewrite (dict_set_same _ _ _ Hr). reflexivity.
  - intros n Hn Hi. apply find_None in Hn.
    unfold Commands.add_contact, Commands.input_error, bind.
    rewrite find_eq, Hn.
    unfold lift, ContactRecord.init, rbind. rewrite Hi.
    destruct phone as [|c phone]; [contradiction|].
    unfold Commands.call_on, ContactRecord.add_phone, AddressBook.add_record,
      bind, lift, modify, ret.
    rewrite E. cbn [Ok Raise fst snd ContactRecord.name].
    rewrite dict_set_set. reflexivity.
Qed.

Lemma add_contact_invalid_phone_witness :
  (forall r,
      fst (AddressBook.find "Zoe" book_new_year) = Ok (Some r) ->
      Commands.add_contact ["Zoe"; "123"] book_new_year
      = (Ok (Text "Phone number must contain exactly 10 digits"), book_new_year))
  /\ (forall n,
         fst (AddressBook.find "Zoe" book_new_year) = Ok None ->
         Name.init "Zoe" = Ok n ->
         Commands.add_contact ["Zoe"; "123"] book_new_year
         = (Ok (Text "Phone number must contain exactly 10 digits"),
            snd (AddressBook.add_record (ContactRecord.mk n [] None) book_new_year))).
Proof.
  apply (add_contact_invalid_phone book_new_year "Zoe" "123" []).
  - discriminate.
  - simpl. lia.
Defined.

Example add_contact_leaves_contact_without_phone :
  Commands.add_contact ["Zoe"; "123"] book_new_year
  = (Ok (Text "Phone number must contain exactly 10 digits"),
     [("Cid", record_cid); ("Zoe", contact "Zoe" [] None)]).
Proof. reflexivity. Qed.

(** X17: [change_contact] for a contact that has the old phone, with a new
    phone of ten digits, puts the new digits in the place of the first phone
    with the old digits, in the record that the book holds under the name,
    and answers "Contact updated."; the other contacts and the order of the
    book stay. *)
Theorem change_contact_replaces
        (book : AddressBook.t) (name old_phone new_phone : string)
        (rest : list string) (r : ContactRecord.t)
        (l1 l2 : list Phone.t) (p : Phone.t)
        (Hfound : fst (AddressBook.find name book) = Ok (Some r))
        (Hphones : ContactRecord.phones r = (l1 ++ p :: l2)%list)
        (Hp : Phone.value p = Re.sub_nondigits old_phone)
        (Hfirst : ~ In (Re.sub_nondigits old_phone) (map Phone.value l1))
        (Hnew : List.length (filter Re.is_digit (list_ascii_of_string new_phone))
                = 10%nat) :
  let r' := ContactRecord.mk (ContactRecord.name r)
              (l1 ++ Phone.mk (Re.sub_nondigits new_phone) :: l2)
              (ContactRecord.birthday r) in
  let book' := snd (Commands.change_contact (name :: old_phone :: new_phone :: rest) book) in
  Commands.change_contact (name :: old_phone :: new_phone :: rest) book
  = (Ok (Text "Contact updated."), AddressBook.dict_set name r' book)
  /\ fst (AddressBook.find name book') = Ok (Some r')
  /\ map fst book' = map fst book
  /\ forall k, k <> name ->
               fst (AddressBook.find k book') = fst (AddressBook.find k book).
Proof.
  apply find_Some in Hfound.
  assert (E : ContactRecord.edit_phone old_phone new_phone r
              = (Ok tt,
                 ContactRecord.mk (ContactRecord.name r)
                   (l1 ++ Phone.mk (Re.sub_nondigits new_phone) :: l2)
                   (ContactRecord.birthday r))).
  { unfold ContactRecord.edit_phone, ContactRecord.find_phone, bind, get, ret,
      modify, lift.
    cbn [Ok]. rewrite Hphones, (first_index_split _ l1 l2 p Hp Hfirst).
    rewrite Phone_init_eq, Hnew, <- sub_nondigits_filter.
    unfold ContactRecord.set_phones. cbn [Nat.eqb Ok Phone.value].
    rewrite Hphones, set_value_at_split. reflexivity. }
  assert (C : Commands.change_contact (name :: old_phone :: new_phone :: rest) book
              = (Ok (Text "Contact updated."),
                 AddressBook.dict_set name
                   (ContactRecord.mk (ContactRecord.name r)
                      (l1 ++ Phone.mk (Re.sub_nondigits new_phone) :: l2)
                      (ContactRecord.birthday r)) book)).
  { unfold Commands.change_contact, Commands.input_error, bind.
    rewrite find_eq, Hfound. cbn [Ok]. unfold Commands.call_on. rewrite E.
    reflexivity. }
  cbv zeta. rewrite C. cbn [snd]. split; [reflexivity|].
  rewrite !find_eq. cbn [fst]. split; [rewrite dict_get_set; reflexivity|].
  split; [apply (dict_set_keys_present _ _ _ _ Hfound)|].
  intros k Hk. rewrite find_eq, dict_get_set_other by exact Hk. reflexivity.
Qed.

Lemma change_contact_replaces_witness :
  let r' := ContactRecord.mk (ContactRecord.name record_ann)
              ([Phone.mk "0501234567"]
                 ++ Phone.mk (Re.sub_nondigits "099 765 43 21") :: [])
              (ContactRecord.birthday record_ann) in
  let book' := snd (Commands.change_contact
                      ["Ann"; "0670000000"; "099 765 43 21"] book_march) in
  Commands.change_contact ["Ann"; "0670000000"; "099 765 43 21"] book_march
  = (Ok (Text "Contact updated."), AddressBook.dict_set "Ann" r' book_march)
  /\ fst (AddressBook.find "Ann" book') = Ok (Some r')
  /\ map fst book' = map fst book_march
  /\ forall k, k <> "Ann" ->
               fst (AddressBook.find k book') = fst (AddressBook.find k book_march).
Proof.
  apply (change_contact_replaces book_march "Ann" "0670000000" "099 765 43 21" []
           record_ann [Phone.mk "0501234567"] [] (Phone.mk "0670000000")).
  - reflexivity.
  - reflexivity.
  - reflexivity.
  - simpl. intros [H|[]]. discriminate H.
  - reflexivity.
Defined.

(** X18: when [change_contact] cannot do the change, the book is as
    before and the answer says why: "Contact <name> not found." for a name
    that the book does not have, "Phone not found" when the contact has no
    phone with the old digits, whatever the new phone is, and the message of
    [Phone] when the old phone is there and the new one is not ten
    digits. *)
Theorem change_contact_failures_keep_book
        (book : AddressBook.t) (name old_phone new_phone : string)
        (rest : list string) :
  (fst (AddressBook.find name book) = Ok None ->
   Commands.change_contact (name :: old_phone :: new_phone :: rest) book
   = (Ok (Text ("Contact " ++ name ++ " not found.")), book))
  /\ (forall r,
         fst (AddressBook.find name book) = Ok (Some r) ->
         ~ In (Re.sub_nondigits old_phone) (map Phone.value (ContactRecord.phones r)) ->
         Commands.change_contact (name :: old_phone :: new_phone :: rest) book
         = (Ok (Text "Phone not found"), book))
  /\ (forall r,
         fst (AddressBook.find name book) = Ok (Some r) ->
         In (Re.sub_nondigits old_phone) (map Phone.value (ContactRecord.phones r)) ->
         List.length (filter Re.is_digit (list_ascii_of_string new_phone)) <> 10%nat ->
         Commands.change_contact (name :: old_phone :: new_phone :: rest) book
         = (Ok (Text "Phone number must contain exactly 10 digits"), book)).
Proof.
  unfold Commands.change_contact, Commands.input_error, bind.
  rewrite find_eq. split; [|split].
  - intros H. apply find_None in H. rewrite H. reflexivity.
  - intros r H Hn. apply find_Some in H. rewrite H.
    unfold Commands.call_on, ContactRecord.edit_phone, ContactRecord.find_phone,
      bind, get, ret, raise.
    cbn [Ok]. rewrite (first_index_not_In _ _ Hn). cbn [Raise].
    rewrite (dict_set_same _ _ _ H). reflexivity.
  - intros r H Hi Hnew. apply find_Some in H. rewrite H.
    destruct (first_index_In _ _ Hi) as [i Ei].
    unfold Commands.call_on, ContactRecord.edit_phone, ContactRecord.find_phone,
      bind, get, ret, raise, lift.
    cbn [Ok]. rewrite Ei, Phone_init_eq.
    apply Nat.eqb_neq in Hnew. rewrite Hnew. cbn [Raise].
    rewrite (dict_set_same _ _ _ H). reflexivity.
Qed.

Example change_contact_unknown_name :
  Commands.change_contact ["Zoe"; "0501234567"; "0997654321"] book_march
  = (Ok (Text "Contact Zoe not found."), book_march).
Proof. reflexivity. Qed.

Example change_contact_unknown_phone :
  Commands.change_contact ["Ann"; "123"; "0997654321"] book_march
  = (Ok (Text "Phone not found"), book_march).
Proof. reflexivity. Qed.

Lemma show_phone_found (book : AddressBook.t) (name : string)
      (rest : list string) (r : ContactRecord.t) :
  AddressBook.dict_get name book = Some r ->
  ContactRecord.phones r <> [] ->
  Commands.show_phone (name :: rest) book
  = (Ok (Text (name ++ ": "
                    ++ String.concat ", " (map Phone.value (ContactRecord.phones r)))),
     book).
Proof.
  intros E Hne. unfold Commands.show_phone, Commands.input_error, bind.
  rewrite find_eq, E. cbn [Ok].
  destruct (ContactRecord.phones r) as [|q l]; [contradiction | reflexivity].
Qed.

(** X19: after [add_contact] with a trimmed name and a phone of ten
    digits, [show_phone] for that name shows the name and the phones of the
    contact with ", " between them, the new digits last. *)
Theorem show_phone_after_add_contact
        (book : AddressBook.t) (name phone : string) (rest rest' : list string)
        (Hname : trimmed name)
        (Hphone : List.length (filter Re.is_digit (list_ascii_of_string phone))
                  = 10%nat) :
  let before :=
    match AddressBook.dict_get name book with
    | Some r => map Phone.value (ContactRecord.phones r)
    | None => []
    end in
  let book' := snd (Commands.add_contact (name :: phone :: rest) book) in
  Commands.show_phone (name :: rest') book'
  = (Ok (Text (name ++ ": "
                    ++ String.concat ", " (before ++ [Re.sub_nondigits phone]))),
     book').
Proof.
  cbv zeta. destruct (AddressBook.dict_get name book) as [r|] eqn:E.
  - rewrite (add_contact_updates book name phone rest r Hphone E). cbn [snd].
    rewrite show_phone_found
      with (r := ContactRecord.mk (ContactRecord.name r)
                   (ContactRecord.phones r ++ [Phone.mk (Re.sub_nondigits phone)])
                   (ContactRecord.birthday r)).
    + cbn [ContactRecord.phones]. rewrite map_app. reflexivity.
    + apply dict_get_set.
    + cbn [ContactRecord.phones]. intros H. apply app_eq_nil in H as [_ H].
      discriminate H.
  - rewrite (add_contact_adds book name phone rest (Name.mk name) Hphone E
               (Name_init_trimmed name Hname)).
    unfold AddressBook.add_record, modify. cbn [snd Name.value ContactRecord.name].
    rewrite show_phone_found
      with (r := ContactRecord.mk (Name.mk name)
                   [Phone.mk (Re.sub_nondigits phone)] None).
    + reflexivity.
    + apply dict_get_set.
    + discriminate.
Qed.

Lemma show_phone_after_add_contact_witness :
  let before :=
    match AddressBook.dict_get "Ann" book_march with
    | Some r => map Phone.value (ContactRecord.phones r)
    | None => []
    end in
  let book' := snd (Commands.add_contact ["Ann"; "(093) 111-22-33"] book_march) in
  Commands.show_phone ["Ann"] book'
  = (Ok (Text ("Ann" ++ ": "
                     ++ String.concat ", " (before ++ [Re.sub_nondigits "(093) 111-22-33"]))),
     book').
Proof.
  apply (show_phone_after_add_contact book_march "Ann" "(093) 111-22-33" [] []).
  - split; [discriminate | split; reflexivity].
  - reflexivity.
Defined.

Example show_phone_ann :
  fst (Commands.show_phone ["Ann"]
         (snd (Commands.add_contact ["Ann"; "(093) 111-22-33"] book_march)))
  = Ok (Text "Ann: 0501234567, 0670000000, 0931112233").
Proof. reflexivity. Qed.



Example show_birthday_year_999 :
  fst (Commands.show_birthday ["Bob"]
         (snd (Commands.add_birthday ["Bob"; "05.07.0999"] book_march)))
  = Ok (Text "Bob: 05.07.999").
Proof. reflexivity. Qed.

Example show_birthday_normalized :
  fst (Commands.show_birthday ["Bob"]
         (snd (Commands.add_birthday ["Bob"; "5.7.1999"] book_march)))
  = Ok (Text "Bob: 05.07.1999").
Proof. reflexivity. Qed.

Example add_birthday_refused :
  Commands.add_birthday ["Bob"; "1999-07-05"] book_march
  = (Ok (Prefixed "Invalid date format. Use DD.MM.YYYY. Error: "
                  (TimeDataMismatch "1999-07-05" "%d.%m.%Y")),
     book_march).
Proof. reflexivity. Qed.

(** X21: the commands that show something, [phone], [all],
    [show-birthday] and [birthdays], never change the book, whatever their
    arguments are. *)
Theorem show_commands_keep_book
        (today : Datetime.date) (args : list string) (book : AddressBook.t) :
  snd (Commands.show_phone args book) = book
  /\ snd (Commands.show_all args book) = book
  /\ snd (Commands.show_birthday args book) = book
  /\ snd (Commands.birthdays today args book) = book.
Proof.
  split; [|split; [|split]].
  - unfold Commands.show_phone, Commands.input_error, bind.
    destruct args as [|name rest]; [reflexivity|].
    rewrite find_eq. cbn [Ok].
    destruct (AddressBook.dict_get name book) as [r|]; [|reflexivity].
    destruct (ContactRecord.phones r); reflexivity.
  - unfold Commands.show_all, Commands.input_error, bind, get.
    cbn [Ok]. destruct book; reflexivity.
  - unfold Commands.show_birthday, Commands.input_error, bind.
    destruct args as [|name rest]; [reflexivity|].
    rewrite find_eq. cbn [Ok].
    destruct (AddressBook.dict_get name book) as [r|]; [|reflexivity].
    destruct (ContactRecord.birthday r); reflexivity.
  - unfold Commands.birthdays, Commands.input_error, bind.
    pose proof (for_each_keeps_state (AddressBook.visit today)
                  (fun x acc s => visit_keeps_state today x acc s)
                  (AddressBook.values book) [] book) as H.
    unfold AddressBook.get_upcoming_birthdays, bind, get. cbn [Ok].
    destruct (for_each _ _ _ _) as [[e|items] s]; cbn [snd] in H; subst s.
    + destruct e; reflexivity.
    + destruct items; reflexivity.
Qed.

(** X22: when the year of [today] is before 9999, [birthdays] answers "No
    upcoming birthdays in the next week." exactly when no contact of the
    book has its candidate from 0 to 7 days after [today]; otherwise it
    answers with the heading and one line for each such contact, in the
    order of the book. *)
Theorem birthdays_none_iff
        (today : Datetime.date) (args : list string) (book : AddressBook.t)
        (Htoday : valid_date today)
        (Hyear : Datetime.year today < Datetime.MAXYEAR)
        (Hbook : book_valid book) :
  (fst (Commands.birthdays today args book)
   = Ok (Text "No upcoming birthdays in the next week.")
   <-> forall r, In r (AddressBook.values book) -> spec_upcoming today r = false)
  /\ exists items,
      fst (AddressBook.get_upcoming_birthdays today book) = Ok items
      /\ map AddressBook.item_name items
         = map (fun r => Name.value (ContactRecord.name r))
               (filter (spec_upcoming today) (AddressBook.values book))
      /\ (items <> [] ->
          fst (Commands.birthdays today args book)
          = Ok (Text (String.concat Commands.newline
                        ("Upcoming birthdays:"
                           :: map (fun it =>
                                     "  " ++ AddressBook.item_name it ++ ": "
                                          ++ AddressBook.congratulation_date it)
                                  items)))).
Proof.
  destruct (for_each_visit_total today book _ Htoday Hyear Hbook []) as [items E].
  pose proof (for_each_visit_Ok today book _ Htoday Hbook [] items) as H.
  rewrite E in H. destruct (H eq_refl) as (new & Hi & HF). cbn [app] in Hi. subst new.
  pose proof (congratulated_names today _ _ HF) as Hnames.
  assert (G : AddressBook.get_upcoming_birthdays today book = (Ok items, book))
    by exact E.
  assert (B : fst (Commands.birthdays today args book)
              = match items with
                | [] => Ok (Text "No upcoming birthdays in the next week.")
                | _ => Ok (Text (String.concat Commands.newline
                                   ("Upcoming birthdays:"
                                      :: map (fun it =>
                                                "  " ++ AddressBook.item_name it ++ ": "
                                                     ++ AddressBook.congratulation_date it)
                                             items)))
                end).
  { unfold Commands.birthdays, Commands.input_error, bind. rewrite G.
    cbn [Ok]. destruct items; reflexivity. }
  split.
  - rewrite B. split.
    + intros HB r Hr. destruct (spec_upcoming today r) eqn:Eu; [|reflexivity].
      exfalso.
      assert (Hf : In r (filter (spec_upcoming today) (AddressBook.values book)))
        by (apply filter_In; auto).
      destruct items as [|it items'].
      * apply Forall2_length in HF. simpl in HF.
        destruct (filter _ _); [contradiction | discriminate].
      * inversion HB.
    + intros Hall.
      assert (Hf : filter (spec_upcoming today) (AddressBook.values book) = []).
      { clear -Hall. induction (AddressBook.values book) as [|r l IH]; simpl;
          [reflexivity|].
        rewrite (Hall r (or_introl eq_refl)). apply IH.
        intros r' Hr'. apply Hall. right. exact Hr'. }
      rewrite Hf in HF. inversion HF. reflexivity.
  - exists items. rewrite G. split; [reflexivity|]. split; [exact Hnames|].
    intros Hne. rewrite B. destruct items; [contradiction | reflexivity].
Qed.

Lemma birthdays_none_iff_witness :
  (fst (Commands.birthdays (Datetime.mkdate 2025 3 10) [] book_february)
   = Ok (Text "No upcoming birthdays in the next week.")
   <-> forall r, In r (AddressBook.values book_february) ->
                 spec_upcoming (Datetime.mkdate 2025 3 10) r = false)
  /\ exists items,
      fst (AddressBook.get_upcoming_birthdays (Datetime.mkdate 2025 3 10) book_february)
      = Ok items
      /\ map AddressBook.item_name items
         = map (fun r => Name.value (ContactRecord.name r))
               (filter (spec_upcoming (Datetime.mkdate 2025 3 10))
                       (AddressBook.values book_february))
      /\ (items <> [] ->
          fst (Commands.birthdays (Datetime.mkdate 2025 3 10) [] book_february)
          = Ok (Text (String.concat Commands.newline
                        ("Upcoming birthdays:"
                           :: map (fun it =>
                                     "  " ++ AddressBook.item_name it ++ ": "
                                          ++ AddressBook.congratulation_date it)
                                  items)))).
Proof.
  apply (birthdays_none_iff (Datetime.mkdate 2025 3 10) [] book_february).
  - apply valid_date_compute. reflexivity.
  - reflexivity.
  - repeat constructor; apply valid_date_compute; reflexivity.
Defined.

Example birthdays_march :
  fst (Commands.birthdays (Datetime.mkdate 2025 3 10) [] book_march)
  = Ok (Text ("Upcoming birthdays:" ++ Commands.newline
              ++ "  Ann: 12.03.2025" ++ Commands.newline
              ++ "  Bob: 17.03.2025")).
Proof. reflexivity. Qed.

Example birthdays_none :
  fst (Commands.birthdays (Datetime.mkdate 2025 3 10) [] book_february)
  = Ok (Text "No upcoming birthdays in the next week.").
Proof. reflexivity. Qed.

(** ** The commands keep the book well formed *)

Lemma methods_keep_name (r : ContactRecord.t) (a b : string) :
  ContactRecord.name (snd (ContactRecord.add_phone a r)) = ContactRecord.name r
  /\ ContactRecord.name (snd (ContactRecord.edit_phone a b r)) = ContactRecord.name r
  /\ ContactRecord.name (snd (ContactRecord.add_birthday a r)) = ContactRecord.name r.
Proof.
  unfold ContactRecord.add_phone, ContactRecord.edit_phone,
    ContactRecord.add_birthday, ContactRecord.find_phone, bind, lift, modify,
    get, ret, raise.
  cbn [Ok]. split; [|split].
  - destruct (Phone.init a); reflexivity.
  - destruct (ContactRecord.first_index _ _); [|reflexivity].
    destruct (Phone.init b); reflexivity.
  - destruct (Birthday.init a); reflexivity.
Qed.

Lemma input_error_state {S : Type} (func : M S message) (s : S) :
  snd (Commands.input_error func s) = snd (func s).
Proof.
  unfold Commands.input_error. destruct (func s) as [[[m|m]|v] s']; reflexivity.
Qed.

Lemma call_on_state {A : Type} (key : string) (r : ContactRecord.t)
      (method : M ContactRecord.t A) (book : AddressBook.t) :
  snd (Commands.call_on key r method book)
  = AddressBook.dict_set key (snd (method r)) book.
Proof. unfold Commands.call_on. destruct (method r); reflexivity. Qed.

Lemma bind_ret_state {S A B : Type} (m : M S A) (v : B) (s : S) :
  snd (bind m (fun _ => ret v) s) = snd (m s).
Proof. unfold bind, ret. destruct (m s) as [[e|a] s']; reflexivity. Qed.

Lemma call_on_wf {A : Type} (book : AddressBook.t) (r : ContactRecord.t)
      (method : M ContactRecord.t A) :
  book_wf book ->
  record_wf (snd (method r)) ->
  ContactRecord.name (snd (method r)) = ContactRecord.name r ->
  book_wf (snd (Commands.call_on (Name.value (ContactRecord.name r)) r method book)).
Proof.
  intros Hb Hr Hn. rewrite call_on_state, <- Hn. apply book_wf_set; assumption.
Qed.

Lemma add_contact_wf (args : list string) (book : AddressBook.t) :
  book_wf book -> book_wf (snd (Commands.add_contact args book)).
Proof.
  intros Hwf. unfold Commands.add_contact. rewrite input_error_state.
  destruct args as [|name [|phone rest]]; try exact Hwf.
  unfold bind at 1. rewrite find_eq. cbn [Ok].
  destruct (AddressBook.dict_get name book) as [r|] eqn:E.
  - destruct (book_wf_get _ _ _ Hwf E) as [Hk Hr].
    rewrite bind_ret_state.
    destruct phone as [|c phone]; [exact Hwf|].
    rewrite Hk. apply call_on_wf; [exact Hwf | apply add_phone_wf, Hr |].
    apply (methods_keep_name r _ EmptyString).
  - unfold bind at 1, lift.
    destruct (ContactRecord.init name) as [e|record] eqn:Ei; [exact Hwf|].
    pose proof (init_wf _ _ Ei) as Hr.
    unfold bind at 1, AddressBook.add_record, modify. cbn [Ok].
    rewrite bind_ret_state.
    pose proof (book_wf_set book record Hwf Hr) as Hwf1.
    destruct phone as [|c phone]; [exact Hwf1|].
    apply call_on_wf; [exact Hwf1 | apply add_phone_wf, Hr |].
    apply (methods_keep_name record _ EmptyString).
Qed.

Lemma change_contact_wf (args : list string) (book : AddressBook.t) :
  book_wf book -> book_wf (snd (Commands.change_contact args book)).
Proof.
  intros Hwf. unfold Commands.change_contact. rewrite input_error_state.
  destruct args as [|name [|old_phone [|new_phone rest]]]; try exact Hwf.
  unfold bind at 1. rewrite find_eq. cbn [Ok].
  destruct (AddressBook.dict_get name book) as [r|] eqn:E; [|exact Hwf].
  destruct (book_wf_get _ _ _ Hwf E) as [Hk Hr].
  rewrite bind_ret_state, Hk.
  apply call_on_wf; [exact Hwf | apply edit_phone_wf, Hr |].
  apply (methods_keep_name r _ _).
Qed.

Lemma add_birthday_command_wf (args : list string) (book : AddressBook.t) :
  book_wf book -> book_wf (snd (Commands.add_birthday args book)).
Proof.
  intros Hwf. unfold Commands.add_birthday. rewrite input_error_state.
  destruct args as [|name [|birthday rest]]; try exact Hwf.
  unfold bind at 1. rewrite find_eq. cbn [Ok].
  destruct (AddressBook.dict_get name book) as [r|] eqn:E; [|exact Hwf].
  destruct (book_wf_get _ _ _ Hwf E) as [Hk Hr].
  rewrite bind_ret_state, Hk.
  apply call_on_wf; [exact Hwf | apply add_birthday_wf, Hr |].
  apply (methods_keep_name r _ EmptyString).
Qed.

(** X23: the commands that change the book, [add], [change] and
    [add-birthday], keep it well formed, whatever their arguments are and
    whether they succeed or answer with an error: no name is a key twice,
    every contact is stored under its own trimmed name, every phone is ten
    digits and every birthday is a date.  So a book that starts empty stays
    well formed, and its birthdays are the dates that
    [get_upcoming_birthdays] needs. *)
Theorem commands_keep_wf (args : list string) (book : AddressBook.t)
        (Hwf : book_wf book) :
  book_wf (snd (Commands.add_contact args book))
  /\ book_wf (snd (Commands.change_contact args book))
  /\ book_wf (snd (Commands.add_birthday args book))
  /\ book_valid book.
Proof.
  split; [apply add_contact_wf, Hwf|].
  split; [apply change_contact_wf, Hwf|].
  split; [apply add_birthday_command_wf, Hwf|].
  destruct Hwf as [_ Hr]. unfold book_valid, AddressBook.values.
  apply Forall_map. eapply Forall_impl; [|exact Hr].
  intros [k r] [_ (_ & _ & Hv)]. exact Hv.
Qed.

Lemma book_march_wf : book_wf book_march.
Proof.
  split.
  - simpl. repeat constructor; simpl; intuition discriminate.
  - repeat (constructor; simpl);
      try reflexivity; try discriminate;
      try (apply valid_date_compute; reflexivity).
Qed.

Lemma commands_keep_wf_witness :
  book_wf (snd (Commands.add_contact ["Zoe"; "123"] book_march))
  /\ book_wf (snd (Commands.change_contact ["Zoe"; "123"] book_march))
  /\ book_wf (snd (Commands.add_birthday ["Zoe"; "123"] book_march))
  /\ book_valid book_march.
Proof.
  apply (commands_keep_wf ["Zoe"; "123"] book_march). exact book_march_wf.
Defined.

(** X24: with too few arguments a command answers with its usage message
    and the book is as before. *)
Theorem commands_too_few_arguments (args : list string) (book : AddressBook.t) :
  ((List.length args < 2)%nat ->
   Commands.add_contact args book
   = (Ok (Text "Please provide name and phone number."), book)
   /\ Commands.add_birthday args book
      = (Ok (Text "Please provide name and birthday (DD.MM.YYYY)."), book))
  /\ ((List.length args < 3)%nat ->
      Commands.change_contact args book
      = (Ok (Text "Please provide name, old phone and new phone."), book))
  /\ (args = [] ->
      Commands.show_phone args book = (Ok (Text "Please provide contact name."), book)
      /\ Commands.show_birthday args book
         = (Ok (Text "Please provide contact name."), book)).
Proof.
  split; [|split].
  - intros H. destruct args as [|a [|b rest]]; simpl in H; try lia; split; reflexivity.
  - intros H. destruct args as [|a [|b [|c rest]]]; simpl in H; try lia; reflexivity.
  - intros ->. split; reflexivity.
Qed.

(** ** The words of a line *)

Lemma no_space_append (a b : string) :
  no_space (a ++ b) = no_space a && no_space b.
Proof.
  induction a as [|c a IH]; simpl; [reflexivity|].
  rewrite IH, andb_assoc. reflexivity.
Qed.

Lemma append_not_empty (a : string) (c : ascii) :
  a ++ String c EmptyString <> EmptyString.
Proof. destruct a; discriminate. Qed.

Lemma split_from_words (s : string) :
  forall word, no_space word = true ->
               Forall is_word (Commands.split_from s word).
Proof.
  induction s as [|c s IH]; intros word Hw; simpl.
  - destruct word; constructor; [split; [discriminate | exact Hw] | constructor].
  - destruct (Name.is_space c) eqn:Ec.
    + destruct word as [|a w]; [apply IH; reflexivity|].
      constructor; [split; [discriminate | exact Hw] | apply IH; reflexivity].
    + apply IH. rewrite no_space_append, Hw. simpl. rewrite Ec. reflexivity.
Qed.

Lemma split_from_word (w : string) :
  no_space w = true ->
  forall s word,
    Commands.split_from (w ++ s) word = Commands.split_from s (word ++ w).
Proof.
  induction w as [|c w IH]; simpl; intros Hw s word.
  - rewrite append_empty_r. reflexivity.
  - apply andb_true_iff in Hw as [Hc Hw]. apply negb_true_iff in Hc.
    rewrite Hc, (IH Hw), append_assoc. reflexivity.
Qed.

Lemma split_concat_words (ws : list string) :
  Forall is_word ws -> Commands.split (String.concat " " ws) = ws.
Proof.
  unfold Commands.split. intros H.
  induction H as [|w ws [Hne Hw] Hws IH]; [reflexivity|].
  destruct ws as [|w' ws'].
  - simpl. rewrite <- (append_empty_r w) at 1.
    rewrite (split_from_word w Hw). simpl. destruct w; [contradiction | reflexivity].
  - change (String.concat " " (w :: w' :: ws'))
      with (w ++ String " " (String.concat " " (w' :: ws'))).
    rewrite (split_from_word w Hw). cbn [append Commands.split_from].
    change (Name.is_space " ") with true. cbv iota.
    destruct w; [contradiction|]. rewrite IH. reflexivity.
Qed.

Lemma split_all_space (s : string) :
  all_space s = true -> Commands.split s = [].
Proof.
  unfold Commands.split. induction s as [|c s IH]; simpl; [reflexivity|].
  intros H. apply andb_true_iff in H as [Hc Hs]. rewrite Hc. apply IH, Hs.
Qed.

Lemma word_strip (w : string) : is_word w -> Name.strip w = w.
Proof.
  intros [Hne Hw]. unfold Name.strip.
  assert (Hs : starts_with_space w = false).
  { destruct w; [reflexivity|]. simpl in *.
    apply andb_true_iff in Hw as [Hc _]. apply negb_true_iff, Hc. }
  assert (He : ends_with_space w = false).
  { clear Hne Hs. induction w as [|c w IH]; [reflexivity|].
    simpl in Hw. apply andb_true_iff in Hw as [Hc Hw]. apply negb_true_iff in Hc.
    destruct w; [exact Hc | apply IH, Hw]. }
  rewrite (lstrip_trimmed w Hs). apply rstrip_trimmed, He.
Qed.

(** X25: [parse_input] cuts a line at its white space: every argument it
    returns is a word, not empty and without white space; a line that is a
    command and its arguments with one blank between them gives back the
    command in small letters and the arguments as they are; an empty line or
    a line of white space gives the empty command and no argument. *)
Theorem parse_input_words :
  (forall line, Forall is_word (snd (Commands.parse_input line)))
  /\ (forall command args,
         is_word command -> Forall is_word args ->
         Commands.parse_input (String.concat " " (command :: args))
         = (Commands.lower command, args))
  /\ (forall line, all_space line = true ->
                   Commands.parse_input line = (EmptyString, [])).
Proof.
  split; [|split].
  - intros line. unfold Commands.parse_input. cbv zeta. cbn [snd].
    pose proof (split_from_words line EmptyString eq_refl) as H.
    fold (Commands.split line) in H.
    destruct (Commands.split line) as [|p [|q rest]]; try constructor.
    + inversion H as [|? ? _ H']. inversion H'. assumption.
    + inversion H as [|? ? _ H']. inversion H'. assumption.
  - intros command args Hc Ha. unfold Commands.parse_input.
    rewrite split_concat_words by (constructor; assumption).
    rewrite (word_strip _ Hc). destruct args; reflexivity.
  - intros line H. unfold Commands.parse_input.
    rewrite (split_all_space _ H). reflexivity.
Qed.

Example parse_input_add :
  Commands.parse_input "  ADD   Ann 0501234567 " = ("add", ["Ann"; "0501234567"]).
Proof. reflexivity. Qed.

Example parse_input_empty : Commands.parse_input "   " = (EmptyString, []).
Proof. reflexivity. Qed.

Lemma add_contact_valid_phone_witness :
  (forall r,
      fst (AddressBook.find "Zoe" book_new_year) = Ok (Some r) ->
      Commands.add_contact ["Zoe"; "050-123-45-67"] book_new_year
      = (Ok (Text "Contact updated."),
         AddressBook.dict_set "Zoe"
           (ContactRecord.mk (ContactRecord.name r)
              (ContactRecord.phones r ++ [Phone.mk (Re.sub_nondigits "050-123-45-67")])
              (ContactRecord.birthday r))
           book_new_year))
  /\ (forall n,
         fst (AddressBook.find "Zoe" book_new_year) = Ok None ->
         Name.init "Zoe" = Ok n ->
         Commands.add_contact ["Zoe"; "050-123-45-67"] book_new_year
         = (Ok (Text "Contact added."),
            snd (AddressBook.add_record
                   (ContactRecord.mk n [Phone.mk (Re.sub_nondigits "050-123-45-67")] None)
                   book_new_year))).
Proof.
  apply (add_contact_valid_phone book_new_year "Zoe" "050-123-45-67" []).
  reflexivity.
Defined.
